(** * SportsPickMind: feature adapter, prediction engine, validator, weight tuner

    A shallow embedding of the prediction feedback loop of the repository:

    - [Adapter]   : [dataAdapter.js]   (calculateTeamForm, calculateTravelFatigue)
    - [Engine]    : [advancedPredictionEngine.js]
                    (calculateWeightedPrediction, predictScores,
                     generateFallbackPrediction, generatePrediction)
    - [Validator] : [scheduled/predictionValidator.js] (runPredictionValidation)
    - [Tuner]     : [scheduled/weightTuner.js] (runWeightTuning)
    - [AdapterData]     : [dataAdapter.js] (getHeadToHeadHistory, getTeamInjuries,
                          calculateInjuryImpact, calculatePlayerEfficiency,
                          getTeamPlayers, getTeamRecentGames)
    - [EngineAnalysis]  : [advancedPredictionEngine.js] (identifyKeyFactors,
                          assessRisk, the collectors and the feature vector)
    - [Pipeline]        : [advancedPredictionEngine.js] (the try block of
                          generatePrediction over failing adapter calls)
    - [Recommendations] : [scheduled/weightTuner.js] (generateRecommendations)
    - [AccuracyApi]     : [api/advancedPredictions.js] (getPredictionAccuracy)

    Numbers.  JavaScript numbers are modelled by exact rationals ([Q]); values
    that the source keeps integral (scores, counters, timestamps, day counts)
    are modelled by [Z].  Equality of rationals is [Qeq] ([==]).  The only
    non-finite value the modelled code can produce is [NaN] (a [0/0] in the
    weight tuner); it is represented explicitly by [JS.jsnum]. *)

From Stdlib Require Import ZArith QArith Qround Qabs Lia Lqa List Bool String Ascii.
From Stdlib Require Import Sorted Permutation.
Import ListNotations.

Local Open Scope Z_scope.

(* ===================================================================== *)
(** ** JavaScript numeric helpers                                          *)
(* ===================================================================== *)

Module JS.

(** [Math.min(hi, Math.max(lo, x))] on integers. *)
Definition clampZ (lo hi x : Z) : Z := Z.min hi (Z.max lo x).

(** [Math.max] and [Math.min] on rationals. *)
Definition Qmax (a b : Q) : Q := if Qle_bool a b then b else a.
Definition Qmin (a b : Q) : Q := if Qle_bool a b then a else b.

(** The test [a > b] on numbers. *)
Definition Qgt_bool (a b : Q) : bool := negb (Qle_bool a b).

(** [Math.min(hi, Math.max(lo, x))]. *)
Definition clampQ (lo hi x : Q) : Q := Qmin hi (Qmax lo x).

(** [Math.round x]: nearest integer, a tie goes towards +infinity. *)
Definition Math_round (x : Q) : Z := Qfloor (x + (1 # 2)).

(** [Math.floor x]. *)
Definition Math_floor (x : Q) : Z := Qfloor x.

(** [Math.round(x * 10) / 10]. *)
Definition round1 (x : Q) : Q := inject_Z (Math_round (x * 10)) / 10.

(** [x.toFixed(d)] read back as a number: the magnitude goes to the nearest
    multiple of [10^-d], a tie going up, and the sign is put back. *)
Definition toFixed (d : nat) (x : Q) : Q :=
  let p := inject_Z (10 ^ Z.of_nat d) in
  if Qle_bool 0 x
  then inject_Z (Qfloor (x * p + (1 # 2))) / p
  else - (inject_Z (Qfloor (- x * p + (1 # 2))) / p).

(** A JavaScript number as far as the weight tuner can produce one. *)
Inductive jsnum : Type :=
| Num (q : Q)
| NaN.

(** A [null] column read in a numeric context ([null > 3], [null - 3],
    [x || 0]) counts as [0]. *)
Definition numZ (o : option Z) : Z :=
  match o with Some z => z | None => 0 end.

(** [x || d] on a nullable number: [null] and [0] give [d]. *)
Definition orElseQ (o : option Q) (d : Q) : Q :=
  match o with
  | Some q => if Qeq_bool q 0 then d else q
  | None => d
  end.

(** [a === b] on nullable text columns. *)
Definition strictEqText (a b : option string) : bool :=
  match a, b with
  | Some x, Some y => String.eqb x y
  | None, None => true
  | _, _ => false
  end.

End JS.

(* ===================================================================== *)
(** ** Feature adapter ([dataAdapter.js])                                  *)
(* ===================================================================== *)

Module Adapter.
Import JS.

(** A row of [games] after [transformGame].  [date] is the game time in
    milliseconds, i.e. [new Date(g.date).getTime()]. *)
Record Game : Type := mkGame {
  home_team : string;
  away_team : string;
  home_score : option Z;
  away_score : option Z;
  date : Z
}.

(** *** Travel and fatigue *)

Record FatigueSnapshot : Type := mkFatigue {
  days_rest : Z;
  games_in_last_week : Z;
  back_to_back : bool;
  fatigue_score : Z
}.

Definition msPerDay : Z := 1000 * 60 * 60 * 24.

(** The [if / else if] ladder on [daysSinceLastGame]. *)
Definition restTable (daysSinceLastGame : Z) : Z :=
  if daysSinceLastGame =? 0 then 10
  else if daysSinceLastGame =? 1 then 7
  else if daysSinceLastGame =? 2 then 4
  else if daysSinceLastGame =? 3 then 2
  else 0.

(** Lines "Fatigue score: 0-10" to the returned [fatigue_score]:
    the ladder, [fatigueScore += Math.min(3, gamesLastWeek - 2)], and the
    final [Math.min(10, Math.max(0, fatigueScore))]. *)
Definition fatigueScoreOf (daysSinceLastGame gamesLastWeek : Z) : Z :=
  let fatigueScore := restTable daysSinceLastGame in
  let fatigueScore := fatigueScore + Z.min 3 (gamesLastWeek - 2) in
  clampZ 0 10 fatigueScore.

(** [calculateTravelFatigue]: [recentGames] is the result of
    [getTeamRecentGames(teamId, 5)] (final games, newest first, at most
    five), [currentTime] is [new Date(currentGameDate).getTime()] or
    [Date.now()]. *)
Definition calculateTravelFatigue (recentGames : list Game) (currentTime : Z)
  : FatigueSnapshot :=
  match recentGames with
  | [] => mkFatigue 7 0 false 0
  | lastGame :: _ =>
      let lastGameTime := date lastGame in
      let daysSinceLastGame := (currentTime - lastGameTime) / msPerDay in
      let oneWeekAgo := currentTime - 7 * 24 * 60 * 60 * 1000 in
      let gamesLastWeek :=
        Z.of_nat (List.length (filter (fun g => oneWeekAgo <? date g) recentGames)) in
      let backToBack := daysSinceLastGame <=? 1 in
      mkFatigue daysSinceLastGame gamesLastWeek backToBack
                (fatigueScoreOf daysSinceLastGame gamesLastWeek)
  end.

(** *** Team form *)

Inductive Momentum : Type := hot | positive | neutral | cold | unknown.

Record TeamForm : Type := mkTeamForm {
  games_played : Z;
  wins : Z;
  losses : Z;
  win_percentage : Q;
  avg_points_scored : Q;
  avg_points_allowed : Q;
  point_differential : Q;
  form_score : Q;
  momentum : Momentum;
  last_5_wins : option Z          (* absent from the zero-games record *)
}.

(** The four counters the [forEach] callback updates. *)
Record FormCounters : Type := mkCounters {
  c_wins : Z;
  c_totalPointsScored : Z;
  c_totalPointsAllowed : Z;
  c_recentWins : Z
}.

Definition teamScoreOf (teamId : string) (game : Game) : option Z :=
  if String.eqb (home_team game) teamId then home_score game else away_score game.

Definition oppScoreOf (teamId : string) (game : Game) : option Z :=
  if String.eqb (home_team game) teamId then away_score game else home_score game.

(** One call of the [forEach] callback, [(game, index) => ...]. *)
Definition formStep (teamId : string) (c : FormCounters) (game : Game) (index : Z)
  : FormCounters :=
  let teamScore := teamScoreOf teamId game in
  let oppScore := oppScoreOf teamId game in
  let won := numZ oppScore <? numZ teamScore in
  mkCounters
    (if won then c_wins c + 1 else c_wins c)
    (c_totalPointsScored c + numZ teamScore)
    (c_totalPointsAllowed c + numZ oppScore)
    (if won && (index <? 5) then c_recentWins c + 1 else c_recentWins c).

(** [recentGames.forEach(...)], from position [index] on. *)
Fixpoint formLoop (teamId : string) (games : list Game) (index : Z)
  (c : FormCounters) : FormCounters :=
  match games with
  | [] => c
  | game :: rest => formLoop teamId rest (index + 1) (formStep teamId c game index)
  end.

Definition momentumOf (recentWins : Z) : Momentum :=
  if 4 <=? recentWins then hot
  else if 3 <=? recentWins then positive
  else if recentWins <=? 1 then cold
  else if recentWins =? 2 then neutral
  else neutral.

(** [calculateTeamForm]: [recentGames] is the result of
    [getTeamRecentGames(teamId, gameCount, 'final')], newest first.  The
    arithmetic is exact: where the exact value lies halfway between two
    tenths, the double the code rounds may lie just below it and the code's
    tenth is then the lower neighbour. *)
Definition calculateTeamForm (teamId : string) (recentGames : list Game) : TeamForm :=
  match recentGames with
  | [] => mkTeamForm 0 0 0 (5 # 10) 0 0 0 5 unknown None
  | _ :: _ =>
      let c := formLoop teamId recentGames 0 (mkCounters 0 0 0 0) in
      let gamesPlayed := Z.of_nat (List.length recentGames) in
      let winPercentage := inject_Z (c_wins c) / inject_Z gamesPlayed in
      let avgScored := inject_Z (c_totalPointsScored c) / inject_Z gamesPlayed in
      let avgAllowed := inject_Z (c_totalPointsAllowed c) / inject_Z gamesPlayed in
      let pointDiff := avgScored - avgAllowed in
      let formScore :=
        (winPercentage * 5)
        + (Qmin (Qmax (pointDiff / 10) (-(25 # 10))) (25 # 10) + (25 # 10))
        + (inject_Z (c_recentWins c) / 5 * 2) in
      mkTeamForm
        gamesPlayed
        (c_wins c)
        (gamesPlayed - c_wins c)
        (inject_Z (Math_round (winPercentage * 1000)) / 1000)
        (round1 avgScored)
        (round1 avgAllowed)
        (round1 pointDiff)
        (Qmin 10 (Qmax 0 (round1 formScore)))
        (momentumOf (c_recentWins c))
        (Some (c_recentWins c))
  end%Q.

(** The quantities the form rule speaks of, read off the list of games. *)
Definition wonBy (teamId : string) (game : Game) : bool :=
  numZ (oppScoreOf teamId game) <? numZ (teamScoreOf teamId game).

Definition countZ {A} (f : A -> bool) (l : list A) : Z :=
  Z.of_nat (List.length (filter f l)).

Definition sumZ (l : list Z) : Z := fold_right Z.add 0 l.

Definition win_pct (teamId : string) (games : list Game) : Q :=
  inject_Z (countZ (wonBy teamId) games) / inject_Z (Z.of_nat (List.length games)).

Definition avg_points_for (teamId : string) (games : list Game) : Q :=
  inject_Z (sumZ (map (fun g => numZ (teamScoreOf teamId g)) games))
  / inject_Z (Z.of_nat (List.length games)).

Definition avg_points_against (teamId : string) (games : list Game) : Q :=
  inject_Z (sumZ (map (fun g => numZ (oppScoreOf teamId g)) games))
  / inject_Z (Z.of_nat (List.length games)).

Definition recent_wins_last_5 (teamId : string) (games : list Game) : Z :=
  countZ (wonBy teamId) (firstn 5 games).

(** The form rule in the words of the specification, before the final clamp
    to [0,10]. *)
Definition form_by_spec (teamId : string) (games : list Game) : Q :=
  (5 * win_pct teamId games
   + clampQ (-(25 # 10)) (25 # 10)
       ((avg_points_for teamId games - avg_points_against teamId games) / 10)
   + (25 # 10)
   + 2 * (inject_Z (recent_wins_last_5 teamId games) / 5))%Q.

(** The fatigue rule in the words of the specification: the step table plus
    one point for every game beyond two in the trailing week, no adjustment
    below that, clamped to [0,10]. *)
Definition fatigue_by_spec (daysSinceLastGame gamesLastWeek : Z) : Z :=
  clampZ 0 10 (restTable daysSinceLastGame + Z.max 0 (gamesLastWeek - 2)).

End Adapter.

(* ===================================================================== *)
(** ** Prediction engine ([advancedPredictionEngine.js])                   *)
(* ===================================================================== *)

Module Engine.
Import JS.
Local Open Scope Q_scope.

(** The [features] object built by [generatePrediction].  Every collector
    returns numbers (its own defaults on failure), so the fields are total. *)
Record Features : Type := mkFeatures {
  home_team_form : Q;
  away_team_form : Q;
  home_player_advantage : Q;
  away_player_advantage : Q;
  home_injury_impact : Q;
  away_injury_impact : Q;
  home_fatigue : Q;
  away_fatigue : Q;
  h2h_advantage : Q;
  home_court_advantage : Q;
  rest_advantage : Q;
  weather_impact : Q;
  home_sentiment : Q;
  away_sentiment : Q;
  sharp_money_indicator : string;
  line_value : Q
}.

(** The game handed to the engine (after [enrichGameData]). *)
Record Game : Type := mkGame {
  id : string;
  homeTeam : string;
  awayTeam : string;
  homeTeamId : option string;
  awayTeamId : option string;
  sport : string
}.

Inductive Side : Type := home | away.

(** The running total [homeAdvantage] of [calculateWeightedPrediction] just
    before the line "Clamp to 0-100": one [let] per [+=] statement. *)
Definition homeAdvantageRaw (features : Features) : Q :=
  let homeAdvantage := 50 in
  let homeAdvantage :=
    homeAdvantage + (home_team_form features - away_team_form features) * 3 in
  let homeAdvantage :=
    homeAdvantage
    + (home_player_advantage features - away_player_advantage features) * 4 in
  let homeAdvantage :=
    homeAdvantage
    + (away_injury_impact features - home_injury_impact features) * (36 # 10) in
  let homeAdvantage :=
    homeAdvantage + (away_fatigue features - home_fatigue features) * (24 # 10) in
  let homeAdvantage := homeAdvantage + h2h_advantage features * 2 in
  let homeAdvantage := homeAdvantage + home_court_advantage features * (16 # 10) in
  let homeAdvantage := homeAdvantage + rest_advantage features * (14 # 10) in
  let homeAdvantage := homeAdvantage + weather_impact features * (6 # 10) in
  let homeAdvantage :=
    homeAdvantage + (home_sentiment features - away_sentiment features) * (4 # 10) in
  let homeAdvantage :=
    if String.eqb (sharp_money_indicator features) "home" then homeAdvantage + 10
    else if String.eqb (sharp_money_indicator features) "away" then homeAdvantage - 10
    else homeAdvantage in
  homeAdvantage.

(** [homeAdvantage = Math.max(0, Math.min(100, homeAdvantage))]. *)
Definition homeAdvantageOf (features : Features) : Q :=
  Qmax 0 (Qmin 100 (homeAdvantageRaw features)).

(** [homeWinProb = homeAdvantage / 100]. *)
Definition homeWinProbOf (features : Features) : Q :=
  homeAdvantageOf features / 100.

Definition lowerAscii (c : ascii) : ascii :=
  let n := nat_of_ascii c in
  if (Nat.leb 65 n && Nat.leb n 90)%bool then ascii_of_nat (n + 32) else c.

Fixpoint toLowerCase (s : string) : string :=
  match s with
  | EmptyString => EmptyString
  | String c rest => String (lowerAscii c) (toLowerCase rest)
  end.

(** The [switch] of [predictScores]: ([baseHome], [baseAway], [variance]). *)
Definition sportConstants (sport : string) : Q * Q * Q :=
  let s := toLowerCase sport in
  if String.eqb s "nba" then (110, 105, 15)
  else if String.eqb s "nfl" then (24, 21, 7)
  else if String.eqb s "mlb" then (45 # 10, 4, 2)
  else (100, 95, 10).

(** [predictScores(sport, homeWinProb, features)]. *)
Definition predictScores (sport : string) (homeWinProb : Q) (features : Features)
  : Q * Q :=
  let '(baseHome, baseAway, variance) := sportConstants sport in
  let probDiff := homeWinProb - (1 # 2) in
  let scoreAdjustment := probDiff * variance * 2 in
  let homeScore := baseHome + scoreAdjustment in
  let awayScore := baseAway - scoreAdjustment in
  let homeScore := homeScore + (home_team_form features - 5) * (variance / 5) in
  let awayScore := awayScore + (away_team_form features - 5) * (variance / 5) in
  let homeScore := homeScore - home_injury_impact features * (variance / 10) in
  let awayScore := awayScore - away_injury_impact features * (variance / 10) in
  let homeScore := homeScore - home_fatigue features * (variance / 10) in
  let awayScore := awayScore - away_fatigue features * (variance / 10) in
  (Qmax 0 homeScore, Qmax 0 awayScore).

Record WeightedPrediction : Type := mkWeighted {
  winner : Side;
  homeWinProbability : Z;
  awayWinProbability : Z;
  homeScore : Z;
  awayScore : Z;
  spread : Q;
  total : Z
}.

(** [calculateWeightedPrediction(features, game)]. *)
Definition calculateWeightedPrediction (features : Features) (game : Game)
  : WeightedPrediction :=
  let homeWinProb := homeWinProbOf features in
  let awayWinProb := 1 - homeWinProb in
  let '(homeScore, awayScore) := predictScores (sport game) homeWinProb features in
  let spread := homeScore - awayScore in
  mkWeighted
    (if Qgt_bool homeWinProb (1 # 2) then home else away)
    (Math_round (homeWinProb * 100))
    (Math_round (awayWinProb * 100))
    (Math_round homeScore)
    (Math_round awayScore)
    (round1 spread)
    (Math_round (homeScore + awayScore)).

(** [calculateConfidence]: only [overall] is kept.  [hasValidData] holds for
    every key, the fields of [Features] being numbers. *)
Definition calculateConfidence (features : Features) (prediction : WeightedPrediction)
  : Z :=
  let predictionStrength :=
    Qabs (inject_Z (homeWinProbability prediction) - 50) / 50 in
  let dataQuality := (85 + 90 + 80 + 85 + 75 + 70 + 85 + 80) / 8 in
  let overall :=
    Math_round (dataQuality * (6 # 10) + predictionStrength * 100 * (4 # 10)) in
  Z.min 95 (Z.max 60 overall).

(** The prediction record, restricted to the fields that exist on both the
    ensemble path and the fallback path, plus the ones whose absence marks
    the fallback record. *)
Record PredictionRecord : Type := mkRecord {
  game_id : string;
  predicted_winner_team_id : option string;
  predicted_winner_name : string;
  confidence_score : Z;
  predicted_home_score : option Z;
  predicted_away_score : option Z;
  predicted_spread : Q;
  predicted_total_score : option Z;
  ai_model : string;
  model_version : string;
  algorithm : option string;
  features : option Features
}.

(** [generateFallbackPrediction(game)].  The two calls of [Math.random()] are
    the inputs [r1] and [r2], each in [0,1). *)
Definition generateFallbackPrediction (game : Game) (r1 r2 : Q) : PredictionRecord :=
  let confidence := (Math_floor (r1 * 20) + 65)%Z in
  let spread := (r2 * 10) - 5 in
  let homeWins := Qgt_bool spread 0 in
  mkRecord
    (id game)
    (if homeWins then homeTeamId game else awayTeamId game)
    (if homeWins then homeTeam game else awayTeam game)
    confidence
    None None
    (round1 spread)
    None
    "Fallback Statistical Model"
    "1.0.0"
    None
    None.

Section GeneratePrediction.

(** The [try] block up to its [features] object ([Promise.all] over the
    collectors and the assembly of [features]); [None] when the block throws.
    The collectors catch the errors of their adapter calls themselves, so a
    failing call does not make the block throw: [Pipeline.tryBlock] is the
    block the engine runs. *)
Variable collect : Game -> option Features.

(** [generatePrediction(game)]: the ensemble record, or, from the [catch]
    block, the fallback record. *)
Definition generatePrediction (game : Game) (r1 r2 : Q) : PredictionRecord :=
  match collect game with
  | Some features =>
      let prediction := calculateWeightedPrediction features game in
      let confidence := calculateConfidence features prediction in
      mkRecord
        (id game)
        (match winner prediction with
         | home => homeTeamId game | away => awayTeamId game end)
        (match winner prediction with
         | home => homeTeam game | away => awayTeam game end)
        confidence
        (Some (homeScore prediction))
        (Some (awayScore prediction))
        (spread prediction)
        (Some (total prediction))
        "Advanced Ensemble v2.0"
        "2.0.0"
        (Some "weighted_ensemble_ml"%string)
        (Some features)
  | None => generateFallbackPrediction game r1 r2
  end.

End GeneratePrediction.

(** The differential as the specification words it: start at 50 and add,
    for each feature that has a home and an away value,
    (home - away) x gain, injuries and fatigue inverted; clamp once. *)
Record Gains : Type := mkGains {
  gain_form : Q;
  gain_player : Q;
  gain_injury : Q;
  gain_fatigue : Q;
  gain_sentiment : Q
}.

Definition differential_by_spec (g : Gains) (features : Features) : Q :=
  clampQ 0 100
    (50
     + (home_team_form features - away_team_form features) * gain_form g
     + (home_player_advantage features - away_player_advantage features) * gain_player g
     + (away_injury_impact features - home_injury_impact features) * gain_injury g
     + (away_fatigue features - home_fatigue features) * gain_fatigue g
     + (home_sentiment features - away_sentiment features) * gain_sentiment g).

End Engine.

(* ===================================================================== *)
(** ** The tables the scheduled workers read and write                     *)
(* ===================================================================== *)

Module Store.

(** The [features] JSON column as the weight tuner reads it: a key that is
    missing from the object is [undefined] ([None]). *)
Record StoredFeatures : Type := mkStored {
  home_team_form : option Q;
  away_team_form : option Q;
  home_player_advantage : option Q;
  away_player_advantage : option Q;
  home_injury_impact : option Q;
  away_injury_impact : option Q;
  home_fatigue : option Q;
  away_fatigue : option Q;
  h2h_advantage : option Q;
  home_court_advantage : option Q;
  rest_advantage : option Q
}.

(** A row of [ai_predictions_enhanced], restricted to the columns the
    workers use.  Times are seconds. *)
Record PredictionRow : Type := mkPrediction {
  p_id : Z;
  p_game_id : string;
  p_sport : option string;
  p_home_team_id : option string;
  p_away_team_id : option string;
  p_predicted_winner_team_id : option string;
  p_confidence_score : Q;
  p_predicted_spread : option Q;
  p_features : option StoredFeatures;
  p_created_at : Z;
  p_actual_outcome : option string;
  p_was_correct : option bool;
  p_margin_of_error : option Q;
  p_validated_at : option Z
}.

Record GameRow : Type := mkGameRow {
  g_id : string;
  g_home_score : option Z;
  g_away_score : option Z;
  g_status : string
}.

Record AccuracyRow : Type := mkAccuracy {
  a_prediction_id : Z;
  a_game_id : string;
  a_predicted_winner : option string;
  a_actual_winner : option string;
  a_prediction_correct : bool;
  a_confidence_level : Q;
  a_margin_of_error : Q;
  a_sport : string;
  a_created_at : Z
}.

(** A row of [system_logs]; the JSON metadata is kept as the numbers it is
    built from. *)
Record LogRow : Type := mkLog {
  log_type : string;
  log_counts : list Z;
  log_created_at : Z
}.

Record DB : Type := mkDB {
  ai_predictions_enhanced : list PredictionRow;
  games : list GameRow;
  prediction_accuracy : list AccuracyRow;
  system_logs : list LogRow
}.

Definition secondsPerDay : Z := 86400.

End Store.

(* ===================================================================== *)
(** ** Prediction validator ([scheduled/predictionValidator.js])           *)
(* ===================================================================== *)

Module Validator.
Import JS Store.

(** A row of the validator's [SELECT]: [p.*] with the joined game's
    [home_score], [away_score] and [status]. *)
Record Joined : Type := mkJoined {
  pred : PredictionRow;
  home_score : option Z;
  away_score : option Z;
  status : string
}.

(** The [WHERE] clause, for a prediction [p] joined with a game [g] at
    time [now]. *)
Definition needsValidation (now : Z) (p : PredictionRow) (g : GameRow) : bool :=
  (String.eqb (g_status g) "final" || String.eqb (g_status g) "completed")
  && (match p_actual_outcome p with None => true | Some _ => false end)
  && (now - 7 * secondsPerDay <=? p_created_at p).

(** [FROM ai_predictions_enhanced p JOIN games g ON p.game_id = g.id WHERE ...],
    without the [LIMIT]. *)
Definition candidates (now : Z) (db : DB) : list Joined :=
  flat_map
    (fun p =>
       map (fun g => mkJoined p (g_home_score g) (g_away_score g) (g_status g))
           (filter (fun g => String.eqb (p_game_id p) (g_id g) && needsValidation now p g)
                   (games db)))
    (ai_predictions_enhanced db).

(** The validator's query, [LIMIT 100]. *)
Definition selectPredictions (now : Z) (db : DB) : list Joined :=
  firstn 100 (candidates now db).

(** "Determine actual winner". *)
Definition actualWinnerOf (j : Joined) : option string :=
  if numZ (away_score j) <? numZ (home_score j)
  then p_home_team_id (pred j)
  else p_away_team_id (pred j).

Definition wasCorrectOf (j : Joined) : bool :=
  strictEqText (actualWinnerOf j) (p_predicted_winner_team_id (pred j)).

(** "Calculate margin of error". *)
Definition marginOfErrorOf (j : Joined) : Q :=
  let actualSpread := inject_Z (numZ (home_score j) - numZ (away_score j)) in
  let predictedSpread := orElseQ (p_predicted_spread (pred j)) 0 in
  Qabs (actualSpread - predictedSpread).

(** The [SET] clause of the [UPDATE], applied to one row. *)
Definition annotate (now : Z) (j : Joined) (p : PredictionRow) : PredictionRow :=
  mkPrediction (p_id p) (p_game_id p) (p_sport p)
    (p_home_team_id p) (p_away_team_id p)
    (p_predicted_winner_team_id p) (p_confidence_score p)
    (p_predicted_spread p) (p_features p) (p_created_at p)
    (actualWinnerOf j)
    (Some (wasCorrectOf j))
    (Some (marginOfErrorOf j))
    (Some now).

(** [UPDATE ai_predictions_enhanced SET ... WHERE id = ?]. *)
Definition updatePrediction (now : Z) (j : Joined) (rows : list PredictionRow)
  : list PredictionRow :=
  map (fun p => if p_id p =? p_id (pred j) then annotate now j p else p) rows.

(** The row of [INSERT INTO prediction_accuracy]. *)
Definition accuracyRowOf (now : Z) (j : Joined) : AccuracyRow :=
  mkAccuracy (p_id (pred j)) (p_game_id (pred j))
    (p_predicted_winner_team_id (pred j))
    (actualWinnerOf j)
    (wasCorrectOf j)
    (p_confidence_score (pred j))
    (marginOfErrorOf j)
    (match p_sport (pred j) with
     | Some s => if String.eqb s "" then "unknown" else s
     | None => "unknown" end)
    now.

(** The three counters of the run. *)
Record Counters : Type := mkCounters {
  validated : Z;
  correct : Z;
  incorrect : Z
}.

(** The body of [for (const pred of predictions.results)], its two
    statements succeeding (a record whose [UPDATE] or [INSERT] throws is
    logged by the [catch] of the body and not counted). *)
Definition validateOne (now : Z) (st : DB * Counters) (j : Joined) : DB * Counters :=
  let '(db, c) := st in
  let db' :=
    mkDB (updatePrediction now j (ai_predictions_enhanced db))
         (games db)
         (prediction_accuracy db ++ [accuracyRowOf now j])
         (system_logs db) in
  let wasCorrect := wasCorrectOf j in
  (db', mkCounters (validated c + 1)
                   (if wasCorrect then correct c + 1 else correct c)
                   (if wasCorrect then incorrect c else incorrect c + 1)).

(** The aggregate query over [prediction_accuracy]; [SUM] and [AVG] are
    [NULL] on an empty set. *)
Record SevenDayStats : Type := mkStats {
  stat_total : Z;
  stat_correct : option Z;
  stat_avg_confidence : option Q;
  stat_avg_error : option Q
}.

Definition sumQ (l : list Q) : Q := fold_right Qplus 0%Q l.

Definition sevenDayStats (now : Z) (db : DB) : SevenDayStats :=
  let rows :=
    filter (fun a => now - 7 * secondsPerDay <=? a_created_at a)
           (prediction_accuracy db) in
  let n := Z.of_nat (List.length rows) in
  match rows with
  | [] => mkStats 0 None None None
  | _ :: _ =>
      mkStats n
        (Some (Z.of_nat (List.length (filter a_prediction_correct rows))))
        (Some (sumQ (map a_confidence_level rows) / inject_Z n)%Q)
        (Some (sumQ (map a_margin_of_error rows) / inject_Z n)%Q)
  end.

(** [stats.total > 0 ? parseFloat(((stats.correct / stats.total) * 100).toFixed(2)) : 0]. *)
Definition accuracyPct (stats : SevenDayStats) : Q :=
  if 0 <? stat_total stats
  then toFixed 2 (inject_Z (numZ (stat_correct stats)) / inject_Z (stat_total stats) * 100)%Q
  else 0%Q.

Record ValidationResult : Type := mkResult {
  success : bool;
  r_validated : Z;
  r_correct : Z;
  r_incorrect : Z;
  accuracy_pct : Q;
  seven_day_stats : SevenDayStats
}.

(** [runPredictionValidation(env)] at time [now], every statement of the
    store succeeding. *)
Definition runPredictionValidation (now : Z) (db : DB) : ValidationResult * DB :=
  let predictions := selectPredictions now db in
  let '(db1, c) := fold_left (validateOne now) predictions (db, mkCounters 0 0 0) in
  let stats := sevenDayStats now db1 in
  let accuracy := accuracyPct stats in
  let db2 :=
    mkDB (ai_predictions_enhanced db1) (games db1) (prediction_accuracy db1)
         (system_logs db1 ++
          [mkLog "prediction_validation"
                 [validated c; correct c; incorrect c; stat_total stats] now]) in
  (mkResult true (validated c) (correct c) (incorrect c) accuracy stats, db2).

(** All the updates of a run, seen from one row: the [UPDATE]s of the
    selected predictions [js], in order. *)
Definition annotateAll (now : Z) (js : list Joined) (p : PredictionRow) : PredictionRow :=
  fold_left (fun q j => if p_id q =? p_id (pred j) then annotate now j q else q) js p.

(** The counters after the loop over [js]. *)
Definition countersAfter (js : list Joined) (c : Counters) : Counters :=
  fold_left
    (fun c j =>
       mkCounters (validated c + 1)
                  (if wasCorrectOf j then correct c + 1 else correct c)
                  (if wasCorrectOf j then incorrect c else incorrect c + 1))
    js c.

(** The outcome rule in the words of the specification: the actual winner
    is the team with the higher final score, and a tied score makes neither
    team the winner. *)
Definition actual_winner_by_spec (j : Joined) : option string :=
  if numZ (away_score j) <? numZ (home_score j) then p_home_team_id (pred j)
  else if numZ (home_score j) <? numZ (away_score j) then p_away_team_id (pred j)
  else None.

Definition was_correct_by_spec (j : Joined) : bool :=
  match actual_winner_by_spec j, p_predicted_winner_team_id (pred j) with
  | Some w, Some p => String.eqb w p
  | _, _ => false
  end.

End Validator.

(* ===================================================================== *)
(** ** Weight tuner ([scheduled/weightTuner.js])                           *)
(* ===================================================================== *)

Module Tuner.
Import JS Store.
Local Open Scope Q_scope.

Inductive Factor : Type :=
| team_form | player_stats | injuries | travel_fatigue
| head_to_head | home_advantage | rest_differential.

(** The keys of [factorPerformance], in insertion order. *)
Definition allFactors : list Factor :=
  [team_form; player_stats; injuries; travel_fatigue;
   head_to_head; home_advantage; rest_differential].

Definition Factor_eqb (a b : Factor) : bool :=
  match a, b with
  | team_form, team_form | player_stats, player_stats | injuries, injuries
  | travel_fatigue, travel_fatigue | head_to_head, head_to_head
  | home_advantage, home_advantage | rest_differential, rest_differential => true
  | _, _ => false
  end.

(** A row of the tuner's [SELECT]: [p.*] (of which [features] is read) with
    the joined [prediction_correct]. *)
Record Analysed : Type := mkAnalysed {
  features : StoredFeatures;
  prediction_correct : bool
}.

(** [FROM ai_predictions_enhanced p JOIN prediction_accuracy a
     ON p.id = a.prediction_id
     WHERE p.created_at >= datetime('now', '-30 days') AND p.features IS NOT NULL]. *)
Definition selectAnalysed (now : Z) (db : DB) : list Analysed :=
  flat_map
    (fun p =>
       match p_features p with
       | None => []
       | Some f =>
           if (now - 30 * secondsPerDay <=? p_created_at p)%Z then
             map (fun a => mkAnalysed f (a_prediction_correct a))
                 (filter (fun a => (p_id p =? a_prediction_id a)%Z)
                         (prediction_accuracy db))
           else []
       end)
    (ai_predictions_enhanced db).

Record Perf : Type := mkPerf {
  correct : Z;
  incorrect : Z;
  avg_impact : Q;
  count : Z
}.

Definition factorPerformance0 : Factor -> Perf :=
  fun _ => mkPerf 0 0 0 0.

Definition both (a b : option Q) (f : Q -> Q -> Q) : option Q :=
  match a, b with
  | Some x, Some y => Some (f x y)
  | _, _ => None
  end.

(** The guard and the impact of each "Analyze ..." block: [None] when the
    feature is [undefined] and the block is skipped. *)
Definition factorImpact (f : StoredFeatures) (k : Factor) : option Q :=
  match k with
  | team_form =>
      both (home_team_form f) (away_team_form f) (fun h a => Qabs (h - a))
  | player_stats =>
      both (home_player_advantage f) (away_player_advantage f) (fun h a => Qabs (h - a))
  | injuries =>
      both (home_injury_impact f) (away_injury_impact f) (fun h a => Qabs (h - a))
  | travel_fatigue =>
      both (home_fatigue f) (away_fatigue f) (fun h a => Qabs (h - a))
  | head_to_head =>
      option_map (fun h => Qabs (h - 5)) (h2h_advantage f)
  | home_advantage =>
      home_court_advantage f
  | rest_differential =>
      option_map Qabs (rest_advantage f)
  end.

(** The body of one "Analyze ..." block. *)
Definition record (perf : Perf) (impact : Q) (wasCorrect : bool) : Perf :=
  mkPerf (if wasCorrect then correct perf + 1 else correct perf)%Z
         (if wasCorrect then incorrect perf else incorrect perf + 1)%Z
         (avg_impact perf + impact)
         (count perf + 1)%Z.

(** The body of [for (const pred of predictions.results)]. *)
Definition analyse (perf : Factor -> Perf) (pred : Analysed) : Factor -> Perf :=
  fun k =>
    match factorImpact (features pred) k with
    | Some impact => record (perf k) impact (prediction_correct pred)
    | None => perf k
    end.

Record FactorStats : Type := mkFactorStats {
  accuracy : Q;              (* [parseFloat] of the two-decimal string *)
  fs_correct : Z;
  fs_incorrect : Z;
  fs_total : Z;
  fs_avg_impact : Q
}.

(** The body of the loop "Calculate accuracy rates for each factor": the
    entry of [factorAccuracy] for one factor, none when its count is zero. *)
Definition accuracyEntry (k : Factor) (perf : Perf) : list (Factor * FactorStats) :=
  if (0 <? count perf)%Z then
    let avg := avg_impact perf / inject_Z (count perf) in
    [(k, mkFactorStats
           (toFixed 2 (inject_Z (correct perf) / inject_Z (count perf) * 100))
           (correct perf) (incorrect perf) (count perf)
           (toFixed 2 avg))]
  else [].

(** [factorAccuracy], in the order of [Object.entries(factorPerformance)]. *)
Definition factorAccuracyOf (perf : Factor -> Perf) : list (Factor * FactorStats) :=
  flat_map (fun k => accuracyEntry k (perf k)) allFactors.

Definition currentWeights (k : Factor) : Q :=
  match k with
  | team_form => 15 # 100
  | player_stats => 20 # 100
  | injuries => 18 # 100
  | travel_fatigue => 12 # 100
  | head_to_head => 10 # 100
  | home_advantage => 8 # 100
  | rest_differential => 7 # 100
  end.

Definition sumQ (l : list Q) : Q := fold_right Qplus 0 l.

(** One pass of the loop "move 30% toward optimal": the weight before the
    normalisation.  With [totalAccuracy] zero every accuracy is zero (they
    are not negative), so [accuracyScore] is [0 / 0], which is [NaN], and so
    is everything computed from it. *)
Definition optimizeOne (totalAccuracy : Q) (k : Factor) (stats : FactorStats) : jsnum :=
  if Qeq_bool totalAccuracy 0 then NaN
  else
    let accuracyScore := accuracy stats / totalAccuracy in
    let currentWeight := orElseQ (Some (currentWeights k)) (10 # 100) in
    let adjustment := (accuracyScore - currentWeight) * (3 # 10) in
    Num (Qmax (2 # 100) (Qmin (30 # 100) (currentWeight + adjustment))).

(** The number [optimizeOne] returns when [totalAccuracy] is not zero. *)
Definition steppedWeight (totalAccuracy : Q) (e : Factor * FactorStats) : Q :=
  Qmax (2 # 100)
       (Qmin (30 # 100)
             (currentWeights (fst e)
              + (accuracy (snd e) / totalAccuracy - currentWeights (fst e)) * (3 # 10))).

Definition jsAdd (a b : jsnum) : jsnum :=
  match a, b with
  | Num x, Num y => Num (x + y)
  | _, _ => NaN
  end.

(** [a / b] for the operands that occur: [b] is [NaN] or positive. *)
Definition jsDiv (a b : jsnum) : jsnum :=
  match a, b with
  | Num x, Num y => if Qeq_bool y 0 then NaN else Num (x / y)
  | _, _ => NaN
  end.

(** [x.toFixed(3)], the string ["NaN"] for [NaN]. *)
Definition jsToFixed3 (a : jsnum) : jsnum :=
  match a with
  | Num x => Num (toFixed 3 x)
  | NaN => NaN
  end.

(** [optimizedWeights] after the first loop. *)
Definition clampedWeights (factorAccuracy : list (Factor * FactorStats))
  : list (Factor * jsnum) :=
  let totalAccuracy := sumQ (map (fun e => accuracy (snd e)) factorAccuracy) in
  map (fun e => (fst e, optimizeOne totalAccuracy (fst e) (snd e))) factorAccuracy.

Definition weightSumOf (ws : list (Factor * jsnum)) : jsnum :=
  fold_left (fun sum e => jsAdd sum (snd e)) ws (Num 0).

(** The quotient [optimizedWeights[factor] / weightSum], before [toFixed]. *)
Definition normalisedWeights (factorAccuracy : list (Factor * FactorStats))
  : list (Factor * jsnum) :=
  let ws := clampedWeights factorAccuracy in
  let weightSum := weightSumOf ws in
  map (fun e => (fst e, jsDiv (snd e) weightSum)) ws.

(** [optimizedWeights] as emitted: each quotient through [toFixed(3)]. *)
Definition optimizedWeights (factorAccuracy : list (Factor * FactorStats))
  : list (Factor * jsnum) :=
  map (fun e => (fst e, jsToFixed3 (snd e))) (normalisedWeights factorAccuracy).

Inductive TuningResult : Type :=
| InsufficientData (success : bool) (message : string)
    (predictions_analyzed minimum_required : Z)
| Tuned (success : bool) (predictions_analyzed : Z)
    (factor_accuracy : list (Factor * FactorStats))
    (current_weights : Factor -> Q)
    (optimized_weights : list (Factor * jsnum)).

(** [runWeightTuning(env)] at time [now], every statement of the store
    succeeding. *)
Definition runWeightTuning (now : Z) (db : DB) : TuningResult * DB :=
  let predictions := selectAnalysed now db in
  let n := Z.of_nat (List.length predictions) in
  if (n <? 20)%Z then
    (InsufficientData true "Insufficient data for tuning" n 20, db)
  else
    let factorPerformance := fold_left analyse predictions factorPerformance0 in
    let factorAccuracy := factorAccuracyOf factorPerformance in
    let optimized := optimizedWeights factorAccuracy in
    let db' :=
      mkDB (ai_predictions_enhanced db) (games db) (prediction_accuracy db)
           (system_logs db ++ [mkLog "weight_tuning" [n] now]) in
    (Tuned true n factorAccuracy currentWeights optimized, db').

(** [totalAccuracy]. *)
Definition totalAccuracyOf (fa : list (Factor * FactorStats)) : Q :=
  sumQ (map (fun e => accuracy (snd e)) fa).

(** What the tuner relies on: accuracies are not negative, and the current
    weights of the factors present add up to at most 0.9. *)
Definition wellFormed (fa : list (Factor * FactorStats)) : Prop :=
  (forall e, In e fa -> 0 <= accuracy (snd e)) /\
  sumQ (map (fun e => currentWeights (fst e)) fa) <= 9 # 10.

(** The weights a result proposes, none for the insufficient-data result. *)
Definition proposedOf (r : TuningResult) : list (Factor * jsnum) :=
  match r with
  | InsufficientData _ _ _ _ => []
  | Tuned _ _ _ _ ow => ow
  end.

End Tuner.

(* ===================================================================== *)
(** ** Storing a prediction ([api/advancedPredictions.js])                 *)
(* ===================================================================== *)

Module Handler.
Import Store.

(** [JSON.stringify(prediction.features)] read back by [JSON.parse]: every
    key the tuner looks at is present. *)
Definition featuresJson (f : Engine.Features) : StoredFeatures :=
  mkStored
    (Some (Engine.home_team_form f)) (Some (Engine.away_team_form f))
    (Some (Engine.home_player_advantage f)) (Some (Engine.away_player_advantage f))
    (Some (Engine.home_injury_impact f)) (Some (Engine.away_injury_impact f))
    (Some (Engine.home_fatigue f)) (Some (Engine.away_fatigue f))
    (Some (Engine.h2h_advantage f))
    (Some (Engine.home_court_advantage f))
    (Some (Engine.rest_advantage f)).

(** The row of [INSERT INTO ai_predictions_enhanced], for the store's next
    row id and the time [now], of a record that has every field the
    statement binds. *)
Definition predictionRowOf (rowid now : Z) (game : Engine.Game)
  (prediction : Engine.PredictionRecord) : PredictionRow :=
  mkPrediction rowid
    (Engine.game_id prediction)
    (Some (Engine.sport game))
    (Engine.homeTeamId game)
    (Engine.awayTeamId game)
    (Engine.predicted_winner_team_id prediction)
    (inject_Z (Engine.confidence_score prediction))
    (Some (Engine.predicted_spread prediction))
    (option_map featuresJson (Engine.features prediction))
    now
    None None None None.



End Handler.

(* ===================================================================== *)
(** ** Concrete inputs                                                     *)
(* ===================================================================== *)

Module Inputs.
Import Store.
Local Open Scope Q_scope.

(** A team that played once, exactly one day before the target game. *)
Definition oneGameYesterday : list Adapter.Game :=
  [ Adapter.mkGame "nba-bos" "nba-lal" (Some 101%Z) (Some 99%Z) 0 ].

(** Three recent games of ["nba-bos"]: a win and two losses. *)
Definition threeGames : list Adapter.Game :=
  [ Adapter.mkGame "nba-bos" "nba-lal" (Some 100%Z) (Some 90%Z) 300;
    Adapter.mkGame "nba-nyk" "nba-bos" (Some 100%Z) (Some 90%Z) 200;
    Adapter.mkGame "nba-bos" "nba-mia" (Some 90%Z) (Some 100%Z) 100 ].

(** Every home value equal to its away value, the single-valued signals at
    their neutral values (head-to-head 5.0, base home court 5.5, no rest
    edge, no weather, neutral market). *)
Definition neutralFeatures : Engine.Features :=
  Engine.mkFeatures 5 5 5 5 0 0 0 0 5 (55 # 10) 0 0 5 5 "neutral" 0.

(** As [neutralFeatures], the away players ahead by 4.7: the differential
    comes out at exactly 50. *)
Definition evenFeatures : Engine.Features :=
  Engine.mkFeatures 5 5 (3 # 10) 5 0 0 0 0 5 (55 # 10) 0 0 5 5 "neutral" 0.

Definition bostonAtHome : Engine.Game :=
  Engine.mkGame "game-1" "Boston Celtics" "Los Angeles Lakers"
    (Some "nba-bos"%string) (Some "nba-lal"%string) "NBA".

(** A prediction of an away win, joined with a game that ended level. *)
Definition tiedGame : Validator.Joined :=
  Validator.mkJoined
    (mkPrediction 1 "game-1" (Some "nba"%string)
       (Some "nba-bos"%string) (Some "nba-lal"%string) (Some "nba-lal"%string)
       70 (Some (-(2 # 1))) None 0 None None None None)
    (Some 100%Z) (Some 100%Z) "final".

(** Scenario C: predicted spread 7.0, final score 110 to 101. *)
Definition scenarioC : Validator.Joined :=
  Validator.mkJoined
    (mkPrediction 1 "game-1" (Some "nba"%string)
       (Some "nba-bos"%string) (Some "nba-lal"%string) (Some "nba-bos"%string)
       70 (Some 7) None 0 None None None None)
    (Some 110%Z) (Some 101%Z) "final".

(** A pending prediction with row id [i] for the game ["game-1"]. *)
Definition pendingPrediction (i : Z) : PredictionRow :=
  mkPrediction i "game-1" (Some "nba"%string)
    (Some "nba-bos"%string) (Some "nba-lal"%string) (Some "nba-bos"%string)
    70 (Some 7) None 0 None None None None.

Definition finalGame : GameRow := mkGameRow "game-1" (Some 110%Z) (Some 101%Z) "final".

(** A store with [n] pending predictions of one finished game. *)
Definition pendingStore (n : nat) : DB :=
  mkDB (map (fun i => pendingPrediction (Z.of_nat i)) (seq 1 n)) [finalGame] [] [].

(** Stored features with every key present, and with the two
    player-advantage keys missing. *)
Definition allKeys : StoredFeatures :=
  mkStored (Some 6) (Some 4) (Some 6) (Some 4) (Some 1) (Some 2) (Some 2) (Some 4)
           (Some 6) (Some (55 # 10)) (Some 1).

Definition noPlayerKeys : StoredFeatures :=
  mkStored (Some 6) (Some 4) None None (Some 1) (Some 2) (Some 2) (Some 4)
           (Some 6) (Some (55 # 10)) (Some 1).

(** A validated prediction with row id [i], its features and its outcome,
    together with its row of [prediction_accuracy]. *)
Definition validatedPrediction (i : Z) (f : StoredFeatures) (ok : bool)
  : PredictionRow * AccuracyRow :=
  (mkPrediction i "game-1" (Some "nba"%string)
     (Some "nba-bos"%string) (Some "nba-lal"%string)
     (Some (if ok then "nba-bos" else "nba-lal")%string)
     70 (Some 7) (Some f) 0
     (Some "nba-bos"%string) (Some ok) (Some 2) (Some 10%Z),
   mkAccuracy i "game-1" (Some (if ok then "nba-bos" else "nba-lal")%string)
     (Some "nba-bos"%string) ok 70 2 "nba" 10).

Definition storeOf (rows : list (PredictionRow * AccuracyRow)) : DB :=
  mkDB (map fst rows) [finalGame] (map snd rows) [].

(** Eighteen wrong predictions stored without the player-advantage keys,
    then two right ones with every key. *)
Definition skewedStore : DB :=
  storeOf (map (fun i => validatedPrediction (Z.of_nat i) noPlayerKeys false) (seq 1 18)
           ++ map (fun i => validatedPrediction (Z.of_nat i) allKeys true) (seq 19 2)).

(** Twenty wrong predictions, every key present. *)
Definition allWrongStore : DB :=
  storeOf (map (fun i => validatedPrediction (Z.of_nat i) allKeys false) (seq 1 20)).


End Inputs.

(* ===================================================================== *)
(** ** More of the feature adapter: head-to-head, injuries, players        *)
(* ===================================================================== *)

Module AdapterData.
Import JS Adapter.

(** *** Head-to-head history *)

(** The four counters of the [forEach] loop of [getHeadToHeadHistory]. *)
Record H2HCounters : Type := mkH2HCounters {
  h_team1Wins : Z;
  h_team1Home : Z;
  h_team1Away : Z;
  h_totalDiff : Z
}.

(** One call of the callback [game => ...]. *)
Definition h2hStep (team1Id : string) (c : H2HCounters) (game : Game) : H2HCounters :=
  let team1IsHome := String.eqb (home_team game) team1Id in
  let team1Score := if team1IsHome then home_score game else away_score game in
  let team2Score := if team1IsHome then away_score game else home_score game in
  let won := numZ team2Score <? numZ team1Score in
  mkH2HCounters
    (if won then h_team1Wins c + 1 else h_team1Wins c)
    (if won && team1IsHome then h_team1Home c + 1 else h_team1Home c)
    (if won && negb team1IsHome then h_team1Away c + 1 else h_team1Away c)
    (h_totalDiff c + (numZ team1Score - numZ team2Score)).

Record HeadToHead : Type := mkHeadToHead {
  total_games : Z;
  team1_wins : Z;
  team2_wins : Z;
  team1_win_percentage : Q;
  avg_score_differential : Q;
  team1_home_record : option (Z * Z);   (* the two numbers of ["W-L"] *)
  team1_away_record : option (Z * Z);
  recent_games : list Game;
  h2h_score : Q
}.

(** [getHeadToHeadHistory(team1Id, team2Id, limit)]; [games] is the result
    of its query (the finished games between the two teams, newest first, at
    most [limit]). *)
Definition getHeadToHeadHistory (team1Id : string) (games : list Game) : HeadToHead :=
  match games with
  | [] => mkHeadToHead 0 0 0 (5 # 10) 0 None None [] 5
  | _ :: _ =>
      let c := fold_left (h2hStep team1Id) games (mkH2HCounters 0 0 0 0) in
      let n := Z.of_nat (List.length games) in
      let team1WinPct := (inject_Z (h_team1Wins c) / inject_Z n)%Q in
      let avgDiff := (inject_Z (h_totalDiff c) / inject_Z n)%Q in
      let h2hScore := (team1WinPct * 10)%Q in
      let homeGames :=
        Z.of_nat (List.length (filter (fun g => String.eqb (home_team g) team1Id) games)) in
      let awayGames :=
        Z.of_nat (List.length (filter (fun g => String.eqb (away_team g) team1Id) games)) in
      mkHeadToHead
        n
        (h_team1Wins c)
        (n - h_team1Wins c)
        (inject_Z (Math_round (team1WinPct * 1000)) / 1000)%Q
        (round1 avgDiff)
        (Some (h_team1Home c, homeGames - h_team1Home c))
        (Some (h_team1Away c, awayGames - h_team1Away c))
        (firstn 5 games)
        (round1 h2hScore)
  end.

(** *** Injuries *)

(** A row of [injuries], restricted to the columns read; a [NULL] column is
    [None]. *)
Record InjuryRow : Type := mkInjury {
  i_team_id : string;
  i_status : option string;
  i_severity : option string;
  i_player_importance : option string
}.

Definition textIs (o : option string) (s : string) : bool :=
  match o with Some x => String.eqb x s | None => false end.

(** [calculateInjuryImpact(injuries)]. *)
Definition injuryWeight (injury : InjuryRow) : Z :=
  if textIs (i_severity injury) "severe" then 3
  else if textIs (i_severity injury) "moderate" then 2
  else if textIs (i_severity injury) "minor" then 1
  else 0.

Definition calculateInjuryImpact (injuries : list InjuryRow) : Z :=
  match injuries with
  | [] => 0
  | _ :: _ => Z.min 10 (fold_left (fun impact injury => impact + injuryWeight injury) injuries 0)
  end.

Record TeamInjuries : Type := mkTeamInjuries {
  total_injuries : Z;
  key_players_out : Z;
  impact_score : Z;
  details : list InjuryRow
}.

(** [WHERE team_id = ? AND status != 'healthy']: a [NULL] status does not
    satisfy [!=]. *)
Definition activeInjury (teamId : string) (row : InjuryRow) : bool :=
  String.eqb (i_team_id row) teamId
  && match i_status row with
     | Some s => negb (String.eqb s "healthy")
     | None => false
     end.

(** [getTeamInjuries(teamId)] over the table [injuries]. *)
Definition getTeamInjuries (teamId : string) (injuries : list InjuryRow) : TeamInjuries :=
  let results := filter (activeInjury teamId) injuries in
  if 0 <? Z.of_nat (List.length results) then
    mkTeamInjuries
      (Z.of_nat (List.length results))
      (Z.of_nat (List.length
                   (filter (fun i => textIs (i_player_importance i) "key") results)))
      (calculateInjuryImpact results)
      results
  else mkTeamInjuries 0 0 0 [].

(** *** Players *)

(** The statistics object of a player (the parsed [metadata] column): its
    entries, keys distinct. *)
Definition Stats : Type := list (string * Q).

Fixpoint statLookup (stats : Stats) (key : string) : option Q :=
  match stats with
  | [] => None
  | (k, v) :: rest => if String.eqb k key then Some v else statLookup rest key
  end.

(** [stats.key || 0]. *)
Definition stat (stats : Stats) (key : string) : Q := orElseQ (statLookup stats key) 0.

Definition sportIs (sport : option string) (prefix : string) : bool :=
  match sport with Some s => String.prefix prefix s | None => false end.

(** [calculatePlayerEfficiency(stats, sport)]. *)
Definition calculatePlayerEfficiency (stats : Stats) (sport : option string) : Q :=
  match stats with
  | [] => 50
  | _ :: _ =>
      if sportIs sport "nfl" then
        Qmin 100 (stat stats "passing_yards" / 30 + stat stats "touchdowns" * 5
                  + stat stats "rushing_yards" / 10)
      else if sportIs sport "nba" then
        Qmin 100 (stat stats "points" / 2 + stat stats "assists" + stat stats "rebounds")
      else if sportIs sport "mlb" then
        Qmin 100 ((stat stats "batting_average" + stat stats "on_base_percentage") / 2 * 100)
      else if sportIs sport "nhl" then
        Qmin 100 (stat stats "goals" * 3 + stat stats "assists" * 2)
      else 50
  end%Q.

(** A row of [players], restricted to the columns [transformPlayer] uses for
    the efficiency. *)
Record PlayerRow : Type := mkPlayerRow {
  pl_team_id : string;
  pl_sport_id : option string;
  pl_metadata : Stats
}.

(** The [efficiency] of [transformPlayer(player)]. *)
Definition efficiencyOf (player : PlayerRow) : Q :=
  calculatePlayerEfficiency (pl_metadata player) (pl_sport_id player).

(** [getTeamPlayers(teamId)], as the list of efficiencies the engine reads. *)
Definition getTeamPlayers (teamId : string) (players : list PlayerRow) : list Q :=
  map efficiencyOf (filter (fun p => String.eqb (pl_team_id p) teamId) players).

(** *** The queries over [games] *)

(** A row of [games]: the transformed game and its [status] column. *)
Record GameRecord : Type := mkGameRecord {
  gr_game : Game;
  gr_status : string
}.

(** [ORDER BY game_date DESC]: rows of equal date stay in the order of the
    table (the query leaves their order open). *)
Fixpoint insertByDate (r : GameRecord) (sorted : list GameRecord) : list GameRecord :=
  match sorted with
  | [] => [r]
  | x :: rest =>
      if date (gr_game r) <? date (gr_game x) then x :: insertByDate r rest
      else r :: sorted
  end.

Definition orderByDateDesc (rows : list GameRecord) : list GameRecord :=
  fold_right insertByDate [] rows.

(** [getTeamRecentGames(teamId, limit, statusFilter)]; a [null] team id
    matches no row. *)
Definition getTeamRecentGames (teamId : option string) (limit : nat)
  (statusFilter : string) (table : list GameRecord) : list Game :=
  match teamId with
  | None => []
  | Some t =>
      map gr_game
        (firstn limit
           (orderByDateDesc
              (filter
                 (fun r =>
                    (String.eqb (home_team (gr_game r)) t
                     || String.eqb (away_team (gr_game r)) t)
                    && String.eqb (gr_status r) statusFilter)
                 table)))
  end.

(** The query of [getHeadToHeadHistory(team1Id, team2Id, limit)]. *)
Definition headToHeadGames (team1Id team2Id : option string) (limit : nat)
  (table : list GameRecord) : list Game :=
  match team1Id, team2Id with
  | Some t1, Some t2 =>
      map gr_game
        (firstn limit
           (orderByDateDesc
              (filter
                 (fun r =>
                    ((String.eqb (home_team (gr_game r)) t1
                      && String.eqb (away_team (gr_game r)) t2)
                     || (String.eqb (home_team (gr_game r)) t2
                         && String.eqb (away_team (gr_game r)) t1))
                    && (String.eqb (gr_status r) "final"
                        || String.eqb (gr_status r) "completed"))
                 table)))
  | _, _ => []
  end.

(** The text a [null] id is compared with inside the adapter: no team has
    it, and the lists queried for it are empty. *)
Definition idText (teamId : option string) : string :=
  match teamId with Some t => t | None => "" end.

End AdapterData.

(* ===================================================================== *)
(** ** More of the prediction engine: collectors, key factors, risk        *)
(* ===================================================================== *)

Module EngineAnalysis.
Import JS Engine.
Local Open Scope Q_scope.

(** [this.weights]. *)
Record Weights : Type := mkWeights {
  w_team_form : Q;
  w_player_stats : Q;
  w_injuries : Q;
  w_travel_fatigue : Q;
  w_head_to_head : Q;
  w_home_advantage : Q;
  w_rest_differential : Q;
  w_weather : Q;
  w_recent_performance : Q;
  w_motivation : Q
}.

Definition engineWeights : Weights :=
  mkWeights (15 # 100) (20 # 100) (18 # 100) (12 # 100) (10 # 100)
            (8 # 100) (7 # 100) (3 # 100) (5 # 100) (2 # 100).

(** *** Key factors *)

Record KeyFactor : Type := mkKeyFactor {
  kf_name : string;
  kf_impact : Q
}.

(** The object [impacts], in the order of its keys. *)
Definition impactsOf (w : Weights) (features : Features) : list (string * Q) :=
  [ ("Team Form Advantage"%string,
     Qabs (home_team_form features - away_team_form features) * w_team_form w * 10);
    ("Player Performance Edge"%string,
     Qabs (home_player_advantage features - away_player_advantage features)
     * w_player_stats w * 10);
    ("Injury Situation"%string,
     Qabs (home_injury_impact features - away_injury_impact features) * w_injuries w * 10);
    ("Travel & Fatigue"%string,
     Qabs (home_fatigue features - away_fatigue features) * w_travel_fatigue w * 10);
    ("Head-to-Head History"%string,
     Qabs (h2h_advantage features) * w_head_to_head w * 10);
    ("Home Court Advantage"%string,
     home_court_advantage features * w_home_advantage w);
    ("Rest Differential"%string,
     Qabs (rest_advantage features) * w_rest_differential w * 10);
    ("Weather Conditions"%string,
     Qabs (weather_impact features) * w_weather w * 10) ].

(** [factors.sort((a, b) => b.impact - a.impact)]: the sort is stable, so
    the result is the one of inserting each factor before the first one
    that is not strictly above it. *)
Fixpoint insertFactor (x : KeyFactor) (sorted : list KeyFactor) : list KeyFactor :=
  match sorted with
  | [] => [x]
  | y :: rest =>
      if Qgt_bool (kf_impact y) (kf_impact x) then y :: insertFactor x rest
      else x :: sorted
  end.

Definition sortFactors (factors : list KeyFactor) : list KeyFactor :=
  fold_right insertFactor [] factors.

(** The array [factors] before the sort. *)
Definition factorsOf (w : Weights) (features : Features) : list KeyFactor :=
  map (fun e => mkKeyFactor (fst e) (round1 (snd e))) (impactsOf w features).

(** [identifyKeyFactors(features, prediction)]. *)
Definition identifyKeyFactors (w : Weights) (features : Features) : list KeyFactor :=
  firstn 3 (sortFactors (factorsOf w features)).

(** *** Risk *)

Record Risk : Type := mkRisk {
  variance : Q;
  upsetProbability : Z
}.

(** [assessRisk(features, prediction)]. *)
Definition assessRisk (features : Features) (prediction : WeightedPrediction) : Risk :=
  let featureVariances :=
    [ Qabs (home_team_form features - away_team_form features);
      Qabs (home_player_advantage features - away_player_advantage features);
      Qabs (home_injury_impact features - away_injury_impact features);
      Qabs (home_fatigue features - away_fatigue features) ] in
  let avgVariance :=
    fold_left Qplus featureVariances 0
    / inject_Z (Z.of_nat (List.length featureVariances)) in
  let variance := round1 avgVariance in
  let favoredTeamProb :=
    Z.max (homeWinProbability prediction) (awayWinProbability prediction) in
  let upsetProb := (100 - favoredTeamProb)%Z in
  let adjustedUpsetProb := Qmin 45 (inject_Z upsetProb + variance * 2) in
  mkRisk variance (Math_round adjustedUpsetProb).

(** *** The collectors

    Each collector wraps an adapter call in [try / catch]; the argument is
    the adapter's result, [None] when the call throws. *)

(** [getTeamForm(teamId)].  The record of the [catch] block lacks the
    averages, which the engine never reads. *)
Definition getTeamForm (r : option Adapter.TeamForm) : Adapter.TeamForm :=
  match r with
  | Some form => form
  | None => Adapter.mkTeamForm 0 0 0 (5 # 10) 0 0 0 5 Adapter.unknown None
  end.

(** [normalizeTeamForm(formData)]: a form score of [0] is falsy. *)
Definition normalizeTeamForm (formData : option Adapter.TeamForm) : Q :=
  match formData with
  | None => 5
  | Some form =>
      if Qeq_bool (Adapter.form_score form) 0 then 5 else Adapter.form_score form
  end.

Record InjuryReport : Type := mkInjuryReport {
  home_impact : Z;
  away_impact : Z;
  home_key_players_out : Z;
  away_key_players_out : Z
}.

(** [analyzeInjuries(homeTeamId, awayTeamId)]; [x || 0] on a number is [x]. *)
Definition analyzeInjuries
  (r : option (AdapterData.TeamInjuries * AdapterData.TeamInjuries)) : InjuryReport :=
  match r with
  | Some (homeInjuries, awayInjuries) =>
      mkInjuryReport
        (AdapterData.impact_score homeInjuries)
        (AdapterData.impact_score awayInjuries)
        (AdapterData.key_players_out homeInjuries)
        (AdapterData.key_players_out awayInjuries)
  | None => mkInjuryReport 0 0 0 0
  end.

Record TravelSide : Type := mkTravelSide {
  overall_fatigue_score : Z;
  days_since_last_game : Z;
  games_in_last_week : option Z;
  back_to_back : option bool
}.

(** One side of [analyzeTravelFatigue]: [days_rest || 7] turns a day count
    of [0] into [7]. *)
Definition travelSideOf (fatigue : Adapter.FatigueSnapshot) : TravelSide :=
  mkTravelSide
    (Adapter.fatigue_score fatigue)
    (if (Adapter.days_rest fatigue =? 0)%Z then 7 else Adapter.days_rest fatigue)
    (Some (Adapter.games_in_last_week fatigue))
    (Some (Adapter.back_to_back fatigue)).

(** [analyzeTravelFatigue(homeTeamId, awayTeamId, gameId)]. *)
Definition analyzeTravelFatigue
  (r : option (Adapter.FatigueSnapshot * Adapter.FatigueSnapshot))
  : TravelSide * TravelSide :=
  match r with
  | Some (homeFatigue, awayFatigue) => (travelSideOf homeFatigue, travelSideOf awayFatigue)
  | None => (mkTravelSide 2 3 None None, mkTravelSide 2 3 None None)
  end.

(** [calculateRestAdvantage(homeRest, awayRest)]. *)
Definition calculateRestAdvantage (homeRest awayRest : option TravelSide) : Z :=
  match homeRest, awayRest with
  | Some h, Some a =>
      let restDiff := (days_since_last_game h - days_since_last_game a)%Z in
      Z.max (-5) (Z.min 5 restDiff)
  | _, _ => 0%Z
  end.

(** The [homeAdvantage] of the engine's [getHeadToHeadHistory]. *)
Definition h2hAdvantage (r : option AdapterData.HeadToHead) : Q :=
  match r with
  | Some h2h => AdapterData.h2h_score h2h
  | None => 5
  end.

(** [calculateAvgEfficiency(players)], on the players' efficiencies;
    [player.efficiency || 50] reads an efficiency of [0] as [50]. *)
Definition calculateAvgEfficiency (players : list Q) : Q :=
  match players with
  | [] => 50
  | _ :: _ =>
      fold_left (fun sum efficiency => sum + orElseQ (Some efficiency) 50) players 0
      / inject_Z (Z.of_nat (List.length players))
  end.

(** [analyzePlayerMatchups]: ([homeAdvantage], [awayAdvantage]). *)
Definition analyzePlayerMatchups (r : option (list Q * list Q)) : Q * Q :=
  match r with
  | Some (homePlayers, awayPlayers) =>
      (Qmin 10 (Qmax 0 (calculateAvgEfficiency homePlayers / 10)),
       Qmin 10 (Qmax 0 (calculateAvgEfficiency awayPlayers / 10)))
  | None => (5, 5)
  end.

(** [calculateHomeAdvantage(venue, homeForm)].  [home_record] is
    [homeForm.home_record], a text ["W-L"], given by the two non-negative
    integers it spells ([None] when the form record has none, as is the case
    for every record of the adapter); [venueScore] is
    [venue.home_field_advantage_score]. *)
Definition calculateHomeAdvantage (venueScore : option Q) (home_record : option (Z * Z))
  : Q :=
  let advantage := 55 # 10 in
  let advantage :=
    match home_record with
    | Some (wins, losses) =>
        let total := (if (wins + losses =? 0)%Z then 1 else wins + losses)%Z in
        let homeWinPct := inject_Z wins / inject_Z total in
        advantage + (homeWinPct - (1 # 2)) * 3
    | None => advantage
    end in
  let advantage :=
    match venueScore with
    | Some score => if Qeq_bool score 0 then advantage else advantage + (score - 5) * (1 # 2)
    | None => advantage
    end in
  round1 (Qmax 3 (Qmin 8 advantage)).

(** *** From the tables to the feature vector *)

Record Tables : Type := mkTables {
  t_games : list AdapterData.GameRecord;
  t_injuries : list AdapterData.InjuryRow;
  t_players : list AdapterData.PlayerRow
}.

(** The [features] object of [generatePrediction], every adapter call
    succeeding: [now] is [Date.now()] in milliseconds and [venueScore] the
    venue's [home_field_advantage_score]. *)
Definition collectFeatures (tables : Tables) (now : Z) (venueScore : option Q)
  (game : Game) : Features :=
  let formOf teamId :=
    getTeamForm
      (Some (Adapter.calculateTeamForm (AdapterData.idText teamId)
               (AdapterData.getTeamRecentGames teamId 10 "final" (t_games tables)))) in
  let fatigueOf teamId :=
    Adapter.calculateTravelFatigue
      (AdapterData.getTeamRecentGames teamId 5 "final" (t_games tables)) now in
  let injuriesOf teamId :=
    AdapterData.getTeamInjuries (AdapterData.idText teamId)
      (match teamId with Some _ => t_injuries tables | None => [] end) in
  let playersOf teamId :=
    AdapterData.getTeamPlayers (AdapterData.idText teamId)
      (match teamId with Some _ => t_players tables | None => [] end) in
  let homeForm := formOf (homeTeamId game) in
  let awayForm := formOf (awayTeamId game) in
  let injuries :=
    analyzeInjuries (Some (injuriesOf (homeTeamId game), injuriesOf (awayTeamId game))) in
  let travelData :=
    analyzeTravelFatigue (Some (fatigueOf (homeTeamId game), fatigueOf (awayTeamId game))) in
  let h2hHistory :=
    h2hAdvantage
      (Some (AdapterData.getHeadToHeadHistory (AdapterData.idText (homeTeamId game))
               (AdapterData.headToHeadGames (homeTeamId game) (awayTeamId game) 10
                  (t_games tables)))) in
  let playerMatchups :=
    analyzePlayerMatchups
      (Some (playersOf (homeTeamId game), playersOf (awayTeamId game))) in
  mkFeatures
    (normalizeTeamForm (Some homeForm))
    (normalizeTeamForm (Some awayForm))
    (fst playerMatchups)
    (snd playerMatchups)
    (inject_Z (home_impact injuries))
    (inject_Z (away_impact injuries))
    (inject_Z (overall_fatigue_score (fst travelData)))
    (inject_Z (overall_fatigue_score (snd travelData)))
    h2hHistory
    (calculateHomeAdvantage venueScore None)
    (inject_Z (calculateRestAdvantage (Some (fst travelData)) (Some (snd travelData))))
    0
    5
    5
    "neutral"
    0.

End EngineAnalysis.

(* ===================================================================== *)
(** ** [advancedPredictionEngine.js]: the try block of [generatePrediction] *)
(* ===================================================================== *)

Module Pipeline.
Import JS Engine EngineAnalysis.
Local Open Scope Q_scope.




(** The outcome of the adapter calls the collectors make: [None] when the
    call throws (the two calls of [analyzeInjuries], of
    [analyzeTravelFatigue] and of [analyzePlayerMatchups] sit in one
    [Promise.all] each, so either failing fails the pair). *)
Record AdapterCalls : Type := mkCalls {
  homeFormCall : option Adapter.TeamForm;
  awayFormCall : option Adapter.TeamForm;
  injuriesCall : option (AdapterData.TeamInjuries * AdapterData.TeamInjuries);
  fatigueCall : option (Adapter.FatigueSnapshot * Adapter.FatigueSnapshot);
  h2hCall : option AdapterData.HeadToHead;
  playersCall : option (list Q * list Q)
}.

(** The [features] object of the try block: every collector returns, with
    the values of its [catch] block when its adapter call throws; weather,
    news and betting trends are the placeholders. *)
Definition assembleFeatures (venueScore : option Q) (calls : AdapterCalls) : Features :=
  let homeForm := getTeamForm (homeFormCall calls) in
  let awayForm := getTeamForm (awayFormCall calls) in
  let injuries := analyzeInjuries (injuriesCall calls) in
  let travelData := analyzeTravelFatigue (fatigueCall calls) in
  let h2hHistory := h2hAdvantage (h2hCall calls) in
  let playerMatchups := analyzePlayerMatchups (playersCall calls) in
  mkFeatures
    (normalizeTeamForm (Some homeForm))
    (normalizeTeamForm (Some awayForm))
    (fst playerMatchups)
    (snd playerMatchups)
    (inject_Z (home_impact injuries))
    (inject_Z (away_impact injuries))
    (inject_Z (overall_fatigue_score (fst travelData)))
    (inject_Z (overall_fatigue_score (snd travelData)))
    h2hHistory
    (calculateHomeAdvantage venueScore None)
    (inject_Z (calculateRestAdvantage (Some (fst travelData)) (Some (snd travelData))))
    0
    5
    5
    "neutral"
    0.



(** The adapter calls of a game, all succeeding, over the tables. *)
Definition callsOf (tables : Tables) (now : Z) (game : Game) : AdapterCalls :=
  let formOf teamId :=
    Adapter.calculateTeamForm (AdapterData.idText teamId)
      (AdapterData.getTeamRecentGames teamId 10 "final" (t_games tables)) in
  let fatigueOf teamId :=
    Adapter.calculateTravelFatigue
      (AdapterData.getTeamRecentGames teamId 5 "final" (t_games tables)) now in
  let injuriesOf teamId :=
    AdapterData.getTeamInjuries (AdapterData.idText teamId)
      (match teamId with Some _ => t_injuries tables | None => [] end) in
  let playersOf teamId :=
    AdapterData.getTeamPlayers (AdapterData.idText teamId)
      (match teamId with Some _ => t_players tables | None => [] end) in
  mkCalls
    (Some (formOf (homeTeamId game)))
    (Some (formOf (awayTeamId game)))
    (Some (injuriesOf (homeTeamId game), injuriesOf (awayTeamId game)))
    (Some (fatigueOf (homeTeamId game), fatigueOf (awayTeamId game)))
    (Some (AdapterData.getHeadToHeadHistory (AdapterData.idText (homeTeamId game))
             (AdapterData.headToHeadGames (homeTeamId game) (awayTeamId game) 10
                (t_games tables))))
    (Some (playersOf (homeTeamId game), playersOf (awayTeamId game))).



End Pipeline.

(* ===================================================================== *)
(** ** The tuner's recommendations ([generateRecommendations])             *)
(* ===================================================================== *)

Module Recommendations.
Import JS Tuner.
Local Open Scope Q_scope.

(** A recommendation, without its message text.  [rec_change] is the number
    the one-decimal text [change] spells, [rec_plus] tells whether
    [weight_change] starts with ["+"]. *)
Record Recommendation : Type := mkRecommendation {
  rec_factor : Factor;
  rec_status : string;
  rec_accuracy : Q;
  rec_change : Q;
  rec_plus : bool;
  rec_action : string
}.

(** [optimizedWeights[factor]]. *)
Fixpoint weightOf (ow : list (Factor * jsnum)) (k : Factor) : option jsnum :=
  match ow with
  | [] => None
  | (k', w) :: rest => if Factor_eqb k' k then Some w else weightOf rest k
  end.

(** [parseFloat(optimizedWeights[factor]) || 0]: a missing weight, [NaN]
    and [0] all give [0]. *)
Definition parsedWeight (ow : list (Factor * jsnum)) (k : Factor) : Q :=
  match weightOf ow k with
  | Some (Num q) => orElseQ (Some q) 0
  | _ => 0
  end.

(** The body of the loop of [generateRecommendations]. *)
Definition recommend (ow : list (Factor * jsnum)) (e : Factor * FactorStats)
  : Recommendation :=
  let factor := fst e in
  let accuracy := accuracy (snd e) in
  let currentWeight := orElseQ (Some (currentWeights factor)) 0 in
  let optimizedWeight := parsedWeight ow factor in
  let change := toFixed 1 ((optimizedWeight - currentWeight) / currentWeight * 100) in
  if Qle_bool 70 accuracy then
    mkRecommendation factor "excellent" accuracy change (Qgt_bool change 0)
      (if Qgt_bool change 10 then "Increase weight significantly"
       else "Maintain or slightly increase")
  else if Qle_bool 55 accuracy then
    mkRecommendation factor "good" accuracy change (Qgt_bool change 0)
      "Maintain current weight"
  else
    mkRecommendation factor "needs_improvement" accuracy change (Qgt_bool change 0)
      (if Qgt_bool (-(10)) change then "Decrease weight significantly"
       else "Consider improving data quality").

(** [generateRecommendations(factorAccuracy, currentWeights, optimizedWeights)]. *)
Definition generateRecommendations (factorAccuracy : list (Factor * FactorStats))
  (ow : list (Factor * jsnum)) : list Recommendation :=
  map (recommend ow) factorAccuracy.

End Recommendations.

(* ===================================================================== *)
(** ** [api/advancedPredictions.js]: the accuracy statistics               *)
(* ===================================================================== *)

Module AccuracyApi.
Import JS Store.

(** The [accuracy] object of the response of [getPredictionAccuracy]. *)
Record AccuracyReport : Type := mkReport {
  total_predictions : Z;
  correct_predictions : Z;
  accuracy_percentage : Q;
  average_confidence : Q;
  average_error : Q
}.

(** The rows of [WHERE created_at >= datetime('now', '-30 days')]. *)
Definition lastThirtyDays (now : Z) (db : DB) : list AccuracyRow :=
  filter (fun a => now - 30 * secondsPerDay <=? a_created_at a) (prediction_accuracy db).

(** [getPredictionAccuracy(env)] at time [now], the query succeeding.  On an
    empty set [COUNT] is 0 and [SUM] and [AVG] are [NULL]; [x || 0] turns
    [NULL] and 0 into 0. *)
Definition getPredictionAccuracy (now : Z) (db : DB) : AccuracyReport :=
  let rows := lastThirtyDays now db in
  let total := Z.of_nat (List.length rows) in
  let correct : option Z :=
    match rows with
    | [] => None
    | _ :: _ => Some (Z.of_nat (List.length (filter a_prediction_correct rows)))
    end in
  let avg_confidence : option Q :=
    match rows with
    | [] => None
    | _ :: _ => Some (Validator.sumQ (map a_confidence_level rows) / inject_Z total)%Q
    end in
  let avg_error : option Q :=
    match rows with
    | [] => None
    | _ :: _ => Some (Validator.sumQ (map a_margin_of_error rows) / inject_Z total)%Q
    end in
  let accuracy :=
    if 0 <? total
    then toFixed 2 (inject_Z (numZ correct) / inject_Z total * 100)%Q
    else 0%Q in
  mkReport total (numZ correct) accuracy
    (round1 (orElseQ avg_confidence 0)) (round1 (orElseQ avg_error 0)).

End AccuracyApi.

(* ===================================================================== *)
(** ** Notions used to state properties of the adapter                     *)
(* ===================================================================== *)

Module AdapterNotions.
Import JS Adapter AdapterData.

(** A win of [team1Id] at home, and a win away. *)
Definition team1Home (team1Id : string) (g : Game) : bool :=
  wonBy team1Id g && String.eqb (home_team g) team1Id.

Definition team1Away (team1Id : string) (g : Game) : bool :=
  wonBy team1Id g && negb (String.eqb (home_team g) team1Id).

(** [g] is a game between [t1] and [t2]. *)
Definition between (t1 t2 : string) (g : Game) : bool :=
  (String.eqb (home_team g) t1 && String.eqb (away_team g) t2)
  || (String.eqb (home_team g) t2 && String.eqb (away_team g) t1).

(** [g] did not end level. *)
Definition decided (g : Game) : bool :=
  negb (numZ (home_score g) =? numZ (away_score g)).

(** The order of [ORDER BY date DESC]. *)
Definition newerFirst (a b : GameRecord) : Prop :=
  date (gr_game b) <= date (gr_game a).

(** The [WHERE] clause of [getTeamRecentGames]. *)
Definition playsIn (t : string) (status : string) (r : GameRecord) : bool :=
  (String.eqb (home_team (gr_game r)) t || String.eqb (away_team (gr_game r)) t)
  && String.eqb (gr_status r) status.

(** [y] is a multiple of 0.1 nearest to [x]: the one there is, or either
    neighbour when [x] lies halfway between two tenths. *)
Definition nearestTenth (x y : Q) : Prop :=
  (exists k : Z, y == inject_Z k / 10)%Q /\ (Qabs (y - x) <= 1 # 20)%Q.

(** [x] lies exactly halfway between two multiples of 0.1. *)
Definition tieOfTenths (x : Q) : Prop :=
  (exists k : Z, x * 10 + (1 # 2) == inject_Z k)%Q.

(** One final game, dated [d] milliseconds after the time the fatigue is
    computed for. *)
Definition oneGameAt (d : Z) : list Game :=
  [ mkGame "nba-bos" "nba-lal" (Some 101) (Some 99) d ].

(** Two losses of ["nba-bos"], 100-120 and 100-129. *)
Definition twoLosses : list Game :=
  [ mkGame "nba-bos" "nba-lal" (Some 100) (Some 120) 200;
    mkGame "nba-bos" "nba-lal" (Some 100) (Some 129) 100 ].

(** Three meetings of ["nba-bos"] and ["nba-lal"], none level. *)
Definition rivalry : list Game :=
  [ mkGame "nba-bos" "nba-lal" (Some 100) (Some 90) 300;
    mkGame "nba-lal" "nba-bos" (Some 100) (Some 90) 200;
    mkGame "nba-bos" "nba-lal" (Some 90) (Some 100) 100 ].

End AdapterNotions.

(* ===================================================================== *)
(** ** Notions used to state properties of the engine                      *)
(* ===================================================================== *)

Module EngineNotions.
Import JS Engine EngineAnalysis.
Local Open Scope Q_scope.

(** The order [identifyKeyFactors] sorts by. *)
Definition aboveOrEqual (a b : KeyFactor) : Prop := kf_impact b <= kf_impact a.

(** Neither team has a final game, a meeting, an active injury or a player
    in the tables. *)
Definition noData (tables : Tables) (game : Game) : Prop :=
  AdapterData.getTeamRecentGames (homeTeamId game) 10 "final" (t_games tables) = [] /\
  AdapterData.getTeamRecentGames (awayTeamId game) 10 "final" (t_games tables) = [] /\
  AdapterData.getTeamRecentGames (homeTeamId game) 5 "final" (t_games tables) = [] /\
  AdapterData.getTeamRecentGames (awayTeamId game) 5 "final" (t_games tables) = [] /\
  AdapterData.headToHeadGames (homeTeamId game) (awayTeamId game) 10 (t_games tables) = [] /\
  AdapterData.details
    (AdapterData.getTeamInjuries (AdapterData.idText (homeTeamId game))
       (match homeTeamId game with Some _ => t_injuries tables | None => [] end)) = [] /\
  AdapterData.details
    (AdapterData.getTeamInjuries (AdapterData.idText (awayTeamId game))
       (match awayTeamId game with Some _ => t_injuries tables | None => [] end)) = [] /\
  AdapterData.getTeamPlayers (AdapterData.idText (homeTeamId game))
    (match homeTeamId game with Some _ => t_players tables | None => [] end) = [] /\
  AdapterData.getTeamPlayers (AdapterData.idText (awayTeamId game))
    (match awayTeamId game with Some _ => t_players tables | None => [] end) = [].

(** The features of a game without data. *)
Definition noDataFeatures : Features :=
  mkFeatures 5 5 (50 # 10) (50 # 10) 0 0 0 0 5 (55 # 10) 0 0 5 5 "neutral" 0.

(** Tables in which only other teams appear. *)
Definition otherTeamsTables : Tables :=
  mkTables
    [ AdapterData.mkGameRecord
        (Adapter.mkGame "nba-nyk" "nba-mia" (Some 100%Z) (Some 90%Z) 100) "final" ]
    [ AdapterData.mkInjury "nba-nyk" (Some "out"%string)
        (Some "severe"%string) (Some "key"%string) ]
    [].

End EngineNotions.

(* ===================================================================== *)
(** ** Notions used to state properties of the validator and the tuner     *)
(* ===================================================================== *)

Module LoopNotions.
Import JS Store.
Local Open Scope Q_scope.

(** What a validation pass leaves of a prediction row: every column but the
    four outcome columns. *)
Definition sameCore (p p' : PredictionRow) : Prop :=
  p_id p' = p_id p /\ p_game_id p' = p_game_id p /\ p_sport p' = p_sport p /\
  p_home_team_id p' = p_home_team_id p /\ p_away_team_id p' = p_away_team_id p /\
  p_predicted_winner_team_id p' = p_predicted_winner_team_id p /\
  p_confidence_score p' = p_confidence_score p /\
  p_predicted_spread p' = p_predicted_spread p /\
  p_features p' = p_features p /\ p_created_at p' = p_created_at p.

(** Stored features in which the tuner finds every factor. *)
Definition complete (f : StoredFeatures) : bool :=
  forallb (fun k => match Tuner.factorImpact f k with Some _ => true | None => false end)
          Tuner.allFactors.

(** The number of analysed predictions that were right, and the percentage
    the tuner computes from it. *)
Definition hits (rows : list Tuner.Analysed) : Z :=
  Z.of_nat (List.length (filter Tuner.prediction_correct rows)).

Definition hitRate (rows : list Tuner.Analysed) : Q :=
  toFixed 2 (inject_Z (hits rows) / inject_Z (Z.of_nat (List.length rows)) * 100).

(** The weight of a factor when all seven factors have the same positive
    accuracy: the damped step to the share 1/7, over the sum 0.93. *)
Definition evenShareWeight (k : Tuner.Factor) : Q :=
  toFixed 3 (((7 # 10) * Tuner.currentWeights k + (3 # 70)) / (93 # 100)).





(** Ten pending predictions, features stored, for a game whose teams were
    not found (team ids and predicted winner [NULL]); and the store after
    two validation passes. *)
Definition nullTeamPrediction (i : Z) : PredictionRow :=
  mkPrediction i "game-1" (Some "nba"%string) None None None
    70 (Some 7) (Some Inputs.allKeys) 0 None None None None.

Definition nullTeamStore : DB :=
  mkDB (map (fun i => nullTeamPrediction (Z.of_nat i)) (seq 1 10))
       [Inputs.finalGame] [] [].


(** Twenty validated predictions with every key, twelve of them right. *)
Definition twelveOfTwenty : DB :=
  Inputs.storeOf
    (map (fun i => Inputs.validatedPrediction (Z.of_nat i) Inputs.allKeys true) (seq 1 12)
     ++ map (fun i => Inputs.validatedPrediction (Z.of_nat i) Inputs.allKeys false) (seq 13 8)).

End LoopNotions.

(* ===================================================================== *)
(** ** Facts about the numeric helpers                                     *)
(* ===================================================================== *)

Module JSFacts.
Import JS.
Local Open Scope Q_scope.

Lemma Qle_bool_false a b : Qle_bool a b = false -> b < a.
Proof.
  intros H. apply Qnot_le_lt. intros Hle.
  apply Qle_bool_iff in Hle. congruence.
Qed.

Lemma Qmax_case a b : (a <= b /\ Qmax a b = b) \/ (b < a /\ Qmax a b = a).
Proof.
  unfold Qmax. destruct (Qle_bool a b) eqn:E.
  - left. split; [now apply Qle_bool_iff | reflexivity].
  - right. split; [now apply Qle_bool_false | reflexivity].
Qed.

Lemma Qmin_case a b : (a <= b /\ Qmin a b = a) \/ (b < a /\ Qmin a b = b).
Proof.
  unfold Qmin. destruct (Qle_bool a b) eqn:E.
  - left. split; [now apply Qle_bool_iff | reflexivity].
  - right. split; [now apply Qle_bool_false | reflexivity].
Qed.

(** Case analysis on every [Math.max] and [Math.min] in sight. *)
Ltac q_cases :=
  unfold clampQ in *;
  repeat match goal with
         | |- context [Qmax ?a ?b] =>
             let E := fresh "E" in
             destruct (Qmax_case a b) as [[? E] | [? E]]; rewrite E in *; clear E
         | |- context [Qmin ?a ?b] =>
             let E := fresh "E" in
             destruct (Qmin_case a b) as [[? E] | [? E]]; rewrite E in *; clear E
         | H : context [Qmax ?a ?b] |- _ =>
             let E := fresh "E" in
             destruct (Qmax_case a b) as [[? E] | [? E]]; rewrite E in *; clear E
         | H : context [Qmin ?a ?b] |- _ =>
             let E := fresh "E" in
             destruct (Qmin_case a b) as [[? E] | [? E]]; rewrite E in *; clear E
         end.

Lemma Qmax_le_l a b : a <= Qmax a b.
Proof. q_cases; lra. Qed.

Lemma Qmax_le_r a b : b <= Qmax a b.
Proof. q_cases; lra. Qed.

Lemma Qmin_le_l a b : Qmin a b <= a.
Proof. q_cases; lra. Qed.

Lemma Qmin_le_r a b : Qmin a b <= b.
Proof. q_cases; lra. Qed.

Lemma Qmax_comp a a' b b' : a == a' -> b == b' -> Qmax a b == Qmax a' b'.
Proof. intros Ha Hb. q_cases; lra. Qed.

Lemma Qmin_comp a a' b b' : a == a' -> b == b' -> Qmin a b == Qmin a' b'.
Proof. intros Ha Hb. q_cases; lra. Qed.

#[export] Instance Qmax_proper : Proper (Qeq ==> Qeq ==> Qeq) Qmax.
Proof. intros a a' Ha b b' Hb. now apply Qmax_comp. Qed.

#[export] Instance Qmin_proper : Proper (Qeq ==> Qeq ==> Qeq) Qmin.
Proof. intros a a' Ha b b' Hb. now apply Qmin_comp. Qed.

#[export] Instance clampQ_proper : Proper (Qeq ==> Qeq ==> Qeq ==> Qeq) clampQ.
Proof.
  intros lo lo' Hlo hi hi' Hhi x x' Hx. unfold clampQ.
  now rewrite Hlo, Hhi, Hx.
Qed.

(** [Math.min(Math.max(x, lo), hi)] and [Math.max(lo, Math.min(hi, x))] are
    the clamp, the bounds being ordered. *)
Lemma min_max_is_clamp lo hi x : Qmin (Qmax x lo) hi == clampQ lo hi x.
Proof. q_cases; lra. Qed.

Lemma max_min_is_clamp lo hi x : lo <= hi -> Qmax lo (Qmin hi x) == clampQ lo hi x.
Proof. intros H. q_cases; lra. Qed.

Lemma clampQ_range lo hi x : lo <= hi -> lo <= clampQ lo hi x <= hi.
Proof. intros H. q_cases; lra. Qed.

Lemma clampQ_mono lo hi x y : x <= y -> clampQ lo hi x <= clampQ lo hi y.
Proof. intros H. q_cases; lra. Qed.

Lemma round1_comp x y : x == y -> round1 x = round1 y.
Proof.
  intros H. unfold round1, Math_round.
  assert (E : x * 10 + (1 # 2) == y * 10 + (1 # 2)) by (rewrite H; reflexivity).
  now rewrite (Qfloor_comp _ _ E).
Qed.

(** [Math.round] is within one half of its argument. *)
Lemma Math_round_bounds x :
  x - (1 # 2) < inject_Z (Math_round x) /\ inject_Z (Math_round x) <= x + (1 # 2).
Proof.
  unfold Math_round.
  pose proof (Qfloor_le (x + (1 # 2))) as Hle.
  pose proof (Qlt_floor (x + (1 # 2))) as Hlt.
  rewrite inject_Z_plus in Hlt. change (inject_Z 1) with 1 in Hlt.
  split; lra.
Qed.

Lemma Math_round_mono x y : x <= y -> (Math_round x <= Math_round y)%Z.
Proof. intros H. unfold Math_round. apply Qfloor_resp_le. lra. Qed.

Lemma Math_round_Z z : Math_round (inject_Z z) = z.
Proof.
  unfold Math_round.
  pose proof (Qfloor_le (inject_Z z + (1 # 2))) as Hle.
  assert (H1 : inject_Z (Qfloor (inject_Z z + (1 # 2))) < inject_Z (z + 1)).
  { rewrite inject_Z_plus. change (inject_Z 1) with 1. lra. }
  rewrite <- Zlt_Qlt in H1.
  assert (H2 : (Qfloor (inject_Z z) <= Qfloor (inject_Z z + (1 # 2)))%Z).
  { apply Qfloor_resp_le. lra. }
  rewrite Qfloor_Z in H2. lia.
Qed.

(** *** [toFixed] *)

Lemma pow10_pos d : 0 < inject_Z (10 ^ Z.of_nat d).
Proof.
  change 0 with (inject_Z 0). rewrite <- Zlt_Qlt.
  apply Z.pow_pos_nonneg; lia.
Qed.

Lemma toFixed_of_nonneg d x :
  0 <= x ->
  toFixed d x
  = inject_Z (Qfloor (x * inject_Z (10 ^ Z.of_nat d) + (1 # 2)))
    / inject_Z (10 ^ Z.of_nat d).
Proof.
  intros Hx. unfold toFixed. cbv zeta.
  destruct (Qle_bool 0 x) eqn:E; [reflexivity |].
  apply Qle_bool_false in E. lra.
Qed.

Lemma toFixed_nonneg d x : 0 <= x -> 0 <= toFixed d x.
Proof.
  intros Hx. rewrite (toFixed_of_nonneg d x Hx).
  pose proof (pow10_pos d) as Hp.
  set (p := inject_Z (10 ^ Z.of_nat d)) in *.
  assert (H0 : (Qfloor 0 <= Qfloor (x * p + (1 # 2)))%Z).
  { apply Qfloor_resp_le.
    assert (0 <= x * p) by (apply Qmult_le_0_compat; lra). lra. }
  change (Qfloor 0) with 0%Z in H0. rewrite Zle_Qle in H0.
  change (inject_Z 0) with 0 in H0.
  apply Qle_shift_div_l; [exact Hp | lra].
Qed.

Lemma toFixed_mono d x y : 0 <= x -> x <= y -> toFixed d x <= toFixed d y.
Proof.
  intros Hx Hxy.
  rewrite (toFixed_of_nonneg d x Hx), (toFixed_of_nonneg d y ltac:(lra)).
  pose proof (pow10_pos d) as Hp.
  set (p := inject_Z (10 ^ Z.of_nat d)) in *.
  assert (H : (Qfloor (x * p + (1 # 2)) <= Qfloor (y * p + (1 # 2)))%Z).
  { apply Qfloor_resp_le.
    assert (x * p <= y * p) by (apply Qmult_le_compat_r; lra). lra. }
  rewrite Zle_Qle in H.
  apply Qle_shift_div_l; [exact Hp |].
  unfold Qdiv. rewrite <- Qmult_assoc, (Qmult_comm (/ p)), Qmult_inv_r; lra.
Qed.

(** Three decimals are within half a thousandth. *)
Lemma toFixed3_close x : 0 <= x -> Qabs (toFixed 3 x - x) <= 1 # 2000.
Proof.
  intros Hx. rewrite (toFixed_of_nonneg 3 x Hx).
  change (inject_Z (10 ^ Z.of_nat 3)) with 1000.
  destruct (Math_round_bounds (x * 1000)) as (Hlo & Hhi).
  unfold Math_round in Hlo, Hhi.
  set (r := inject_Z (Qfloor (x * 1000 + (1 # 2)))) in *.
  apply Qabs_Qle_condition. split.
  - assert (H : x - (1 # 2000) <= r / 1000) by (apply Qle_shift_div_l; lra). lra.
  - assert (H : r / 1000 <= x + (1 # 2000)) by (apply Qle_shift_div_r; lra). lra.
Qed.

Lemma toFixed3_range x : (2 # 100) <= x -> x <= 1 -> (2 # 100) <= toFixed 3 x <= 1.
Proof.
  intros Hlo Hhi. split.
  - apply Qle_trans with (toFixed 3 (2 # 100)); [vm_compute; discriminate |].
    apply toFixed_mono; lra.
  - apply Qle_trans with (toFixed 3 1); [apply toFixed_mono; lra |].
    vm_compute; discriminate.
Qed.

End JSFacts.

(* ===================================================================== *)
(** ** Properties of the feature adapter                                   *)
(* ===================================================================== *)

Module AdapterProps.
Import JS JSFacts Adapter Inputs AdapterNotions.

Lemma restTable_range d : 0 <= restTable d <= 10.
Proof.
  unfold restTable.
  repeat match goal with |- context [if ?b then _ else _] => destruct b end; lia.
Qed.

Lemma restTable_antitone d1 d2 :
  0 <= d2 -> d2 <= d1 -> restTable d1 <= restTable d2.
Proof.
  intros H0 Hle. unfold restTable.
  repeat match goal with
         | |- context [?a =? ?b] => destruct (Z.eqb_spec a b)
         end; lia.
Qed.

Lemma clampZ_mono lo hi x y : x <= y -> clampZ lo hi x <= clampZ lo hi y.
Proof. unfold clampZ. lia. Qed.

(** C3 (the code departs from the fatigue rule).  For a team whose only
    recent game was played the day before, [calculateTravelFatigue] reports one
    game in the trailing week and a fatigue score of 6: the back-to-back table
    value 7 is lowered by [Math.min(3, 1 - 2) = -1], whereas the rule adds
    nothing for two or fewer games and gives 7. *)
Lemma fatigue_one_game_yesterday :
  let s := calculateTravelFatigue oneGameYesterday msPerDay in
  days_rest s = 1 /\ games_in_last_week s = 1 /\
  fatigue_score s = 6 /\
  fatigue_by_spec (days_rest s) (games_in_last_week s) = 7.
Proof. vm_compute. repeat split; reflexivity. Qed.

(** Where the rule and the code agree: from two games in the trailing week
    upwards (at most five are fetched), the code's score is the rule's. *)
Lemma fatigue_agrees_from_two_games d g :
  2 <= g <= 5 -> fatigueScoreOf d g = fatigue_by_spec d g.
Proof. intros Hg. unfold fatigueScoreOf, fatigue_by_spec. f_equal. lia. Qed.

(** C4, as the code has it.  The fatigue score is monotone over the day
    counts that are not negative: with the games of the trailing week fixed,
    fewer days of rest, down to 0, never give a lower score; with the days of
    rest fixed (of either sign), more games in the trailing week never give a
    lower score. *)
Theorem fatigue_score_monotone :
  (forall d1 d2 g, 0 <= d2 -> d2 <= d1 ->
      fatigueScoreOf d1 g <= fatigueScoreOf d2 g) /\
  (forall d g1 g2, g1 <= g2 ->
      fatigueScoreOf d g1 <= fatigueScoreOf d g2).
Proof.
  split.
  - intros d1 d2 g H0 Hle. unfold fatigueScoreOf.
    apply clampZ_mono.
    pose proof (restTable_antitone d1 d2 H0 Hle). lia.
  - intros d g1 g2 Hle. unfold fatigueScoreOf.
    apply clampZ_mono. lia.
Qed.

(** One day of rest against three, two games in the week. *)
Lemma fatigue_score_monotone_witness :
  0 <= 1 /\ 1 <= 3 /\ fatigueScoreOf 3 2 <= fatigueScoreOf 1 2.
Proof.
  split; [lia | split; [lia |]].
  apply (proj1 fatigue_score_monotone 3 1 2); lia.
Defined.

(** C4, as the claim words it, fails.  The day count is the floor of a
    signed difference: for a final game dated one millisecond after the time
    the fatigue is computed for, [days_rest] is -1.  It is smaller than the 0
    of a game at that very time, the games of the trailing week are the same
    one game, and yet the score is 0 against 9: the table knows 0, 1, 2 and 3
    days and gives 0 for every other count. *)
Lemma negative_rest_lowers_score :
  let s0 := calculateTravelFatigue (oneGameAt 0) 0 in
  let s1 := calculateTravelFatigue (oneGameAt 1) 0 in
  days_rest s0 = 0 /\ days_rest s1 = -1 /\
  games_in_last_week s0 = 1 /\ games_in_last_week s1 = 1 /\
  fatigue_score s0 = 9 /\ fatigue_score s1 = 0 /\
  ~ (forall d1 d2 g, d2 <= d1 -> fatigueScoreOf d1 g <= fatigueScoreOf d2 g).
Proof.
  cbv zeta. do 6 (split; [vm_compute; reflexivity |]).
  intros H. specialize (H 0 (-1) 1 ltac:(lia)). vm_compute in H. now apply H.
Qed.

(** *** Team form *)

Lemma countZ_cons {A} (f : A -> bool) x l :
  countZ f (x :: l) = (if f x then 1 else 0) + countZ f l.
Proof. unfold countZ. simpl. destruct (f x); simpl List.length; lia. Qed.

Lemma countZ_nil {A} (f : A -> bool) : countZ f [] = 0.
Proof. reflexivity. Qed.

(** The counters after the [forEach] loop are the counts and sums read off
    the list. *)
Lemma formLoop_counts teamId games :
  forall index c, 0 <= index ->
    let r := formLoop teamId games index c in
    c_wins r = c_wins c + countZ (wonBy teamId) games /\
    c_totalPointsScored r =
      c_totalPointsScored c + sumZ (map (fun g => numZ (teamScoreOf teamId g)) games) /\
    c_totalPointsAllowed r =
      c_totalPointsAllowed c + sumZ (map (fun g => numZ (oppScoreOf teamId g)) games) /\
    c_recentWins r =
      c_recentWins c + countZ (wonBy teamId) (firstn (Z.to_nat (5 - index)) games).
Proof.
  induction games as [| game rest IH]; intros index c Hidx.
  - simpl. rewrite firstn_nil, !countZ_nil. unfold sumZ. simpl. lia.
  - cbn [formLoop].
    destruct (IH (index + 1) (formStep teamId c game index) ltac:(lia))
      as (Hw & Hs & Ha & Hr).
    cbv zeta. rewrite Hw, Hs, Ha, Hr. clear Hw Hs Ha Hr IH.
    unfold formStep. cbn [c_wins c_totalPointsScored c_totalPointsAllowed c_recentWins].
    fold (wonBy teamId game).
    rewrite countZ_cons. cbn [map]. unfold sumZ. cbn [fold_right].
    destruct (Z.ltb_spec index 5) as [Hlt | Hge].
    + replace (Z.to_nat (5 - index)) with (S (Z.to_nat (5 - (index + 1)))) by lia.
      cbn [firstn]. rewrite countZ_cons.
      destruct (wonBy teamId game); cbn [andb]; repeat split; lia.
    + replace (Z.to_nat (5 - index)) with 0%nat by lia.
      replace (Z.to_nat (5 - (index + 1))) with 0%nat by lia.
      cbn [firstn]. rewrite countZ_nil.
      destruct (wonBy teamId game); cbn [andb]; repeat split; lia.
Qed.

(** The score [calculateTeamForm] computes before rounding is the form rule
    of the specification. *)
Lemma formScore_is_rule teamId game rest :
  let games := game :: rest in
  let c := formLoop teamId games 0 (mkCounters 0 0 0 0) in
  let n := inject_Z (Z.of_nat (List.length games)) in
  let pointDiff :=
    (inject_Z (c_totalPointsScored c) / n - inject_Z (c_totalPointsAllowed c) / n)%Q in
  (inject_Z (c_wins c) / n * 5
   + (Qmin (Qmax (pointDiff / 10) (-(25 # 10))) (25 # 10) + (25 # 10))
   + inject_Z (c_recentWins c) / 5 * 2 == form_by_spec teamId games)%Q.
Proof.
  intros games c n pointDiff.
  destruct (formLoop_counts teamId games 0 (mkCounters 0 0 0 0) ltac:(lia))
    as (Hw & Hs & Ha & Hr).
  fold c in Hw, Hs, Ha, Hr. cbn [c_wins c_totalPointsScored c_totalPointsAllowed
                                 c_recentWins] in Hw, Hs, Ha, Hr.
  change (Z.to_nat (5 - 0)) with 5%nat in Hr.
  unfold form_by_spec, win_pct, avg_points_for, avg_points_against, recent_wins_last_5.
  subst pointDiff. rewrite Hw, Hs, Ha, Hr. cbn [Z.add]. fold n.
  rewrite min_max_is_clamp. ring.
Qed.

Lemma round1_nearest x : nearestTenth x (round1 x).
Proof.
  split.
  - exists (Math_round (x * 10)). reflexivity.
  - unfold round1. destruct (Math_round_bounds (x * 10)) as (H1 & H2).
    set (k := inject_Z (Math_round (x * 10))) in *.
    apply Qabs_Qle_condition. split.
    + apply Qle_minus_iff.
      assert (E : k / 10 - x + - - (1 # 20) == (k - (x * 10 - (1 # 2))) / 10) by field.
      rewrite E. apply Qle_shift_div_l; [reflexivity | lra].
    + apply Qle_minus_iff.
      assert (E : (1 # 20) + - (k / 10 - x) == (x * 10 + (1 # 2) - k) / 10) by field.
      rewrite E. apply Qle_shift_div_l; [reflexivity | lra].
Qed.

(** C5, as the code has it.  For every non-empty list of recent games the
    form score is the form rule
    [5 * win_pct + clamp((for - against) / 10, -2.5, 2.5) + 2.5 + 2 * (last5 / 5)],
    rounded to a nearest multiple of 0.1 and then clamped to [0,10]; when the
    rule's value does not lie halfway between two tenths that multiple is
    [Math.round(x * 10) / 10] of it (halfway, the code rounds the double it
    computed, which decides the side).  With no games the adapter returns the
    neutral record ([win_pct] 0.5, [form_score] 5.0, momentum unknown).  The
    function is total. *)
Theorem form_score_rule teamId :
  (forall games, games <> [] ->
     (exists y,
        nearestTenth (form_by_spec teamId games) y /\
        (form_score (calculateTeamForm teamId games) == clampQ 0 10 y)%Q) /\
     (~ tieOfTenths (form_by_spec teamId games) ->
      (form_score (calculateTeamForm teamId games)
       == clampQ 0 10 (round1 (form_by_spec teamId games)))%Q)) /\
  (win_percentage (calculateTeamForm teamId []) == 1 # 2)%Q /\
  (form_score (calculateTeamForm teamId []) == 5)%Q /\
  momentum (calculateTeamForm teamId []) = unknown.
Proof.
  split; [| repeat split; reflexivity].
  intros [| game rest] Hne; [congruence |].
  assert (E : (form_score (calculateTeamForm teamId (game :: rest))
               == clampQ 0 10 (round1 (form_by_spec teamId (game :: rest))))%Q).
  { cbn [calculateTeamForm form_score].
    rewrite (round1_comp _ _ (formScore_is_rule teamId game rest)).
    reflexivity. }
  split.
  - exists (round1 (form_by_spec teamId (game :: rest))).
    split; [apply round1_nearest | exact E].
  - intros _. exact E.
Qed.

Lemma form_score_rule_witness :
  threeGames <> [] /\
  ~ tieOfTenths (form_by_spec "nba-bos" threeGames) /\
  (form_score (calculateTeamForm "nba-bos" threeGames)
   == clampQ 0 10 (round1 (form_by_spec "nba-bos" threeGames)))%Q.
Proof.
  assert (Hne : threeGames <> []) by (unfold threeGames; discriminate).
  assert (Hnt : ~ tieOfTenths (form_by_spec "nba-bos" threeGames)).
  { intros (k & Hk).
    assert (E : (form_by_spec "nba-bos" threeGames == 127 # 30)%Q)
      by (vm_compute; reflexivity).
    rewrite E in Hk. unfold Qeq in Hk. cbn in Hk. lia. }
  split; [exact Hne | split; [exact Hnt |]].
  apply (proj2 (proj1 (form_score_rule "nba-bos") threeGames Hne) Hnt).
Defined.

(** The two losses 100-120 and 100-129 put the rule's value at 0.05,
    halfway between 0 and 0.1. *)
Lemma two_losses_lie_halfway :
  (form_by_spec "nba-bos" twoLosses == 1 # 20)%Q /\
  tieOfTenths (form_by_spec "nba-bos" twoLosses).
Proof.
  assert (E : (form_by_spec "nba-bos" twoLosses == 1 # 20)%Q) by (vm_compute; reflexivity).
  split; [exact E |]. exists 1. rewrite E. reflexivity.
Qed.

(** C5, as the claim words it, fails: for a team with one win in three games
    (280 points scored, 290 allowed) the rule gives 127/30, about 4.233,
    and the adapter returns 4.2, the rule rounded to one decimal. *)
Lemma form_score_is_rounded :
  (form_score (calculateTeamForm "nba-bos" threeGames) == 42 # 10)%Q /\
  (clampQ 0 10 (form_by_spec "nba-bos" threeGames) == 127 # 30)%Q /\
  ~ (form_score (calculateTeamForm "nba-bos" threeGames)
     == clampQ 0 10 (form_by_spec "nba-bos" threeGames))%Q.
Proof.
  split; [| split].
  - vm_compute. reflexivity.
  - vm_compute. reflexivity.
  - vm_compute. discriminate.
Qed.

End AdapterProps.

(* ===================================================================== *)
(** ** Properties of the prediction engine                                 *)
(* ===================================================================== *)

Module EngineProps.
Import JS JSFacts Engine Inputs.
Local Open Scope Q_scope.

(** The market term of the differential: [+10] when the sharp money is on
    the home team, [-10] when on the away team, nothing otherwise. *)
Lemma sharp_money_term f :
  exists m,
    (m == 10 \/ m == -(10) \/ m == 0) /\
    (String.eqb (sharp_money_indicator f) "home" = true -> m == 10) /\
    (String.eqb (sharp_money_indicator f) "home" = false ->
     String.eqb (sharp_money_indicator f) "away" = true -> m == -(10)) /\
    (String.eqb (sharp_money_indicator f) "home" = false ->
     String.eqb (sharp_money_indicator f) "away" = false -> m == 0) /\
    homeAdvantageRaw f ==
      50
      + (home_team_form f - away_team_form f) * 3
      + (home_player_advantage f - away_player_advantage f) * 4
      + (away_injury_impact f - home_injury_impact f) * (36 # 10)
      + (away_fatigue f - home_fatigue f) * (24 # 10)
      + h2h_advantage f * 2
      + home_court_advantage f * (16 # 10)
      + rest_advantage f * (14 # 10)
      + weather_impact f * (6 # 10)
      + (home_sentiment f - away_sentiment f) * (4 # 10)
      + m.
Proof.
  unfold homeAdvantageRaw. cbv zeta.
  destruct (String.eqb (sharp_money_indicator f) "home") eqn:Hh;
    [| destruct (String.eqb (sharp_money_indicator f) "away") eqn:Ha].
  - exists 10. repeat split; intros; first [discriminate | lra | left; lra].
  - exists (-(10)). repeat split; intros; first [discriminate | lra | right; left; lra].
  - exists 0. repeat split; intros; first [discriminate | lra | right; right; lra].
Qed.

(** C7, as the code has it.  The differential starts at 50; the features
    that come as a home and an away value add (home - away) x gain (form 3,
    player advantage 4, sentiment 0.4), injuries and fatigue inverted
    ((away - home) x 3.6 and x 2.4); the single-valued signals add
    value x gain (head-to-head 2, home court 1.6, rest 1.4, weather 0.6); the
    market adds +10, -10 or nothing; the total is clamped to [0,100] once,
    after all additions, and the home-win probability is the clamped total
    divided by 100. *)
Theorem differential_closed_form f :
  exists m,
    (String.eqb (sharp_money_indicator f) "home" = true -> m == 10) /\
    (String.eqb (sharp_money_indicator f) "home" = false ->
     String.eqb (sharp_money_indicator f) "away" = true -> m == -(10)) /\
    (String.eqb (sharp_money_indicator f) "home" = false ->
     String.eqb (sharp_money_indicator f) "away" = false -> m == 0) /\
    homeAdvantageOf f ==
      clampQ 0 100
        (50
         + (home_team_form f - away_team_form f) * 3
         + (home_player_advantage f - away_player_advantage f) * 4
         + (away_injury_impact f - home_injury_impact f) * (36 # 10)
         + (away_fatigue f - home_fatigue f) * (24 # 10)
         + h2h_advantage f * 2
         + home_court_advantage f * (16 # 10)
         + rest_advantage f * (14 # 10)
         + weather_impact f * (6 # 10)
         + (home_sentiment f - away_sentiment f) * (4 # 10)
         + m) /\
    0 <= homeAdvantageOf f <= 100 /\
    homeWinProbOf f == homeAdvantageOf f / 100.
Proof.
  destruct (sharp_money_term f) as (m & _ & Hh & Ha & Hn & Hraw).
  exists m. split; [exact Hh | split; [exact Ha | split; [exact Hn |]]].
  assert (Hclamp : homeAdvantageOf f == clampQ 0 100 (homeAdvantageRaw f)).
  { unfold homeAdvantageOf. apply max_min_is_clamp. lra. }
  split; [| split].
  - rewrite Hclamp. now rewrite Hraw.
  - rewrite Hclamp. apply clampQ_range. lra.
  - reflexivity.
Qed.

(** C7, as the claim words it, fails.  On the neutral feature vector every
    home value equals its away value, so a sum of (home - away) x gain terms
    leaves the differential at 50 whatever the gains; the engine returns
    68.8, the head-to-head value 5.0 and the home-court value 5.5 entering
    as value x gain (10 and 8.8). *)
Lemma differential_not_pairwise :
  homeAdvantageOf neutralFeatures == 688 # 10 /\
  ~ (exists g, homeAdvantageOf neutralFeatures == differential_by_spec g neutralFeatures).
Proof.
  split.
  - vm_compute. reflexivity.
  - intros [g Hg].
    assert (H50 : differential_by_spec g neutralFeatures == 50).
    { unfold differential_by_spec, neutralFeatures.
      cbn [home_team_form away_team_form home_player_advantage away_player_advantage
           home_injury_impact away_injury_impact home_fatigue away_fatigue
           home_sentiment away_sentiment].
      assert (E : 50 + (5 - 5) * gain_form g + (5 - 5) * gain_player g
                  + (0 - 0) * gain_injury g + (0 - 0) * gain_fatigue g
                  + (5 - 5) * gain_sentiment g == 50) by ring.
      rewrite E. vm_compute. reflexivity. }
    rewrite H50 in Hg. vm_compute in Hg. discriminate.
Qed.

(** *** The predicted winner *)

Lemma winner_is_home_iff f game :
  winner (calculateWeightedPrediction f game) = home <-> (1 # 2) < homeWinProbOf f.
Proof.
  unfold calculateWeightedPrediction.
  destruct (predictScores (sport game) (homeWinProbOf f) f) as [hs as_].
  cbn [winner]. unfold Qgt_bool.
  destruct (Qle_bool (homeWinProbOf f) (1 # 2)) eqn:E; cbn [negb].
  - apply Qle_bool_iff in E. split; [discriminate | intros H; lra].
  - apply Qle_bool_false in E. split; [intros _; exact E | reflexivity].
Qed.

(** C10.  The home team is the predicted winner exactly when the home-win
    probability is strictly greater than 0.5; a clamped differential of
    exactly 50 is a probability of exactly 0.5 and the away team is
    predicted. *)
Theorem even_split_goes_away f game :
  (winner (calculateWeightedPrediction f game) = home <-> (1 # 2) < homeWinProbOf f) /\
  (homeAdvantageOf f == 50 ->
   homeWinProbOf f == 1 # 2 /\ winner (calculateWeightedPrediction f game) = away).
Proof.
  split; [apply winner_is_home_iff |].
  intros H50.
  assert (Hp : homeWinProbOf f == 1 # 2).
  { unfold homeWinProbOf. rewrite H50. reflexivity. }
  split; [exact Hp |].
  destruct (winner (calculateWeightedPrediction f game)) eqn:W; [| reflexivity].
  apply winner_is_home_iff in W. lra.
Qed.

Lemma even_split_goes_away_witness :
  homeAdvantageOf evenFeatures == 50 /\
  winner (calculateWeightedPrediction evenFeatures bostonAtHome) = away.
Proof.
  assert (H50 : homeAdvantageOf evenFeatures == 50) by (vm_compute; reflexivity).
  split; [exact H50 |].
  apply (proj2 (even_split_goes_away evenFeatures bostonAtHome) H50).
Defined.

(** *** The fallback prediction *)

Lemma fallback_confidence_range r1 :
  0 <= r1 -> r1 < 1 -> (65 <= Math_floor (r1 * 20) + 65 <= 84)%Z.
Proof.
  intros H0 H1. unfold Math_floor.
  assert (Hlo : (Qfloor 0 <= Qfloor (r1 * 20))%Z) by (apply Qfloor_resp_le; lra).
  change (Qfloor 0) with 0%Z in Hlo.
  pose proof (Qfloor_le (r1 * 20)) as Hle.
  assert (Hhi : inject_Z (Qfloor (r1 * 20)) < inject_Z 20).
  { change (inject_Z 20) with 20. lra. }
  rewrite <- Zlt_Qlt in Hhi. lia.
Qed.




End EngineProps.

(* ===================================================================== *)
(** ** Properties of the validator                                         *)
(* ===================================================================== *)

Module ValidatorProps.
Import JS JSFacts Store Validator Inputs.

(** *** The loop as a whole *)

Lemma fold_validateOne now js :
  forall db c,
    fold_left (validateOne now) js (db, c)
    = (mkDB (map (annotateAll now js) (ai_predictions_enhanced db))
            (games db)
            (prediction_accuracy db ++ map (accuracyRowOf now) js)
            (system_logs db),
       countersAfter js c).
Proof.
  induction js as [| j js IH]; intros db c.
  - cbn [fold_left map annotateAll countersAfter].
    rewrite map_id, app_nil_r. now destruct db.
  - cbn [fold_left]. unfold validateOne at 2. rewrite IH.
    cbn [ai_predictions_enhanced games prediction_accuracy system_logs].
    unfold updatePrediction. rewrite map_map, <- app_assoc. reflexivity.
Qed.

Lemma countersAfter_nil c : countersAfter [] c = c.
Proof. reflexivity. Qed.

(** The store and the counters a run produces. *)
Lemma run_unfold now db :
  let js := selectPredictions now db in
  let db1 :=
    mkDB (map (annotateAll now js) (ai_predictions_enhanced db))
         (games db)
         (prediction_accuracy db ++ map (accuracyRowOf now) js)
         (system_logs db) in
  let c := countersAfter js (mkCounters 0 0 0) in
  runPredictionValidation now db
  = (mkResult true (validated c) (correct c) (incorrect c)
       (accuracyPct (sevenDayStats now db1)) (sevenDayStats now db1),
     mkDB (ai_predictions_enhanced db1) (games db1) (prediction_accuracy db1)
          (system_logs db1 ++
           [mkLog "prediction_validation"
              [validated c; correct c; incorrect c;
               stat_total (sevenDayStats now db1)] now])).
Proof.
  intros js db1 c. unfold runPredictionValidation.
  fold js. rewrite fold_validateOne. reflexivity.
Qed.

(** *** What the updates do to one row *)

Lemma annotateAll_cons now j js p :
  annotateAll now (j :: js) p
  = annotateAll now js (if p_id p =? p_id (pred j) then annotate now j p else p).
Proof. reflexivity. Qed.

Lemma annotateAll_keys now js :
  forall p,
    p_id (annotateAll now js p) = p_id p /\
    p_game_id (annotateAll now js p) = p_game_id p /\
    p_created_at (annotateAll now js p) = p_created_at p.
Proof.
  induction js as [| j js IH]; intros p; [now cbn |].
  rewrite annotateAll_cons.
  destruct (IH (if p_id p =? p_id (pred j) then annotate now j p else p))
    as (H1 & H2 & H3).
  rewrite H1, H2, H3. destruct (p_id p =? p_id (pred j)); now cbn.
Qed.

Lemma annotateAll_untouched now js :
  forall p, ~ In (p_id p) (map (fun j => p_id (pred j)) js) -> annotateAll now js p = p.
Proof.
  induction js as [| j js IH]; intros p Hnot; [reflexivity |].
  rewrite annotateAll_cons. cbn [map In] in Hnot.
  destruct (Z.eqb_spec (p_id p) (p_id (pred j))) as [E | E].
  - exfalso. apply Hnot. left. congruence.
  - apply IH. tauto.
Qed.

(** With distinct row ids among the selected predictions, a row carries the
    annotation of the selected prediction it belongs to. *)
Lemma annotateAll_own now js :
  forall p j,
    NoDup (map (fun j => p_id (pred j)) js) ->
    In j js -> p_id p = p_id (pred j) ->
    annotateAll now js p = annotate now j p.
Proof.
  induction js as [| j0 js IH]; intros p j Hnd Hin Hid; [contradiction |].
  rewrite annotateAll_cons. cbn [map] in Hnd. inversion Hnd as [| ? ? Hnotin Hnd']; subst.
  destruct Hin as [-> | Hin].
  - rewrite Hid, Z.eqb_refl. apply annotateAll_untouched.
    cbn [annotate p_id]. now rewrite Hid.
  - destruct (Z.eqb_spec (p_id p) (p_id (pred j0))) as [E | E].
    + exfalso. apply Hnotin. rewrite <- E, Hid.
      apply in_map_iff. now exists j.
    + now apply IH.
Qed.

(** A row that had an outcome, or that belongs to a selected prediction,
    has an outcome afterwards, every winner written being a team id. *)
Lemma annotateAll_outcome now js :
  (forall j, In j js -> actualWinnerOf j <> None) ->
  forall p,
    p_actual_outcome p <> None \/ In (p_id p) (map (fun j => p_id (pred j)) js) ->
    p_actual_outcome (annotateAll now js p) <> None.
Proof.
  induction js as [| j js IH]; intros Hnn p Hp.
  - cbn in *. tauto.
  - rewrite annotateAll_cons.
    assert (Hnn' : forall j', In j' js -> actualWinnerOf j' <> None)
      by (intros j' Hj'; apply Hnn; now right).
    destruct (Z.eqb_spec (p_id p) (p_id (pred j))) as [E | E].
    + apply (IH Hnn'). left. cbn [annotate p_actual_outcome].
      apply Hnn. now left.
    + apply (IH Hnn'). destruct Hp as [Hp | Hp]; [now left |].
      cbn [map In] in Hp. destruct Hp as [Hp | Hp]; [congruence | now right].
Qed.

Lemma in_candidates now db j :
  In j (candidates now db) <->
  exists p g,
    In p (ai_predictions_enhanced db) /\ In g (games db) /\
    String.eqb (p_game_id p) (g_id g) = true /\
    needsValidation now p g = true /\
    j = mkJoined p (g_home_score g) (g_away_score g) (g_status g).
Proof.
  unfold candidates. rewrite in_flat_map. split.
  - intros (p & Hp & Hj). apply in_map_iff in Hj. destruct Hj as (g & <- & Hg).
    apply filter_In in Hg. destruct Hg as (Hg & Hc).
    apply andb_prop in Hc. destruct Hc as (Hid & Hnv).
    exists p, g. repeat split; assumption.
  - intros (p & g & Hp & Hg & Hid & Hnv & ->).
    exists p. split; [assumption |].
    apply in_map_iff. exists g. split; [reflexivity |].
    apply filter_In. split; [assumption |]. now rewrite Hid, Hnv.
Qed.

Lemma needsValidation_outcome now p g :
  needsValidation now p g = true -> p_actual_outcome p = None.
Proof.
  unfold needsValidation. intros H.
  apply andb_prop in H. destruct H as (H & _).
  apply andb_prop in H. destruct H as (_ & H).
  destruct (p_actual_outcome p); [discriminate | reflexivity].
Qed.

(** A candidate of a later pass stems from a row that was a candidate
    before and that no update of the first pass touched. *)
Lemma later_candidate now now' db js j' :
  now <= now' ->
  (forall j, In j js -> actualWinnerOf j <> None) ->
  In j' (candidates now'
           (mkDB (map (annotateAll now js) (ai_predictions_enhanced db))
                 (games db)
                 (prediction_accuracy db ++ map (accuracyRowOf now) js)
                 (system_logs db))) ->
  exists p g,
    In (mkJoined p (g_home_score g) (g_away_score g) (g_status g)) (candidates now db) /\
    p_id (pred j') = p_id p /\
    ~ In (p_id p) (map (fun j => p_id (pred j)) js).
Proof.
  intros Hle Hnn Hj'.
  apply in_candidates in Hj'.
  cbn [ai_predictions_enhanced games] in Hj'.
  destruct Hj' as (p' & g & Hp' & Hg & Hid & Hnv & ->).
  apply in_map_iff in Hp'. destruct Hp' as (p & <- & Hp).
  destruct (annotateAll_keys now js p) as (Kid & Kgame & Kcreated).
  pose proof (needsValidation_outcome _ _ _ Hnv) as Hnone.
  assert (Hfresh : p_actual_outcome p = None /\
                   ~ In (p_id p) (map (fun j => p_id (pred j)) js)).
  { split.
    - destruct (p_actual_outcome p) eqn:E; [| reflexivity].
      exfalso. apply (annotateAll_outcome now js Hnn p); [left; congruence | exact Hnone].
    - intros Hin. apply (annotateAll_outcome now js Hnn p); [now right | exact Hnone]. }
  destruct Hfresh as (Hout & Hnotin).
  exists p, g. split; [| split; [cbn [pred]; exact Kid | exact Hnotin]].
  apply in_candidates. exists p, g. repeat split; try assumption.
  - now rewrite <- Kgame.
  - unfold needsValidation in *. rewrite Kcreated in Hnv. rewrite Hout.
    apply andb_prop in Hnv. destruct Hnv as (Hnv & Ht).
    apply andb_prop in Hnv. destruct Hnv as (Hs & _).
    rewrite Hs. cbn [andb].
    apply Z.leb_le in Ht. apply Z.leb_le. unfold secondsPerDay in *. lia.
Qed.

Lemma in_firstn {A} n (l : list A) x : In x (firstn n l) -> In x l.
Proof.
  intros H. rewrite <- (firstn_skipn n l). apply in_or_app. now left.
Qed.

Lemma no_candidates_left now now' db :
  now <= now' ->
  (List.length (candidates now db) <= 100)%nat ->
  (forall j, In j (candidates now db) -> actualWinnerOf j <> None) ->
  candidates now' (snd (runPredictionValidation now db)) = [].
Proof.
  intros Hle Hfit Hnn. rewrite run_unfold. cbn [snd].
  set (js := selectPredictions now db).
  assert (Hjs : js = candidates now db) by (apply firstn_all2; exact Hfit).
  match goal with |- ?c = [] => destruct c as [| j' rest] eqn:E end; [reflexivity |].
  exfalso.
  assert (Hin : In j' (candidates now'
            (mkDB (map (annotateAll now js) (ai_predictions_enhanced db))
                  (games db)
                  (prediction_accuracy db ++ map (accuracyRowOf now) js)
                  (system_logs db)))).
  { unfold candidates in *. cbn [ai_predictions_enhanced games] in *.
    rewrite E. now left. }
  destruct (later_candidate now now' db js j' Hle) as (p & g & Hc & _ & Hnot);
    [rewrite Hjs; exact Hnn | exact Hin |].
  apply Hnot. rewrite Hjs. apply in_map_iff.
  exists (mkJoined p (g_home_score g) (g_away_score g) (g_status g)).
  split; [reflexivity | exact Hc].
Qed.

(** A row that had an outcome, or that belongs to a selected prediction,
    has an outcome afterwards, when every winner written to a row of its id
    is a team id. *)
Lemma annotateAll_outcome_of_id now js :
  forall p,
    (forall j, In j js -> p_id (pred j) = p_id p -> actualWinnerOf j <> None) ->
    p_actual_outcome p <> None \/ In (p_id p) (map (fun j => p_id (pred j)) js) ->
    p_actual_outcome (annotateAll now js p) <> None.
Proof.
  induction js as [| j js IH]; intros p Hnn Hp.
  - cbn in *. tauto.
  - rewrite annotateAll_cons.
    destruct (Z.eqb_spec (p_id p) (p_id (pred j))) as [E | E].
    + apply IH.
      * intros j2 Hj2 Hid. apply Hnn; [now right | exact Hid].
      * left. cbn [annotate p_actual_outcome]. apply Hnn; [now left | congruence].
    + apply IH.
      * intros j2 Hj2 Hid. apply Hnn; [now right | exact Hid].
      * destruct Hp as [Hp | Hp]; [now left |].
        cbn [map In] in Hp. destruct Hp as [Hp | Hp]; [congruence | now right].
Qed.

(** C2, as the code has it, every statement of the store succeeding.  A
    second pass, at the same or a later time, selects no prediction for which
    the first pass wrote a team id as actual outcome (with row ids distinct
    among the selected predictions: for which the winner the first pass found
    is a team id).  When the predictions awaiting validation fit into the
    first pass's batch of 100 and each of them gets a team id as actual
    outcome, the second pass validates nothing: its counters are zero, the
    predictions and the accuracy table stay as the first pass left them, and,
    run at the same time, it reports the same aggregate statistics. *)
Theorem second_pass_skips_annotated now now' db :
  now <= now' ->
  let run1 := runPredictionValidation now db in
  let run2 := runPredictionValidation now' (snd run1) in
  (forall j,
     In j (selectPredictions now db) ->
     (forall j2, In j2 (selectPredictions now db) ->
                 p_id (pred j2) = p_id (pred j) -> actualWinnerOf j2 <> None) ->
     forall j', In j' (selectPredictions now' (snd run1)) ->
                p_id (pred j') <> p_id (pred j)) /\
  (NoDup (map (fun j => p_id (pred j)) (selectPredictions now db)) ->
   forall j,
     In j (selectPredictions now db) -> actualWinnerOf j <> None ->
     forall j', In j' (selectPredictions now' (snd run1)) ->
                p_id (pred j') <> p_id (pred j)) /\
  ((List.length (candidates now db) <= 100)%nat ->
   (forall j, In j (candidates now db) -> actualWinnerOf j <> None) ->
   r_validated (fst run2) = 0 /\
   r_correct (fst run2) = 0 /\
   r_incorrect (fst run2) = 0 /\
   ai_predictions_enhanced (snd run2) = ai_predictions_enhanced (snd run1) /\
   prediction_accuracy (snd run2) = prediction_accuracy (snd run1) /\
   (now' = now ->
    seven_day_stats (fst run2) = seven_day_stats (fst run1) /\
    accuracy_pct (fst run2) = accuracy_pct (fst run1))).
Proof.
  intros Hle run1 run2.
  assert (Hskip : forall j,
             In j (selectPredictions now db) ->
             (forall j2, In j2 (selectPredictions now db) ->
                         p_id (pred j2) = p_id (pred j) -> actualWinnerOf j2 <> None) ->
             forall j', In j' (selectPredictions now' (snd run1)) ->
                        p_id (pred j') <> p_id (pred j)).
  { intros j Hj Hnn j' Hj' Heq.
    apply in_firstn in Hj'. subst run1. rewrite run_unfold in Hj'. cbn [snd] in Hj'.
    apply in_candidates in Hj'. cbn [ai_predictions_enhanced games] in Hj'.
    destruct Hj' as (p' & g & Hp' & _ & _ & Hnv & ->). cbn [pred] in Heq.
    apply in_map_iff in Hp'. destruct Hp' as (p & <- & _).
    destruct (annotateAll_keys now (selectPredictions now db) p) as (Kid & _).
    rewrite Kid in Heq.
    apply (annotateAll_outcome_of_id now (selectPredictions now db) p).
    - intros j2 Hj2 Hid. apply Hnn; [exact Hj2 | congruence].
    - right. rewrite Heq. apply in_map_iff. now exists j.
    - exact (needsValidation_outcome _ _ _ Hnv). }
  split; [exact Hskip | split].
  - intros Hnd j Hj Hw. apply Hskip; [exact Hj |].
    intros j2 Hj2 Hid.
    assert (E : j2 = j).
    { clear - Hnd Hj Hj2 Hid.
      induction (selectPredictions now db) as [| x l IH]; [contradiction |].
      cbn [map] in Hnd. inversion Hnd as [| ? ? Hnotin Hnd']; subst.
      destruct Hj as [-> | Hj], Hj2 as [-> | Hj2].
      - reflexivity.
      - exfalso. apply Hnotin. rewrite <- Hid. apply in_map_iff. now exists j2.
      - exfalso. apply Hnotin. rewrite Hid. apply in_map_iff. now exists j.
      - now apply IH. }
    now rewrite E.
  - intros Hfit Hnn.
    pose proof (no_candidates_left now now' db Hle Hfit Hnn) as Hnone.
    fold run1 in Hnone.
    assert (Hsel : selectPredictions now' (snd run1) = []).
    { unfold selectPredictions. now rewrite Hnone. }
    subst run2. rewrite (run_unfold now' (snd run1)). cbv zeta.
    rewrite Hsel.
    cbn [countersAfter fold_left validated correct incorrect map
         fst snd r_validated r_correct r_incorrect seven_day_stats accuracy_pct
         ai_predictions_enhanced prediction_accuracy].
    change (annotateAll now' []) with (fun p : PredictionRow => p).
    rewrite map_id, app_nil_r.
    assert (Hstats : forall d : DB,
               sevenDayStats now'
                 (mkDB (ai_predictions_enhanced d) (games d) (prediction_accuracy d)
                       (system_logs d))
               = sevenDayStats now' d) by (intros d; reflexivity).
    rewrite Hstats.
    do 5 (split; [reflexivity |]).
    intros ->. subst run1. rewrite run_unfold. split; reflexivity.
Qed.

(** Three pending predictions of one finished game. *)
Lemma second_pass_skips_annotated_witness :
  0 <= 0 /\
  (List.length (candidates 0 (pendingStore 3)) <= 100)%nat /\
  r_validated (fst (runPredictionValidation 0 (pendingStore 3))) = 3 /\
  r_validated
    (fst (runPredictionValidation 0 (snd (runPredictionValidation 0 (pendingStore 3)))))
  = 0.
Proof.
  assert (Hnn : forall j, In j (candidates 0 (pendingStore 3)) -> actualWinnerOf j <> None).
  { intros j Hj. vm_compute in Hj.
    repeat (destruct Hj as [<- | Hj]; [vm_compute; discriminate |]).
    contradiction. }
  assert (Hfit : (List.length (candidates 0 (pendingStore 3)) <= 100)%nat)
    by (vm_compute; lia).
  split; [lia | split; [exact Hfit | split; [vm_compute; reflexivity |]]].
  apply (proj2 (proj2 (second_pass_skips_annotated 0 0 (pendingStore 3) (Z.le_refl 0)))
           Hfit Hnn).
Defined.

(** What the amended claim leaves out: the guard of the query is
    [actual_outcome IS NULL], and for a prediction whose teams were not found
    the outcome written is [NULL].  Ten such predictions are validated by the
    first pass and validated again by the second, although the first pass
    stamped them with [validated_at]. *)
Lemma null_outcome_validated_again :
  let run1 := runPredictionValidation 0 LoopNotions.nullTeamStore in
  let run2 := runPredictionValidation 0 (snd run1) in
  r_validated (fst run1) = 10 /\
  forallb (fun p => match p_validated_at p with Some _ => true | None => false end)
          (ai_predictions_enhanced (snd run1)) = true /\
  r_validated (fst run2) = 10 /\
  List.length (prediction_accuracy (snd run2)) = 20%nat.
Proof. vm_compute. repeat split; reflexivity. Qed.

(** C2, as the claim words it, fails.  With 101 predictions awaiting
    validation the first pass validates its batch of 100; a second pass over
    the same games at the same time validates the remaining one, and the
    count behind the aggregate accuracy goes from 100 to 101. *)
Lemma second_pass_validates_the_rest :
  let run1 := runPredictionValidation 0 (pendingStore 101) in
  let run2 := runPredictionValidation 0 (snd run1) in
  r_validated (fst run1) = 100 /\
  r_validated (fst run2) = 1 /\
  stat_total (seven_day_stats (fst run1)) = 100 /\
  stat_total (seven_day_stats (fst run2)) = 101.
Proof. vm_compute. repeat split; reflexivity. Qed.

(** *** The outcome written for one prediction *)

Lemma strictEqText_iff a b : strictEqText a b = true <-> a = b.
Proof.
  destruct a as [x |], b as [y |]; cbn; try (split; [discriminate | congruence]).
  - rewrite String.eqb_eq. split; congruence.
  - split; reflexivity.
Qed.

(** C6, as the code has it.  For every prediction a pass selects: the
    actual winner is the home team when the home score is strictly higher
    and the away team otherwise (so also when the scores are level);
    [was_correct] is true exactly when that winner is the predicted winner;
    the margin of error is |actual spread - predicted spread| with the actual
    spread home score - away score (a missing predicted spread counts as 0);
    these values are written to [prediction_accuracy] and, row ids being
    distinct, to the prediction's own row, stamped with the time of the
    pass. *)
Theorem validation_outcome now db j :
  In j (selectPredictions now db) ->
  let db' := snd (runPredictionValidation now db) in
  (numZ (away_score j) < numZ (home_score j) ->
   actualWinnerOf j = p_home_team_id (pred j)) /\
  (numZ (home_score j) <= numZ (away_score j) ->
   actualWinnerOf j = p_away_team_id (pred j)) /\
  (wasCorrectOf j = true <-> actualWinnerOf j = p_predicted_winner_team_id (pred j)) /\
  (marginOfErrorOf j
   == Qabs (inject_Z (numZ (home_score j) - numZ (away_score j))
            - orElseQ (p_predicted_spread (pred j)) 0))%Q /\
  (exists a,
     In a (prediction_accuracy db') /\
     a_prediction_id a = p_id (pred j) /\
     a_actual_winner a = actualWinnerOf j /\
     a_prediction_correct a = wasCorrectOf j /\
     a_margin_of_error a = marginOfErrorOf j) /\
  (NoDup (map (fun j => p_id (pred j)) (selectPredictions now db)) ->
   forall p,
     In p (ai_predictions_enhanced db') -> p_id p = p_id (pred j) ->
     p_actual_outcome p = actualWinnerOf j /\
     p_was_correct p = Some (wasCorrectOf j) /\
     p_margin_of_error p = Some (marginOfErrorOf j) /\
     p_validated_at p = Some now).
Proof.
  intros Hj db'. subst db'. rewrite run_unfold. cbn [snd].
  cbn [ai_predictions_enhanced prediction_accuracy].
  split; [| split; [| split; [| split; [| split]]]].
  - intros H. unfold actualWinnerOf.
    destruct (Z.ltb_spec (numZ (away_score j)) (numZ (home_score j))); [reflexivity | lia].
  - intros H. unfold actualWinnerOf.
    destruct (Z.ltb_spec (numZ (away_score j)) (numZ (home_score j))); [lia | reflexivity].
  - unfold wasCorrectOf. apply strictEqText_iff.
  - reflexivity.
  - exists (accuracyRowOf now j). split; [| now cbn].
    apply in_or_app. right. apply in_map_iff. now exists j.
  - intros Hnd p Hp Hid.
    apply in_map_iff in Hp. destruct Hp as (p0 & <- & Hp0).
    destruct (annotateAll_keys now (selectPredictions now db) p0) as (Kid & _ & _).
    rewrite Kid in Hid.
    rewrite (annotateAll_own now _ p0 j Hnd Hj Hid).
    now cbn.
Qed.

(** Scenario C: predicted spread 7.0, final score 110 to 101. *)
Lemma validation_outcome_witness :
  In scenarioC (selectPredictions 0 (pendingStore 1)) /\
  (wasCorrectOf scenarioC = true <->
   actualWinnerOf scenarioC = p_predicted_winner_team_id (pred scenarioC)) /\
  wasCorrectOf scenarioC = true /\
  (marginOfErrorOf scenarioC == 2)%Q.
Proof.
  assert (Hin : In scenarioC (selectPredictions 0 (pendingStore 1)))
    by (vm_compute; left; reflexivity).
  split; [exact Hin |].
  pose proof (validation_outcome 0 (pendingStore 1) scenarioC Hin) as H.
  cbv zeta in H. destruct H as (_ & _ & Hc & _).
  split; [exact Hc | split; vm_compute; reflexivity].
Defined.

(** C6, as the claim words it, fails.  The game ended 100 to 100 and the
    away team had been predicted: the validator takes the away team for the
    actual winner and marks the prediction correct, whereas a tie making
    neither team the winner would mark it incorrect. *)
Lemma tie_counts_as_away_win :
  actualWinnerOf tiedGame = Some "nba-lal"%string /\
  wasCorrectOf tiedGame = true /\
  was_correct_by_spec tiedGame = false.
Proof. vm_compute. repeat split; reflexivity. Qed.

End ValidatorProps.

(* ===================================================================== *)
(** ** Properties of the weight tuner                                      *)
(* ===================================================================== *)

Module TunerProps.
Import JS JSFacts Store Tuner Inputs LoopNotions.
Local Open Scope Q_scope.

(** *** The minimum-sample gate *)







(** *** Sums of rationals *)

Lemma sumQ_cons x l : sumQ (x :: l) = x + sumQ l.
Proof. reflexivity. Qed.

Lemma sumQ_nil : sumQ [] = 0.
Proof. reflexivity. Qed.

Lemma sumQ_app l1 l2 : sumQ (l1 ++ l2) == sumQ l1 + sumQ l2.
Proof.
  induction l1 as [| x l1 IH]; cbn [app].
  - rewrite sumQ_nil. ring.
  - rewrite !sumQ_cons, IH. ring.
Qed.

Lemma sumQ_nonneg l : Forall (fun x => 0 <= x) l -> 0 <= sumQ l.
Proof.
  induction 1 as [| x l Hx _ IH]; [rewrite ?sumQ_nil; cbn [map]; rewrite ?sumQ_nil; lra |].
  rewrite sumQ_cons. lra.
Qed.

Lemma sumQ_map_le {A} (f g : A -> Q) l :
  (forall e, In e l -> f e <= g e) -> sumQ (map f l) <= sumQ (map g l).
Proof.
  induction l as [| e l IH]; intros H; [rewrite ?sumQ_nil; cbn [map]; rewrite ?sumQ_nil; lra |].
  cbn [map]. rewrite !sumQ_cons.
  assert (f e <= g e) by (apply H; now left).
  assert (sumQ (map f l) <= sumQ (map g l)) by (apply IH; intros; apply H; now right).
  lra.
Qed.

Lemma sumQ_map_div {A} (f : A -> Q) s l :
  sumQ (map (fun e => f e / s) l) == sumQ (map f l) / s.
Proof.
  induction l as [| e l IH]; cbn [map]; [rewrite sumQ_nil; unfold Qdiv; ring |].
  rewrite !sumQ_cons, IH. unfold Qdiv. ring.
Qed.

Lemma sumQ_map_affine {A} (f g : A -> Q) a b l :
  sumQ (map (fun e => a * f e + b * g e) l)
  == a * sumQ (map f l) + b * sumQ (map g l).
Proof.
  induction l as [| e l IH]; cbn [map]; [rewrite !sumQ_nil; ring |].
  rewrite !sumQ_cons, IH. ring.
Qed.

Lemma sumQ_member {A} (f : A -> Q) l e :
  (forall x, In x l -> 0 <= f x) -> In e l -> f e <= sumQ (map f l).
Proof.
  induction l as [| x l IH]; intros Hpos Hin; [contradiction |].
  cbn [map]. rewrite sumQ_cons.
  assert (0 <= f x) by (apply Hpos; now left).
  assert (0 <= sumQ (map f l)).
  { apply sumQ_nonneg. apply Forall_forall. intros y Hy.
    apply in_map_iff in Hy. destruct Hy as (z & <- & Hz). apply Hpos. now right. }
  destruct Hin as [-> | Hin]; [lra |].
  assert (f e <= sumQ (map f l)) by (apply IH; [intros; apply Hpos; now right | exact Hin]).
  lra.
Qed.

(** *** The factor statistics *)

Lemma analysed_correct_nonneg rows :
  forall perf,
    (forall k, (0 <= correct (perf k))%Z) ->
    forall k, (0 <= correct (fold_left analyse rows perf k))%Z.
Proof.
  induction rows as [| row rows IH]; intros perf Hperf k; [apply Hperf |].
  cbn [fold_left]. apply IH. intros k'. unfold analyse.
  destruct (factorImpact (features row) k'); [| apply Hperf].
  unfold record. cbn [correct]. specialize (Hperf k').
  destruct (prediction_correct row); lia.
Qed.

Lemma currentWeights_range k : (7 # 100) <= currentWeights k <= 20 # 100.
Proof. destruct k; cbn; split; discriminate. Qed.

Lemma accuracyEntry_spec k perf :
  (0 <= correct perf)%Z ->
  (forall e, In e (accuracyEntry k perf) -> 0 <= accuracy (snd e)) /\
  sumQ (map (fun e => currentWeights (fst e)) (accuracyEntry k perf)) <= currentWeights k.
Proof.
  intros Hc. unfold accuracyEntry.
  destruct (Z.ltb_spec 0 (count perf)) as [Hpos | Hzero].
  - split.
    + intros e [<- | []]. cbn [snd accuracy]. apply toFixed_nonneg.
      apply Qmult_le_0_compat; [| lra].
      apply Qle_shift_div_l.
      * change 0 with (inject_Z 0). now rewrite <- Zlt_Qlt.
      * rewrite Qmult_0_l. change 0 with (inject_Z 0). now rewrite <- Zle_Qle.
    + cbn [map fst]. rewrite sumQ_cons, sumQ_nil. lra.
  - split; [intros e [] |].
    cbn [map]. rewrite sumQ_nil. pose proof (currentWeights_range k). lra.
Qed.

Lemma factorAccuracyOf_wellFormed perf :
  (forall k, (0 <= correct (perf k))%Z) -> wellFormed (factorAccuracyOf perf).
Proof.
  intros Hperf. unfold factorAccuracyOf.
  assert (G : forall l,
             (forall e, In e (flat_map (fun k => accuracyEntry k (perf k)) l) ->
                        0 <= accuracy (snd e)) /\
             sumQ (map (fun e => currentWeights (fst e))
                       (flat_map (fun k => accuracyEntry k (perf k)) l))
             <= sumQ (map currentWeights l)).
  { induction l as [| k l (IH1 & IH2)].
    - split; [intros e [] |]. cbn [flat_map map]. lra.
    - destruct (accuracyEntry_spec k (perf k) (Hperf k)) as (E1 & E2).
      cbn [flat_map]. split.
      + intros e He. apply in_app_or in He. destruct He; [now apply E1 | now apply IH1].
      + rewrite map_app, sumQ_app. cbn [map]. rewrite sumQ_cons. lra. }
  destruct (G allFactors) as (G1 & G2). split; [exact G1 |].
  eapply Qle_trans; [exact G2 |]. vm_compute. discriminate.
Qed.

(** *** The proposed weights *)

Lemma orElse_currentWeight k :
  orElseQ (Some (currentWeights k)) (10 # 100) = currentWeights k.
Proof. destruct k; reflexivity. Qed.

Lemma optimizeOne_stepped total e :
  0 < total -> optimizeOne total (fst e) (snd e) = Num (steppedWeight total e).
Proof.
  intros Hpos. unfold optimizeOne, steppedWeight.
  destruct (Qeq_bool total 0) eqn:E.
  - apply Qeq_bool_iff in E. lra.
  - cbv zeta. now rewrite orElse_currentWeight.
Qed.

Lemma clampedWeights_stepped fa :
  0 < totalAccuracyOf fa ->
  clampedWeights fa
  = map (fun e => (fst e, Num (steppedWeight (totalAccuracyOf fa) e))) fa.
Proof.
  intros Hpos. unfold clampedWeights. cbv zeta. fold (totalAccuracyOf fa).
  apply map_ext. intros e. now rewrite optimizeOne_stepped.
Qed.

Lemma steppedWeight_range total e :
  (2 # 100) <= steppedWeight total e <= 30 # 100.
Proof. unfold steppedWeight. q_cases; lra. Qed.

(** No weight is raised by the lower clamp: the damped step from a current
    weight of at least 0.07 stays above 0.02. *)
Lemma steppedWeight_le_step total e :
  0 < total -> 0 <= accuracy (snd e) ->
  steppedWeight total e
  <= (7 # 10) * currentWeights (fst e) + (3 # 10) * (accuracy (snd e) / total).
Proof.
  intros Hpos Hacc. unfold steppedWeight.
  pose proof (currentWeights_range (fst e)) as Hcw.
  assert (Hq : 0 <= accuracy (snd e) / total).
  { apply Qle_shift_div_l; [exact Hpos | lra]. }
  set (q := accuracy (snd e) / total) in *.
  q_cases; lra.
Qed.

Lemma weightSum_of_numbers {A} (f : A -> Q) (key : A -> Factor) l :
  forall a,
    exists s,
      fold_left (fun sum e => jsAdd sum (snd e))
                (map (fun e => (key e, Num (f e))) l) (Num a) = Num s /\
      s == a + sumQ (map f l).
Proof.
  induction l as [| e l IH]; intros a.
  - exists a. split; [reflexivity |]. cbn [map]. rewrite sumQ_nil. ring.
  - cbn [map fold_left snd jsAdd].
    destruct (IH (a + f e)) as (s & Hs & Es).
    exists s. split; [exact Hs |]. rewrite Es, sumQ_cons. ring.
Qed.

Lemma accuracy_shares_sum fa :
  0 < totalAccuracyOf fa ->
  sumQ (map (fun e => accuracy (snd e) / totalAccuracyOf fa) fa) == 1.
Proof.
  intros Hpos. rewrite sumQ_map_div. fold (totalAccuracyOf fa).
  field. lra.
Qed.

(** The sum of the weights before the normalisation lies in (0, 0.93]. *)
Lemma steppedWeights_sum fa :
  wellFormed fa -> 0 < totalAccuracyOf fa ->
  0 < sumQ (map (steppedWeight (totalAccuracyOf fa)) fa) <= 93 # 100.
Proof.
  intros (Hacc & Hcw) Hpos. split.
  - destruct fa as [| e fa].
    + unfold totalAccuracyOf in Hpos. cbn [map] in Hpos. rewrite sumQ_nil in Hpos. lra.
    + cbn [map]. rewrite sumQ_cons.
      pose proof (steppedWeight_range (totalAccuracyOf (e :: fa)) e).
      assert (0 <= sumQ (map (steppedWeight (totalAccuracyOf (e :: fa))) fa)).
      { apply sumQ_nonneg. apply Forall_forall. intros w Hw.
        apply in_map_iff in Hw. destruct Hw as (e' & <- & _).
        pose proof (steppedWeight_range (totalAccuracyOf (e :: fa)) e'). lra. }
      lra.
  - eapply Qle_trans.
    + apply (sumQ_map_le _
               (fun e => (7 # 10) * currentWeights (fst e)
                         + (3 # 10) * (accuracy (snd e) / totalAccuracyOf fa))).
      intros e He. apply steppedWeight_le_step; [exact Hpos | now apply Hacc].
    + rewrite (sumQ_map_affine (fun e => currentWeights (fst e))
                 (fun e => accuracy (snd e) / totalAccuracyOf fa)).
      rewrite (accuracy_shares_sum fa Hpos). lra.
Qed.

(** *** The two divisions

    The model writes [NaN] for a division by zero.  Both divisions are of
    this kind only as [0 / 0]: a zero total accuracy means that every
    accuracy is zero, and the sum of the weights of a non-empty
    [factorAccuracy] is [NaN] or positive. *)

Lemma zero_total_zero_accuracies fa :
  wellFormed fa -> totalAccuracyOf fa == 0 ->
  forall e, In e fa -> accuracy (snd e) == 0.
Proof.
  intros (Hacc & _) Hzero e He.
  pose proof (sumQ_member (fun e => accuracy (snd e)) fa e Hacc He) as Hle.
  cbv beta in Hle. unfold totalAccuracyOf in Hzero.
  pose proof (Hacc e He). lra.
Qed.

Lemma sum_from_NaN (l : list (Factor * jsnum)) :
  fold_left (fun sum e => jsAdd sum (snd e)) l NaN = NaN.
Proof. induction l as [| e l IH]; [reflexivity | exact IH]. Qed.

Lemma weightSum_NaN_or_positive fa :
  fa <> [] ->
  weightSumOf (clampedWeights fa) = NaN \/
  exists s, weightSumOf (clampedWeights fa) = Num s /\ 0 < s.
Proof.
  intros Hne. unfold weightSumOf, clampedWeights. cbv zeta.
  fold (totalAccuracyOf fa).
  destruct (Qeq_bool (totalAccuracyOf fa) 0) eqn:E.
  - left. destruct fa as [| e fa]; [congruence |].
    cbn [map fold_left snd]. unfold optimizeOne. rewrite E.
    cbn [jsAdd]. apply sum_from_NaN.
  - right.
    assert (Hmap : map (fun e => (fst e, optimizeOne (totalAccuracyOf fa) (fst e) (snd e))) fa
                   = map (fun e => (fst e, Num (steppedWeight (totalAccuracyOf fa) e))) fa).
    { apply map_ext. intros e. unfold optimizeOne, steppedWeight. rewrite E.
      cbv zeta. now rewrite orElse_currentWeight. }
    rewrite Hmap.
    destruct (weightSum_of_numbers (steppedWeight (totalAccuracyOf fa)) fst fa 0)
      as (s & Hs & Es).
    exists s. split; [exact Hs |]. rewrite Es.
    destruct fa as [| e fa]; [congruence |].
    cbn [map]. rewrite sumQ_cons.
    pose proof (steppedWeight_range (totalAccuracyOf (e :: fa)) e).
    assert (0 <= sumQ (map (steppedWeight (totalAccuracyOf (e :: fa))) fa)).
    { apply sumQ_nonneg. apply Forall_forall. intros w Hw.
      apply in_map_iff in Hw. destruct Hw as (e' & <- & _).
      pose proof (steppedWeight_range (totalAccuracyOf (e :: fa)) e'). lra. }
    lra.
Qed.

(** The three stages of the proposed weights, for factor statistics with a
    positive total accuracy. *)
Lemma proposed_weights_stages fa :
  wellFormed fa -> 0 < totalAccuracyOf fa ->
  exists clamped normalised emitted : list Q,
    map snd (clampedWeights fa) = map Num clamped /\
    map snd (normalisedWeights fa) = map Num normalised /\
    map snd (optimizedWeights fa) = map Num emitted /\
    map fst (optimizedWeights fa) = map fst fa /\
    Forall (fun w => (2 # 100) <= w <= 30 # 100) clamped /\
    sumQ normalised == 1 /\
    Forall (fun w => (2 # 100) <= w <= 1) normalised /\
    emitted = map (toFixed 3) normalised /\
    Forall (fun w => Qabs (toFixed 3 w - w) <= 1 # 2000) normalised /\
    Forall (fun w => (2 # 100) <= w <= 1) emitted.
Proof.
  intros Hwf Hpos.
  set (total := totalAccuracyOf fa) in *.
  destruct (steppedWeights_sum fa Hwf Hpos) as (Hs0 & Hs1). fold total in Hs0, Hs1.
  destruct (weightSum_of_numbers (steppedWeight total) fst fa 0) as (s & Hfold & Es).
  assert (Hs : 0 < s /\ s <= 1) by (rewrite Es; split; lra).
  assert (Hsnz : Qeq_bool s 0 = false).
  { destruct (Qeq_bool s 0) eqn:E; [| reflexivity].
    apply Qeq_bool_iff in E. lra. }
  assert (Hnorm : normalisedWeights fa
                  = map (fun e => (fst e, Num (steppedWeight total e / s))) fa).
  { unfold normalisedWeights. cbv zeta. rewrite (clampedWeights_stepped fa Hpos).
    fold total. unfold weightSumOf. rewrite Hfold. rewrite map_map.
    apply map_ext. intros e. cbn [fst snd jsDiv]. now rewrite Hsnz. }
  assert (Hin : forall w, In w (map (fun e => steppedWeight total e / s) fa) ->
                          (2 # 100) <= w <= 1).
  { intros w Hw. apply in_map_iff in Hw. destruct Hw as (e & <- & He).
    pose proof (steppedWeight_range total e) as Hr.
    assert (Hle : steppedWeight total e <= s).
    { rewrite Es.
      pose proof (sumQ_member (steppedWeight total) fa e) as Hm.
      assert (steppedWeight total e <= sumQ (map (steppedWeight total) fa)).
      { apply Hm; [| exact He]. intros x _.
        pose proof (steppedWeight_range total x). lra. }
      lra. }
    split.
    - apply Qle_shift_div_l; [tauto |]. lra.
    - apply Qle_shift_div_r; [tauto |]. lra. }
  exists (map (steppedWeight total) fa),
         (map (fun e => steppedWeight total e / s) fa),
         (map (toFixed 3) (map (fun e => steppedWeight total e / s) fa)).
  split; [| split; [| split; [| split; [| split; [| split; [| split; [| split; [| split]]]]]]]].
  - rewrite (clampedWeights_stepped fa Hpos). fold total. now rewrite !map_map.
  - rewrite Hnorm. now rewrite !map_map.
  - unfold optimizedWeights. rewrite Hnorm. now rewrite !map_map.
  - unfold optimizedWeights. rewrite Hnorm. now rewrite !map_map.
  - apply Forall_forall. intros w Hw. apply in_map_iff in Hw.
    destruct Hw as (e & <- & _). apply steppedWeight_range.
  - rewrite sumQ_map_div.
    assert (E : sumQ (map (steppedWeight total) fa) == s) by (rewrite Es; ring).
    rewrite E. field. lra.
  - apply Forall_forall. exact Hin.
  - reflexivity.
  - apply Forall_forall. intros w Hw. apply toFixed3_close.
    pose proof (Hin w Hw). lra.
  - apply Forall_forall. intros w Hw. apply in_map_iff in Hw.
    destruct Hw as (w0 & <- & Hw0). apply toFixed3_range; now apply Hin.
Qed.

(** C1, as the code has it.  Whenever a tuning run proposes weights and some
    factor has a positive accuracy: every weight lies within [0.02, 0.30]
    when it is clamped, that is before the normalisation; the normalised
    weights sum to 1 and each lies within [0.02, 1]; the weights emitted are
    the normalised ones rounded to three decimals, each within 0.0005 of the
    normalised weight and within [0.02, 1]. *)
Theorem proposed_weights now db success n fa cw ow :
  fst (runWeightTuning now db) = Tuned success n fa cw ow ->
  0 < totalAccuracyOf fa ->
  ow = optimizedWeights fa /\
  exists clamped normalised emitted : list Q,
    map snd (clampedWeights fa) = map Num clamped /\
    map snd (normalisedWeights fa) = map Num normalised /\
    map snd ow = map Num emitted /\
    map fst ow = map fst fa /\
    Forall (fun w => (2 # 100) <= w <= 30 # 100) clamped /\
    sumQ normalised == 1 /\
    Forall (fun w => (2 # 100) <= w <= 1) normalised /\
    emitted = map (toFixed 3) normalised /\
    Forall (fun w => Qabs (toFixed 3 w - w) <= 1 # 2000) normalised /\
    Forall (fun w => (2 # 100) <= w <= 1) emitted.
Proof.
  intros Hrun Hpos. unfold runWeightTuning in Hrun.
  destruct (Z.of_nat (List.length (selectAnalysed now db)) <? 20)%Z;
    cbn [fst] in Hrun; [discriminate |].
  injection Hrun as _ _ Hfa _ How. subst ow fa.
  split; [reflexivity |].
  apply proposed_weights_stages; [| exact Hpos].
  apply factorAccuracyOf_wellFormed.
  apply analysed_correct_nonneg. intros k. cbn. lia.
Qed.

Lemma skewed_run :
  let fa :=
    factorAccuracyOf (fold_left analyse (selectAnalysed 10 skewedStore) factorPerformance0) in
  fst (runWeightTuning 10 skewedStore)
  = Tuned true 20 fa currentWeights (optimizedWeights fa).
Proof.
  intros fa. unfold runWeightTuning.
  assert (E : Z.of_nat (List.length (selectAnalysed 10 skewedStore)) = 20%Z)
    by (vm_compute; reflexivity).
  rewrite E. reflexivity.
Qed.

(** Eighteen wrong predictions without the player-advantage keys and two
    right ones with every key. *)
Lemma proposed_weights_witness :
  let fa :=
    factorAccuracyOf (fold_left analyse (selectAnalysed 10 skewedStore) factorPerformance0) in
  0 < totalAccuracyOf fa /\
  exists clamped normalised emitted : list Q,
    map snd (clampedWeights fa) = map Num clamped /\
    map snd (normalisedWeights fa) = map Num normalised /\
    map snd (optimizedWeights fa) = map Num emitted /\
    map fst (optimizedWeights fa) = map fst fa /\
    Forall (fun w => (2 # 100) <= w <= 30 # 100) clamped /\
    sumQ normalised == 1 /\
    Forall (fun w => (2 # 100) <= w <= 1) normalised /\
    emitted = map (toFixed 3) normalised /\
    Forall (fun w => Qabs (toFixed 3 w - w) <= 1 # 2000) normalised /\
    Forall (fun w => (2 # 100) <= w <= 1) emitted.
Proof.
  intros fa.
  assert (Hpos : 0 < totalAccuracyOf fa) by (vm_compute; reflexivity).
  split; [exact Hpos |].
  apply (proj2 (proposed_weights 10 skewedStore true 20 fa currentWeights
                  (optimizedWeights fa) skewed_run Hpos)).
Defined.

(** C1, as the claim words it, fails.  For eighteen wrong predictions stored
    without the player-advantage keys and two right ones with every key, the
    player-statistics factor has accuracy 100 and the six others 10: its
    weight is clamped to 0.30, the normalisation divides it by the sum 0.9025
    of the clamped weights, and the tuner emits 0.332, above 0.30; the seven
    emitted weights add up to 0.999. *)
Lemma renormalised_weight_exceeds_bound :
  let ow := proposedOf (fst (runWeightTuning 10 skewedStore)) in
  In (player_stats, Num (332 # 1000)) ow /\
  ~ (332 # 1000 <= 30 # 100) /\
  exists s, weightSumOf ow = Num s /\ s == 999 # 1000 /\ ~ s == 1.
Proof.
  intros ow. vm_compute in ow. subst ow.
  split; [right; left; reflexivity |].
  split; [vm_compute; intros H; apply H; reflexivity |].
  eexists. split; [vm_compute; reflexivity |].
  split; [vm_compute; reflexivity | vm_compute; discriminate].
Qed.

(** The degenerate input: twenty wrong predictions.  Every accuracy is
    zero, the accuracy share is [0 / 0], and every proposed weight is
    [NaN]. *)
Lemma all_wrong_gives_NaN :
  proposedOf (fst (runWeightTuning 10 allWrongStore))
  = map (fun k => (k, NaN)) allFactors.
Proof. vm_compute. reflexivity. Qed.

End TunerProps.

(* ===================================================================== *)
(** ** Properties of head-to-head, injuries and players                    *)
(* ===================================================================== *)

Module AdapterDataProps.
Import JS JSFacts Adapter AdapterData AdapterNotions.

(** *** Injuries *)

Lemma injury_sum_from l :
  forall a,
    fold_left (fun impact injury => impact + injuryWeight injury) l a
    = a + sumZ (map injuryWeight l).
Proof.
  induction l as [| x l IH]; intros a; cbn [fold_left map]; unfold sumZ in *;
    cbn [fold_right]; [lia |].
  rewrite IH. lia.
Qed.

Lemma injuryWeight_range i : 0 <= injuryWeight i <= 3.
Proof.
  unfold injuryWeight.
  repeat match goal with |- context [if ?b then _ else _] => destruct b end; lia.
Qed.

Lemma sumZ_injury_nonneg l : 0 <= sumZ (map injuryWeight l).
Proof.
  induction l as [| x l IH]; unfold sumZ in *; cbn [map fold_right]; [lia |].
  pose proof (injuryWeight_range x). lia.
Qed.

Lemma calculateInjuryImpact_sum l :
  calculateInjuryImpact l = Z.min 10 (sumZ (map injuryWeight l)).
Proof.
  destruct l as [| x l]; [reflexivity |].
  unfold calculateInjuryImpact. now rewrite injury_sum_from.
Qed.

Lemma getTeamInjuries_impact teamId table :
  impact_score (getTeamInjuries teamId table)
  = Z.min 10 (sumZ (map injuryWeight (filter (activeInjury teamId) table))).
Proof.
  unfold getTeamInjuries.
  destruct (filter (activeInjury teamId) table) as [| x l] eqn:E.
  - reflexivity.
  - cbn [List.length]. destruct (Z.ltb_spec 0 (Z.of_nat (S (List.length l)))); [| lia].
    cbn [impact_score]. apply calculateInjuryImpact_sum.
Qed.

Lemma getTeamInjuries_details teamId table :
  details (getTeamInjuries teamId table) = filter (activeInjury teamId) table.
Proof.
  unfold getTeamInjuries.
  destruct (filter (activeInjury teamId) table) as [| x l]; [reflexivity |].
  cbn [List.length]. destruct (Z.ltb_spec 0 (Z.of_nat (S (List.length l)))); [| lia].
  reflexivity.
Qed.

Lemma impact_score_range teamId table :
  0 <= impact_score (getTeamInjuries teamId table) <= 10.
Proof.
  rewrite getTeamInjuries_impact.
  pose proof (sumZ_injury_nonneg (filter (activeInjury teamId) table)). lia.
Qed.

(** X1.  The injury report of a team: the impact score is the sum of the
    severity weights (severe 3, moderate 2, minor 1, anything else 0) of the
    team's rows whose status is set and not "healthy", capped at 10; the rows
    reported are exactly those rows, and the key players out are among them. *)
Theorem injury_report_bounds teamId table :
  let r := getTeamInjuries teamId table in
  details r = filter (activeInjury teamId) table /\
  total_injuries r = Z.of_nat (List.length (details r)) /\
  0 <= key_players_out r <= total_injuries r /\
  impact_score r = Z.min 10 (sumZ (map injuryWeight (details r))) /\
  0 <= impact_score r <= 10.
Proof.
  intros r. subst r.
  pose proof (getTeamInjuries_impact teamId table) as Himp.
  pose proof (sumZ_injury_nonneg (filter (activeInjury teamId) table)) as Hnn.
  unfold getTeamInjuries in *.
  destruct (filter (activeInjury teamId) table) as [| x l] eqn:E.
  - cbn. repeat split; lia.
  - cbn [List.length] in *.
    destruct (Z.ltb_spec 0 (Z.of_nat (S (List.length l)))); [| lia].
    cbn [details total_injuries key_players_out impact_score] in *.
    split; [reflexivity |]. split; [reflexivity |].
    split.
    + split; [lia |].
      pose proof (filter_length_le (fun i => textIs (i_player_importance i) "key") (x :: l)).
      cbn [List.length] in *. lia.
    + split; [exact Himp | lia].
Qed.

(** X2.  Adding a row to the table never lowers a team's impact score, and a row
    of another team, a healthy row or a row without status changes nothing
    in the report. *)
Theorem injury_report_growth teamId table row :
  impact_score (getTeamInjuries teamId table)
  <= impact_score (getTeamInjuries teamId (table ++ [row])) /\
  (activeInjury teamId row = false ->
   getTeamInjuries teamId (table ++ [row]) = getTeamInjuries teamId table).
Proof.
  split.
  - rewrite !getTeamInjuries_impact, filter_app, map_app.
    assert (H : sumZ (map injuryWeight (filter (activeInjury teamId) table)
                      ++ map injuryWeight (filter (activeInjury teamId) [row]))
                = sumZ (map injuryWeight (filter (activeInjury teamId) table))
                  + sumZ (map injuryWeight (filter (activeInjury teamId) [row]))).
    { generalize (map injuryWeight (filter (activeInjury teamId) table)) as l1.
      generalize (map injuryWeight (filter (activeInjury teamId) [row])) as l2.
      intros l2 l1. induction l1 as [| a l1 IH]; unfold sumZ in *;
        cbn [app fold_right]; lia. }
    rewrite H.
    pose proof (sumZ_injury_nonneg (filter (activeInjury teamId) [row])). lia.
  - intros Hrow. unfold getTeamInjuries. rewrite filter_app. cbn [filter].
    rewrite Hrow. now rewrite app_nil_r.
Qed.

(** *** Head-to-head *)

Lemma h2h_counts team1Id games :
  forall c,
    let r := fold_left (h2hStep team1Id) games c in
    h_team1Wins r = h_team1Wins c + countZ (wonBy team1Id) games /\
    h_team1Home r = h_team1Home c + countZ (team1Home team1Id) games /\
    h_team1Away r = h_team1Away c + countZ (team1Away team1Id) games.
Proof.
  induction games as [| g games IH]; intros c.
  - cbn. unfold countZ. cbn. lia.
  - cbn [fold_left]. destruct (IH (h2hStep team1Id c g)) as (Hw & Hh & Ha).
    cbv zeta. rewrite Hw, Hh, Ha. clear IH Hw Hh Ha.
    rewrite !AdapterProps.countZ_cons.
    unfold h2hStep, team1Home, team1Away, wonBy, teamScoreOf, oppScoreOf.
    cbn [h_team1Wins h_team1Home h_team1Away].
    destruct (String.eqb (home_team g) team1Id);
      destruct (numZ (away_score g) <? numZ (home_score g));
      destruct (numZ (home_score g) <? numZ (away_score g));
      cbn [andb negb]; repeat split; lia.
Qed.

Lemma countZ_range {A} (f : A -> bool) l :
  0 <= countZ f l <= Z.of_nat (List.length l).
Proof.
  unfold countZ. pose proof (filter_length_le f l). lia.
Qed.

Lemma countZ_split {A} (f g h : A -> bool) l :
  (forall x, In x l -> (if f x then 1 else 0) = (if g x then 1 else 0) + (if h x then 1 else 0)) ->
  countZ f l = countZ g l + countZ h l.
Proof.
  induction l as [| x l IH]; intros H; [reflexivity |].
  rewrite !AdapterProps.countZ_cons, IH.
  - rewrite (H x); [lia | now left].
  - intros y Hy. apply H. now right.
Qed.

Lemma round1_range lo hi x :
  (inject_Z lo <= x * 10)%Q -> (x * 10 <= inject_Z hi)%Q ->
  (inject_Z lo / 10 <= round1 x <= inject_Z hi / 10)%Q.
Proof.
  intros Hlo Hhi. unfold round1.
  pose proof (Math_round_mono _ _ Hlo) as H1.
  pose proof (Math_round_mono _ _ Hhi) as H2.
  rewrite Math_round_Z in H1, H2. rewrite Zle_Qle in H1, H2.
  split.
  - apply Qle_shift_div_l; [reflexivity |].
    unfold Qdiv. rewrite <- Qmult_assoc, (Qmult_comm (/ 10)), Qmult_inv_r; [lra | discriminate].
  - apply Qle_shift_div_r; [reflexivity |].
    unfold Qdiv. rewrite <- Qmult_assoc, (Qmult_comm (/ 10)), Qmult_inv_r; [lra | discriminate].
Qed.

Lemma win_share_score_range w n :
  0 <= w <= n -> 0 < n ->
  (0 <= round1 (inject_Z w / inject_Z n * 10) <= 10)%Q.
Proof.
  intros Hw Hn.
  assert (Hfrac : (0 <= inject_Z w / inject_Z n <= 1)%Q).
  { assert (0 < inject_Z n)%Q by (change 0%Q with (inject_Z 0); now rewrite <- Zlt_Qlt).
    split.
    - apply Qle_shift_div_l; [assumption |]. rewrite Qmult_0_l.
      change 0%Q with (inject_Z 0). rewrite <- Zle_Qle. lia.
    - apply Qle_shift_div_r; [assumption |]. rewrite Qmult_1_l.
      rewrite <- Zle_Qle. lia. }
  pose proof (round1_range 0 100 (inject_Z w / inject_Z n * 10)%Q) as Hr.
  change (inject_Z 0) with 0%Q in Hr. change (inject_Z 100) with 100%Q in Hr.
  assert (Hr' := Hr ltac:(lra) ltac:(lra)).
  destruct Hr' as (Hlo & Hhi). split.
  - eapply Qle_trans; [| exact Hlo]. vm_compute. discriminate.
  - eapply Qle_trans; [exact Hhi |]. vm_compute. discriminate.
Qed.

Lemma h2h_score_range team1Id games :
  (0 <= h2h_score (getHeadToHeadHistory team1Id games) <= 10)%Q.
Proof.
  destruct games as [| g games]; [cbn; lra |].
  set (gs := g :: games).
  destruct (h2h_counts team1Id gs (mkH2HCounters 0 0 0 0)) as (Hw & _).
  cbv zeta in Hw. cbn [h_team1Wins] in Hw.
  pose proof (countZ_range (wonBy team1Id) gs) as Rw.
  unfold getHeadToHeadHistory. fold gs.
  change (match gs with [] => _ | _ :: _ => ?x end) with x.
  cbn [h2h_score]. rewrite Hw, Z.add_0_l.
  apply win_share_score_range; [lia |].
  subst gs. cbn [List.length]. lia.
Qed.

(** X3.  The head-to-head summary: the two win counts add up to the number of
    games (a game the first team did not win, a tie included, counts for the
    second team), the first team's wins split into home and away wins, the
    score is 10 x wins / games rounded to one decimal and lies within
    [0,10], and without games it is the neutral 5.0. *)
Theorem head_to_head_summary team1Id games :
  let r := getHeadToHeadHistory team1Id games in
  total_games r = Z.of_nat (List.length games) /\
  team1_wins r = countZ (wonBy team1Id) games /\
  team1_wins r + team2_wins r = total_games r /\
  0 <= team1_wins r <= total_games r /\
  (games = [] -> (h2h_score r == 5)%Q) /\
  (games <> [] ->
   (h2h_score r == round1 (inject_Z (team1_wins r) / inject_Z (total_games r) * 10))%Q /\
   exists hw hl aw al,
     team1_home_record r = Some (hw, hl) /\ team1_away_record r = Some (aw, al) /\
     hw + aw = team1_wins r /\ 0 <= hw /\ 0 <= hl /\ 0 <= aw) /\
  (0 <= h2h_score r <= 10)%Q.
Proof.
  intros r. subst r. destruct games as [| g games].
  - cbn. repeat split; try lia; try (intros; congruence); try reflexivity;
      try discriminate.
  - set (gs := g :: games).
    destruct (h2h_counts team1Id gs (mkH2HCounters 0 0 0 0)) as (Hw & Hh & Ha).
    cbv zeta in Hw, Hh, Ha. cbn [h_team1Wins h_team1Home h_team1Away] in Hw, Hh, Ha.
    pose proof (countZ_range (wonBy team1Id) gs) as Rw.
    unfold getHeadToHeadHistory. fold gs.
    change (match gs with [] => _ | _ :: _ => ?x end) with x.
    cbn [total_games team1_wins team2_wins h2h_score team1_home_record team1_away_record].
    rewrite Hw, Hh, Ha. rewrite !Z.add_0_l.
    assert (Hn : 0 < Z.of_nat (List.length gs)) by (subst gs; cbn [List.length]; lia).
    split; [reflexivity |]. split; [reflexivity |]. split; [lia |]. split; [lia |].
    split; [intros; discriminate |].
    split.
    + intros _. split; [reflexivity |].
      do 4 eexists. split; [reflexivity |]. split; [reflexivity |].
      assert (Hsplit : countZ (wonBy team1Id) gs
                       = countZ (team1Home team1Id) gs + countZ (team1Away team1Id) gs).
      { apply countZ_split. intros x _. unfold team1Home, team1Away.
        destruct (wonBy team1Id x), (String.eqb (home_team x) team1Id); reflexivity. }
      pose proof (countZ_range (team1Home team1Id) gs).
      pose proof (countZ_range (team1Away team1Id) gs).
      assert (Hhome : countZ (team1Home team1Id) gs
                      <= Z.of_nat (List.length
                                     (filter (fun g => String.eqb (home_team g) team1Id) gs))).
      { unfold countZ. apply inj_le.
        clear. induction gs as [| x l IH]; [cbn; lia |].
        cbn [filter]. unfold team1Home at 1.
        destruct (wonBy team1Id x), (String.eqb (home_team x) team1Id);
          cbn [andb List.length]; lia. }
      repeat split; lia.
    + apply win_share_score_range; lia.
Qed.


Lemma h2h_win_counts t games :
  team1_wins (getHeadToHeadHistory t games) = countZ (wonBy t) games /\
  team2_wins (getHeadToHeadHistory t games)
  = Z.of_nat (List.length games) - countZ (wonBy t) games.
Proof.
  destruct games as [| g games]; [split; reflexivity |].
  destruct (h2h_counts t (g :: games) (mkH2HCounters 0 0 0 0)) as (Hw & _).
  cbv zeta in Hw. cbn [h_team1Wins] in Hw.
  unfold getHeadToHeadHistory. cbv zeta. cbn [team1_wins team2_wins].
  rewrite Hw. split; lia.
Qed.

Lemma wonBy_other t1 t2 g :
  String.eqb t1 t2 = false -> between t1 t2 g = true -> decided g = true ->
  (if wonBy t1 g then 1 else 0) + (if wonBy t2 g then 1 else 0) = 1.
Proof.
  intros E12 Hteams Hscore. unfold wonBy, teamScoreOf, oppScoreOf.
  assert (E21 : String.eqb t2 t1 = false) by now rewrite String.eqb_sym.
  unfold decided in Hscore. apply negb_true_iff, Z.eqb_neq in Hscore.
  unfold between in Hteams. apply orb_true_iff in Hteams.
  destruct Hteams as [Hh | Hh]; apply andb_true_iff in Hh; destruct Hh as (Hh & _);
    apply String.eqb_eq in Hh; rewrite Hh, ?String.eqb_refl, ?E12, ?E21;
    destruct (Z.ltb_spec (numZ (away_score g)) (numZ (home_score g)));
    destruct (Z.ltb_spec (numZ (home_score g)) (numZ (away_score g))); lia.
Qed.

(** X4.  Seen from the other team the win counts swap, provided the games
    are games between the two (distinct) teams and none ended level. *)
Theorem head_to_head_swap t1 t2 games :
  String.eqb t1 t2 = false ->
  forallb (between t1 t2) games = true ->
  forallb decided games = true ->
  team1_wins (getHeadToHeadHistory t1 games) = team2_wins (getHeadToHeadHistory t2 games) /\
  team2_wins (getHeadToHeadHistory t1 games) = team1_wins (getHeadToHeadHistory t2 games).
Proof.
  intros Hne Hteams Hscores.
  destruct (h2h_win_counts t1 games) as (Hw1 & Hl1).
  destruct (h2h_win_counts t2 games) as (Hw2 & Hl2).
  rewrite forallb_forall in Hteams, Hscores.
  assert (Hall : countZ (fun _ : Game => true) games
                 = countZ (wonBy t1) games + countZ (wonBy t2) games).
  { apply countZ_split. intros g Hg.
    pose proof (wonBy_other t1 t2 g Hne (Hteams g Hg) (Hscores g Hg)). lia. }
  assert (Hlen : countZ (fun _ : Game => true) games = Z.of_nat (List.length games)).
  { unfold countZ. f_equal. f_equal. clear.
    induction games as [| g l IH]; [reflexivity | cbn [filter]; now rewrite IH]. }
  lia.
Qed.

Lemma head_to_head_swap_witness :
  team1_wins (getHeadToHeadHistory "nba-bos" rivalry)
  = team2_wins (getHeadToHeadHistory "nba-lal" rivalry) /\
  team2_wins (getHeadToHeadHistory "nba-bos" rivalry)
  = team1_wins (getHeadToHeadHistory "nba-lal" rivalry).
Proof.
  apply (head_to_head_swap "nba-bos" "nba-lal" rivalry); reflexivity.
Defined.

(** *** Players *)

Lemma stat_nonneg stats key :
  (forall k v, In (k, v) stats -> (0 <= v)%Q) -> (0 <= stat stats key)%Q.
Proof.
  intros H. unfold stat.
  assert (G : forall v, statLookup stats key = Some v -> (0 <= v)%Q).
  { induction stats as [| [k v] rest IH]; intros w Hw; [discriminate |].
    cbn [statLookup] in Hw. destruct (String.eqb k key).
    - injection Hw as <-. apply (H k). now left.
    - apply IH; [| exact Hw]. intros k' v' Hin. apply (H k'). now right. }
  unfold orElseQ. destruct (statLookup stats key) as [v |]; [| lra].
  destruct (Qeq_bool v 0); [lra | now apply G].
Qed.

(** X5.  A player's efficiency never exceeds 100; it is the default 50 for a
    player without statistics or of a sport other than NFL, NBA, MLB and NHL;
    and it is not negative when no statistic is. *)
Theorem player_efficiency_bounds stats sport :
  (calculatePlayerEfficiency stats sport <= 100)%Q /\
  (stats = [] -> calculatePlayerEfficiency stats sport = 50%Q) /\
  (sportIs sport "nfl" = false -> sportIs sport "nba" = false ->
   sportIs sport "mlb" = false -> sportIs sport "nhl" = false ->
   calculatePlayerEfficiency stats sport = 50%Q) /\
  ((forall k v, In (k, v) stats -> (0 <= v)%Q) ->
   (0 <= calculatePlayerEfficiency stats sport)%Q).
Proof.
  unfold calculatePlayerEfficiency.
  split; [| split; [| split]].
  - destruct stats; [lra |].
    repeat match goal with |- context [if ?b then _ else _] => destruct b end;
      try apply Qmin_le_l; lra.
  - intros ->. reflexivity.
  - intros -> -> -> ->. now destruct stats.
  - intros Hnn. destruct stats as [| e rest] eqn:E; [lra |]. rewrite <- E in *.
    pose proof (stat_nonneg stats "passing_yards" Hnn).
    pose proof (stat_nonneg stats "touchdowns" Hnn).
    pose proof (stat_nonneg stats "rushing_yards" Hnn).
    pose proof (stat_nonneg stats "points" Hnn).
    pose proof (stat_nonneg stats "assists" Hnn).
    pose proof (stat_nonneg stats "rebounds" Hnn).
    pose proof (stat_nonneg stats "batting_average" Hnn).
    pose proof (stat_nonneg stats "on_base_percentage" Hnn).
    pose proof (stat_nonneg stats "goals" Hnn).
    assert (Hdiv : forall x c, (0 <= x)%Q -> (0 < c)%Q -> (0 <= x / c)%Q).
    { intros x c Hx Hc. apply Qle_shift_div_l; [exact Hc | lra]. }
    pose proof (Hdiv _ 30%Q H ltac:(lra)).
    pose proof (Hdiv _ 10%Q H1 ltac:(lra)).
    pose proof (Hdiv _ 2%Q H2 ltac:(lra)).
    assert (0 <= (stat stats "batting_average" + stat stats "on_base_percentage") / 2)%Q
      by (apply Hdiv; lra).
    repeat match goal with |- context [if ?b then _ else _] => destruct b end;
      try lra; q_cases; lra.
Qed.


(** *** The queries over [games] *)

Lemma insertByDate_perm r l : Permutation (insertByDate r l) (r :: l).
Proof.
  induction l as [| x l IH]; cbn [insertByDate]; [reflexivity |].
  destruct (date (gr_game r) <? date (gr_game x)); [| reflexivity].
  rewrite IH. apply perm_swap.
Qed.

Lemma orderByDateDesc_perm l : Permutation (orderByDateDesc l) l.
Proof.
  induction l as [| r l IH]; [reflexivity |].
  unfold orderByDateDesc in *. cbn [fold_right].
  rewrite insertByDate_perm. now constructor.
Qed.

Lemma insertByDate_sorted r l :
  StronglySorted newerFirst l -> StronglySorted newerFirst (insertByDate r l).
Proof.
  induction 1 as [| x l Hs IH Hall]; cbn [insertByDate].
  - repeat constructor.
  - destruct (Z.ltb_spec (date (gr_game r)) (date (gr_game x))) as [Hlt | Hge].
    + constructor; [exact IH |].
      apply Forall_forall. intros y Hy.
      apply (Permutation_in _ (insertByDate_perm r l)) in Hy.
      destruct Hy as [<- | Hy]; [unfold newerFirst; lia |].
      rewrite Forall_forall in Hall. now apply Hall.
    + constructor; [now constructor |].
      constructor; [unfold newerFirst; lia |].
      apply Forall_forall. intros y Hy. rewrite Forall_forall in Hall.
      specialize (Hall y Hy). unfold newerFirst in *. lia.
Qed.

Lemma orderByDateDesc_sorted l : StronglySorted newerFirst (orderByDateDesc l).
Proof.
  induction l as [| r l IH]; [constructor |].
  unfold orderByDateDesc in *. cbn [fold_right]. now apply insertByDate_sorted.
Qed.

Lemma firstn_sorted {A} (R : A -> A -> Prop) n l :
  StronglySorted R l -> StronglySorted R (firstn n l).
Proof.
  intros Hs. revert n. induction Hs as [| x l Hs IH Hall]; intros [| n];
    cbn [firstn]; try constructor.
  - apply IH.
  - apply Forall_forall. intros y Hy. rewrite Forall_forall in Hall.
    apply Hall. rewrite <- (firstn_skipn n l). apply in_or_app. now left.
Qed.

Lemma recent_games_unfold t limit status table :
  getTeamRecentGames (Some t) limit status table
  = map gr_game (firstn limit (orderByDateDesc (filter (playsIn t status) table))).
Proof. reflexivity. Qed.

Lemma ordered_rows t status table r :
  In r (orderByDateDesc (filter (playsIn t status) table))
  <-> In r table /\ playsIn t status r = true.
Proof.
  rewrite <- filter_In. split; intros H.
  - apply (Permutation_in _ (orderByDateDesc_perm _)). exact H.
  - apply (Permutation_in _ (Permutation_sym (orderByDateDesc_perm _))). exact H.
Qed.

Lemma recent_games_from_table t limit status table g :
  In g (getTeamRecentGames (Some t) limit status table) ->
  exists r, In r table /\ gr_game r = g /\ playsIn t status r = true.
Proof.
  rewrite recent_games_unfold. intros Hg.
  apply in_map_iff in Hg. destruct Hg as (r & <- & Hr).
  exists r.
  assert (H : In r (orderByDateDesc (filter (playsIn t status) table))).
  { rewrite <- (firstn_skipn limit (orderByDateDesc _)). apply in_or_app. now left. }
  apply ordered_rows in H. tauto.
Qed.

Lemma recent_games_sorted t limit status table :
  StronglySorted (fun a b => date b <= date a)
                 (getTeamRecentGames (Some t) limit status table).
Proof.
  rewrite recent_games_unfold.
  pose proof (firstn_sorted newerFirst limit _
                (orderByDateDesc_sorted (filter (playsIn t status) table))) as Hf.
  induction Hf as [| x l Hl IH Hall]; cbn [map]; constructor; [exact IH |].
  apply Forall_forall. intros g Hg. apply in_map_iff in Hg.
  destruct Hg as (r & <- & Hr). rewrite Forall_forall in Hall. now apply Hall.
Qed.

Lemma recent_games_newest t limit status table r g :
  In r table -> playsIn t status r = true ->
  In g (getTeamRecentGames (Some t) limit status table) ->
  In (gr_game r) (getTeamRecentGames (Some t) limit status table)
  \/ date (gr_game r) <= date g.
Proof.
  rewrite recent_games_unfold. intros Hr Hp Hg.
  set (sorted := orderByDateDesc (filter (playsIn t status) table)) in *.
  assert (Hs : StronglySorted newerFirst sorted) by apply orderByDateDesc_sorted.
  assert (Hrs : In r sorted) by (apply ordered_rows; tauto).
  rewrite <- (firstn_skipn limit sorted) in Hrs, Hs.
  apply in_app_or in Hrs. destruct Hrs as [Hrs | Hrs].
  - left. now apply in_map.
  - right. apply in_map_iff in Hg. destruct Hg as (r' & <- & Hr').
    clear - Hs Hrs Hr'.
    induction (firstn limit sorted) as [| x l IH]; [contradiction |].
    cbn [app] in Hs. inversion Hs as [| ? ? Hs' Hall]; subst.
    destruct Hr' as [-> | Hr'].
    + rewrite Forall_forall in Hall. apply Hall. apply in_or_app. now right.
    + now apply IH.
Qed.

(** X6.  The recent games of a team: at most [limit] of them, each a game of
    the team with the status asked for, newest first, and no game left out is
    newer than one returned; a missing team id gives no games. *)
Theorem recent_games_query t limit status table :
  let games := getTeamRecentGames (Some t) limit status table in
  (List.length games <= limit)%nat /\
  (forall g, In g games ->
     exists r, In r table /\ gr_game r = g /\ playsIn t status r = true) /\
  StronglySorted (fun a b => date b <= date a) games /\
  (forall r g, In r table -> playsIn t status r = true -> In g games ->
     In (gr_game r) games \/ date (gr_game r) <= date g) /\
  getTeamRecentGames None limit status table = [].
Proof.
  intros games. subst games.
  split; [| split; [| split; [| split]]].
  - rewrite recent_games_unfold, length_map. apply firstn_le_length.
  - apply recent_games_from_table.
  - apply recent_games_sorted.
  - apply recent_games_newest.
  - reflexivity.
Qed.


(** *** Form and fatigue snapshots *)

Lemma countZ_firstn_le {A} (f : A -> bool) n l : countZ f (firstn n l) <= countZ f l.
Proof.
  revert n. induction l as [| x l IH]; intros [| n]; cbn [firstn];
    rewrite ?AdapterProps.countZ_cons, ?AdapterProps.countZ_nil.
  - lia.
  - lia.
  - pose proof (countZ_range f l). destruct (f x); lia.
  - specialize (IH n). lia.
Qed.

(** X7.  The form snapshot is consistent: wins and losses add up to the games
    played, the win percentage lies in [0,1], the form score in [0,10], and
    the wins among the five most recent games are at most 5 and at most the
    wins. *)
Theorem team_form_invariants teamId games :
  let r := calculateTeamForm teamId games in
  games_played r = Z.of_nat (List.length games) /\
  wins r + losses r = games_played r /\
  0 <= wins r <= games_played r /\
  (0 <= win_percentage r <= 1)%Q /\
  (0 <= form_score r <= 10)%Q /\
  (games <> [] -> exists k, last_5_wins r = Some k /\ 0 <= k <= 5 /\ k <= wins r).
Proof.
  intros r. subst r. destruct games as [| g games].
  - cbn. repeat split; try lia; try discriminate. intros H; congruence.
  - set (gs := g :: games).
    destruct (AdapterProps.formLoop_counts teamId gs 0 (mkCounters 0 0 0 0) ltac:(lia))
      as (Hw & _ & _ & Hr).
    cbn [c_wins c_recentWins] in Hw, Hr. change (Z.to_nat (5 - 0)) with 5%nat in Hr.
    rewrite Z.add_0_l in Hw, Hr.
    pose proof (countZ_range (wonBy teamId) gs) as Rw.
    pose proof (countZ_range (wonBy teamId) (firstn 5 gs)) as Rr.
    pose proof (countZ_firstn_le (wonBy teamId) 5 gs) as Rle.
    pose proof (firstn_le_length 5 gs) as R5.
    unfold calculateTeamForm. fold gs.
    change (match gs with [] => _ | _ :: _ => ?x end) with x.
    cbn [games_played wins losses win_percentage form_score last_5_wins].
    rewrite Hw, Hr.
    assert (Hn : 0 < Z.of_nat (List.length gs)) by (subst gs; cbn [List.length]; lia).
    split; [reflexivity |]. split; [lia |]. split; [lia |].
    split; [| split].
    + assert (Hfrac : (0 <= inject_Z (countZ (wonBy teamId) gs)
                            / inject_Z (Z.of_nat (List.length gs)) <= 1)%Q).
      { assert (0 < inject_Z (Z.of_nat (List.length gs)))%Q
          by (change 0%Q with (inject_Z 0); now rewrite <- Zlt_Qlt).
        split.
        - apply Qle_shift_div_l; [assumption |]. rewrite Qmult_0_l.
          change 0%Q with (inject_Z 0). rewrite <- Zle_Qle. lia.
        - apply Qle_shift_div_r; [assumption |]. rewrite Qmult_1_l.
          rewrite <- Zle_Qle. lia. }
      set (w := (inject_Z (countZ (wonBy teamId) gs)
                 / inject_Z (Z.of_nat (List.length gs)))%Q) in *.
      assert (H1 : Math_round (inject_Z 0) <= Math_round (w * 1000))
        by (apply Math_round_mono; change (inject_Z 0) with 0%Q; lra).
      assert (H2 : Math_round (w * 1000) <= Math_round (inject_Z 1000))
        by (apply Math_round_mono; change (inject_Z 1000) with 1000%Q; lra).
      rewrite Math_round_Z in H1, H2. rewrite Zle_Qle in H1, H2.
      change (inject_Z 0) with 0%Q in H1. change (inject_Z 1000) with 1000%Q in H2.
      split.
      * apply Qle_shift_div_l; [reflexivity | lra].
      * apply Qle_shift_div_r; [reflexivity | lra].
    + q_cases; lra.
    + intros _. eexists. split; [reflexivity |]. lia.
Qed.

Lemma fatigue_score_range games now :
  0 <= fatigue_score (calculateTravelFatigue games now) <= 10.
Proof.
  destruct games as [| g games]; [cbn; lia |].
  unfold calculateTravelFatigue. cbv beta zeta. cbn [fatigue_score].
  unfold fatigueScoreOf, clampZ. cbv zeta. lia.
Qed.

(** X8.  The fatigue snapshot: the score lies in [0,10]; the games counted in the
    trailing week are among the games given; a back-to-back has at most one
    day of rest; and a team whose games all lie a week or more back has a
    score of 0 and is not on a back-to-back. *)
Theorem travel_fatigue_bounds games now :
  let s := calculateTravelFatigue games now in
  0 <= fatigue_score s <= 10 /\
  0 <= games_in_last_week s <= Z.of_nat (List.length games) /\
  (back_to_back s = true -> days_rest s <= 1) /\
  ((forall g, In g games -> date g <= now - 7 * msPerDay) ->
   fatigue_score s = 0 /\ games_in_last_week s = 0 /\ back_to_back s = false).
Proof.
  intros s. subst s. destruct games as [| g games].
  - cbn. repeat split; try lia; try discriminate.
  - unfold calculateTravelFatigue. cbv beta zeta.
    cbn [fatigue_score games_in_last_week back_to_back days_rest].
    set (gs := g :: games).
    set (week := filter (fun g0 => now - 7 * 24 * 60 * 60 * 1000 <? date g0) gs).
    pose proof (filter_length_le (fun g0 => now - 7 * 24 * 60 * 60 * 1000 <? date g0) gs)
      as Hlen. fold week in Hlen.
    split; [| split; [| split]].
    + unfold fatigueScoreOf, clampZ. cbv zeta. lia.
    + lia.
    + intros H. now apply Z.leb_le in H.
    + intros Hold.
      assert (Hweek : week = []).
      { subst week. destruct (filter _ gs) as [| x l] eqn:E; [reflexivity |].
        assert (Hx : In x (x :: l)) by now left. rewrite <- E in Hx.
        apply filter_In in Hx. destruct Hx as (Hx & Hd).
        apply Z.ltb_lt in Hd. specialize (Hold x Hx). unfold msPerDay in Hold. lia. }
      rewrite Hweek. cbn [List.length].
      assert (Hd : 7 <= (now - date g) / msPerDay).
      { specialize (Hold g ltac:(now left)).
        apply Z.div_le_lower_bound; unfold msPerDay in *; lia. }
      split; [| split; [reflexivity |]].
      * unfold fatigueScoreOf, restTable, clampZ. cbv zeta.
        repeat match goal with
               | |- context [?a =? ?b] => destruct (Z.eqb_spec a b)
               end; lia.
      * apply Z.leb_gt. lia.
Qed.

(** X9.  Days of rest are counted from the team's latest final game, whatever the
    order of the table: no final game of the team lies fewer days back than
    [days_rest]; and a team without a final game gets 7 days of rest and a
    fatigue score of 0. *)
Theorem fatigue_from_latest_game t table now :
  let games := getTeamRecentGames (Some t) 5 "final" table in
  let s := calculateTravelFatigue games now in
  (games <> [] ->
   forall r, In r table -> playsIn t "final" r = true ->
     days_rest s <= (now - date (gr_game r)) / msPerDay) /\
  (games = [] -> days_rest s = 7 /\ fatigue_score s = 0) /\
  (games = [] <-> forall r, In r table -> playsIn t "final" r = false).
Proof.
  intros games s.
  pose proof (recent_games_from_table t 5 "final" table) as Hfrom.
  pose proof (recent_games_sorted t 5 "final" table) as Hsorted.
  pose proof (fun r g => recent_games_newest t 5 "final" table r g) as Hnewer.
  fold games in Hfrom, Hsorted, Hnewer.
  split; [| split].
  - intros Hne r Hr Hp. subst s.
    destruct games as [| g rest] eqn:E; [congruence |].
    cbn [calculateTravelFatigue days_rest].
    assert (Hle : date (gr_game r) <= date g).
    { destruct (Hnewer r g Hr Hp ltac:(now left)) as [Hin | Hle]; [| exact Hle].
      destruct Hin as [<- | Hin]; [lia |].
      inversion Hsorted as [| ? ? _ Hall]; subst.
      rewrite Forall_forall in Hall. now apply Hall. }
    apply Z.div_le_mono; unfold msPerDay; lia.
  - intros E. subst s. rewrite E. cbn. split; reflexivity.
  - split.
    + intros E r Hr. destruct (playsIn t "final" r) eqn:Hp; [| reflexivity].
      exfalso.
      assert (Hlen : (0 < List.length games)%nat).
      { subst games. unfold getTeamRecentGames. fold (playsIn t "final").
        rewrite length_map.
        assert (Hin : In r (orderByDateDesc (filter (playsIn t "final") table))).
        { apply (Permutation_in _ (Permutation_sym (orderByDateDesc_perm _))).
          apply filter_In. tauto. }
        destruct (orderByDateDesc (filter (playsIn t "final") table)); [contradiction |].
        cbn. lia. }
      rewrite E in Hlen. cbn in Hlen. lia.
    + intros Hnone. destruct games as [| g rest] eqn:E; [reflexivity |].
      destruct (Hfrom g ltac:(now left)) as (r & Hr & _ & Hp).
      rewrite (Hnone r Hr) in Hp. discriminate.
Qed.

End AdapterDataProps.

(* ===================================================================== *)
(** ** Properties of the engine's analysis                                 *)
(* ===================================================================== *)

Module EngineAnalysisProps.
Import JS JSFacts Engine EngineAnalysis EngineNotions.
Local Open Scope Q_scope.

(** *** The ensemble *)

Lemma homeAdvantageOf_range f : 0 <= homeAdvantageOf f <= 100.
Proof. unfold homeAdvantageOf. q_cases; lra. Qed.

Lemma homeWinProbOf_range f : 0 <= homeWinProbOf f <= 1.
Proof.
  unfold homeWinProbOf. pose proof (homeAdvantageOf_range f) as H. split.
  - apply Qle_shift_div_l; lra.
  - apply Qle_shift_div_r; lra.
Qed.

(** X10.  The home-win probability is monotone in every feature: it does not drop
    when, the market signal being the same, the home team's form, players
    and sentiment, the head-to-head, home-court, rest and weather signals and
    the away team's injuries and fatigue do not drop, and the away team's
    form, players and sentiment and the home team's injuries and fatigue do
    not rise. *)
Theorem home_win_probability_monotone f g :
  sharp_money_indicator f = sharp_money_indicator g ->
  home_team_form f <= home_team_form g ->
  away_team_form g <= away_team_form f ->
  home_player_advantage f <= home_player_advantage g ->
  away_player_advantage g <= away_player_advantage f ->
  home_injury_impact g <= home_injury_impact f ->
  away_injury_impact f <= away_injury_impact g ->
  home_fatigue g <= home_fatigue f ->
  away_fatigue f <= away_fatigue g ->
  h2h_advantage f <= h2h_advantage g ->
  home_court_advantage f <= home_court_advantage g ->
  rest_advantage f <= rest_advantage g ->
  weather_impact f <= weather_impact g ->
  home_sentiment f <= home_sentiment g ->
  away_sentiment g <= away_sentiment f ->
  homeWinProbOf f <= homeWinProbOf g /\
  (forall game game',
     winner (calculateWeightedPrediction f game) = home ->
     winner (calculateWeightedPrediction g game') = home).
Proof.
  intros Hs H1 H2 H3 H4 H5 H6 H7 H8 H9 H10 H11 H12 H13 H14.
  assert (Hraw : homeAdvantageRaw f <= homeAdvantageRaw g).
  { unfold homeAdvantageRaw. cbv zeta. rewrite Hs.
    destruct (String.eqb (sharp_money_indicator g) "home");
      [| destruct (String.eqb (sharp_money_indicator g) "away")]; lra. }
  assert (Hadv : homeAdvantageOf f <= homeAdvantageOf g).
  { unfold homeAdvantageOf. q_cases; lra. }
  assert (Hp : homeWinProbOf f <= homeWinProbOf g).
  { unfold homeWinProbOf, Qdiv. apply Qmult_le_compat_r; [exact Hadv | discriminate]. }
  split; [exact Hp |].
  intros game game' Hw.
  apply EngineProps.winner_is_home_iff in Hw.
  apply EngineProps.winner_is_home_iff. lra.
Qed.

Lemma home_win_probability_monotone_witness :
  homeWinProbOf Inputs.evenFeatures <= homeWinProbOf Inputs.neutralFeatures /\
  (forall game game',
     winner (calculateWeightedPrediction Inputs.evenFeatures game) = home ->
     winner (calculateWeightedPrediction Inputs.neutralFeatures game') = home).
Proof.
  apply (home_win_probability_monotone Inputs.evenFeatures Inputs.neutralFeatures);
    first [reflexivity | vm_compute; discriminate].
Defined.

Lemma predictScores_nonneg sport p f :
  0 <= fst (predictScores sport p f) /\ 0 <= snd (predictScores sport p f).
Proof.
  unfold predictScores. destruct (sportConstants sport) as [[bh ba] v].
  cbn [fst snd]. split; apply Qmax_le_l.
Qed.

Lemma Math_round_nonneg x : 0 <= x -> (0 <= Math_round x)%Z.
Proof.
  intros H. rewrite <- (Math_round_Z 0). apply Math_round_mono.
  change (inject_Z 0) with 0. exact H.
Qed.

Lemma win_probability_bounds f game :
  let p := calculateWeightedPrediction f game in
  (0 <= homeWinProbability p <= 100)%Z /\
  (0 <= awayWinProbability p <= 100)%Z /\
  (100 <= homeWinProbability p + awayWinProbability p <= 101)%Z.
Proof.
  intros p. subst p. unfold calculateWeightedPrediction.
  destruct (predictScores (sport game) (homeWinProbOf f) f) as [hs as_].
  cbn [homeWinProbability awayWinProbability].
  pose proof (homeWinProbOf_range f) as Hp.
  set (q := homeWinProbOf f) in *.
  destruct (Math_round_bounds (q * 100)) as (A1 & A2).
  destruct (Math_round_bounds ((1 - q) * 100)) as (B1 & B2).
  assert (L1 : (Math_round (inject_Z 0) <= Math_round (q * 100))%Z)
    by (apply Math_round_mono; change (inject_Z 0) with 0; lra).
  assert (L2 : (Math_round (q * 100) <= Math_round (inject_Z 100))%Z)
    by (apply Math_round_mono; change (inject_Z 100) with 100; lra).
  assert (L3 : (Math_round (inject_Z 0) <= Math_round ((1 - q) * 100))%Z)
    by (apply Math_round_mono; change (inject_Z 0) with 0; lra).
  assert (L4 : (Math_round ((1 - q) * 100) <= Math_round (inject_Z 100))%Z)
    by (apply Math_round_mono; change (inject_Z 100) with 100; lra).
  rewrite Math_round_Z in L1, L2, L3, L4.
  assert (S1 : inject_Z 99 < inject_Z (Math_round (q * 100) + Math_round ((1 - q) * 100))).
  { rewrite inject_Z_plus. change (inject_Z 99) with 99. lra. }
  assert (S2 : inject_Z (Math_round (q * 100) + Math_round ((1 - q) * 100)) <= inject_Z 101).
  { rewrite inject_Z_plus. change (inject_Z 101) with 101. lra. }
  rewrite <- Zlt_Qlt in S1. rewrite <- Zle_Qle in S2.
  repeat split; lia.
Qed.

(** X11.  The prediction's numbers: both win percentages lie in [0,100] and
    add up to 100 or 101 (each is rounded on its own), and the predicted
    scores and their total are not negative. *)
Theorem weighted_prediction_ranges f game :
  let p := calculateWeightedPrediction f game in
  (0 <= homeWinProbability p <= 100)%Z /\
  (0 <= awayWinProbability p <= 100)%Z /\
  (100 <= homeWinProbability p + awayWinProbability p <= 101)%Z /\
  (0 <= homeScore p)%Z /\ (0 <= awayScore p)%Z /\ (0 <= total p)%Z.
Proof.
  intros p. subst p.
  destruct (win_probability_bounds f game) as (Hh & Ha & Hsum). cbv zeta in Hh, Ha, Hsum.
  split; [exact Hh |]. split; [exact Ha |]. split; [exact Hsum |].
  unfold calculateWeightedPrediction.
  pose proof (predictScores_nonneg (sport game) (homeWinProbOf f) f) as (H1 & H2).
  destruct (predictScores (sport game) (homeWinProbOf f) f) as [hs as_].
  cbn [fst snd] in H1, H2. cbn [homeScore awayScore total].
  repeat split; apply Math_round_nonneg; lra.
Qed.

(** X12.  Every record [generatePrediction] returns has a confidence between 60
    and 89: the fallback draws 65 to 84, and the ensemble, whose data-quality
    share is always 48.75, cannot go beyond 89 although its clamp allows
    95. *)
Theorem confidence_range (collect : Game -> option Features) game r1 r2 :
  0 <= r1 -> r1 < 1 ->
  (60 <= confidence_score (generatePrediction collect game r1 r2) <= 89)%Z.
Proof.
  intros H0 H1. unfold generatePrediction.
  destruct (collect game) as [f |].
  - cbn [confidence_score]. unfold calculateConfidence. cbv zeta.
    pose proof (win_probability_bounds f game) as (Hh & _).
    cbv zeta in Hh.
    set (h := homeWinProbability (calculateWeightedPrediction f game)) in *.
    assert (Hs : 0 <= Qabs (inject_Z h - 50) / 50 <= 1).
    { assert (Hz : -(50) <= inject_Z h - 50 <= 50).
      { destruct Hh as (Hlo & Hhi). rewrite Zle_Qle in Hlo, Hhi.
        change (inject_Z 0) with 0 in Hlo. change (inject_Z 100) with 100 in Hhi. lra. }
      pose proof (Qabs_nonneg (inject_Z h - 50)).
      assert (Qabs (inject_Z h - 50) <= 50) by (apply Qabs_Qle_condition; lra).
      split; [apply Qle_shift_div_l; lra | apply Qle_shift_div_r; lra]. }
    set (s := Qabs (inject_Z h - 50) / 50) in *.
    assert (Hd : (85 + 90 + 80 + 85 + 75 + 70 + 85 + 80) / 8 == 8125 # 100)
      by reflexivity.
    assert (Hu : (Math_round ((85 + 90 + 80 + 85 + 75 + 70 + 85 + 80) / 8 * (6 # 10)
                              + s * 100 * (4 # 10))
                  <= Math_round (inject_Z 89 - (1 # 4)))%Z).
    { apply Math_round_mono. rewrite Hd. change (inject_Z 89) with 89. lra. }
    assert (E : Math_round (inject_Z 89 - (1 # 4)) = 89%Z) by (vm_compute; reflexivity).
    lia.
  - unfold generateFallbackPrediction. cbn [confidence_score].
    pose proof (EngineProps.fallback_confidence_range r1 H0 H1). lia.
Qed.


Lemma confidence_range_witness :
  (60 <= confidence_score
           (generatePrediction (fun _ => Some Inputs.neutralFeatures)
              Inputs.bostonAtHome (1 # 2) (3 # 4)) <= 89)%Z.
Proof.
  apply (confidence_range (fun _ => Some Inputs.neutralFeatures)
           Inputs.bostonAtHome (1 # 2) (3 # 4)); lra.
Defined.

(** *** Key factors *)

Lemma insertFactor_perm x l : Permutation (insertFactor x l) (x :: l).
Proof.
  induction l as [| y l IH]; cbn [insertFactor]; [reflexivity |].
  destruct (Qgt_bool (kf_impact y) (kf_impact x)); [| reflexivity].
  rewrite IH. apply perm_swap.
Qed.

Lemma sortFactors_perm l : Permutation (sortFactors l) l.
Proof.
  induction l as [| x l IH]; [reflexivity |].
  unfold sortFactors in *. cbn [fold_right]. rewrite insertFactor_perm. now constructor.
Qed.

Lemma insertFactor_sorted x l :
  StronglySorted aboveOrEqual l -> StronglySorted aboveOrEqual (insertFactor x l).
Proof.
  induction 1 as [| y l Hs IH Hall]; cbn [insertFactor].
  - repeat constructor.
  - unfold Qgt_bool. destruct (Qle_bool (kf_impact y) (kf_impact x)) eqn:E; cbn [negb].
    + apply Qle_bool_iff in E.
      constructor; [now constructor |].
      constructor; [exact E |].
      apply Forall_forall. intros z Hz. rewrite Forall_forall in Hall.
      specialize (Hall z Hz). unfold aboveOrEqual in *. lra.
    + apply Qle_bool_false in E.
      constructor; [exact IH |].
      apply Forall_forall. intros z Hz.
      apply (Permutation_in _ (insertFactor_perm x l)) in Hz.
      destruct Hz as [<- | Hz]; [unfold aboveOrEqual; lra |].
      rewrite Forall_forall in Hall. now apply Hall.
Qed.

Lemma sortFactors_sorted l : StronglySorted aboveOrEqual (sortFactors l).
Proof.
  induction l as [| x l IH]; [constructor |].
  unfold sortFactors in *. cbn [fold_right]. now apply insertFactor_sorted.
Qed.

(** X13.  The key factors are three of the eight factors, listed by falling
    impact, and no factor left out has a higher impact than one listed. *)
Theorem key_factors_are_top_three w f :
  let ks := identifyKeyFactors w f in
  List.length ks = 3%nat /\
  StronglySorted (fun a b => kf_impact b <= kf_impact a) ks /\
  (forall k, In k ks -> In k (factorsOf w f)) /\
  (forall x k, In x (factorsOf w f) -> In k ks -> In x ks \/ kf_impact x <= kf_impact k).
Proof.
  intros ks. subst ks. unfold identifyKeyFactors.
  set (sorted := sortFactors (factorsOf w f)).
  pose proof (sortFactors_perm (factorsOf w f)) as Hperm. fold sorted in Hperm.
  pose proof (sortFactors_sorted (factorsOf w f)) as Hs. fold sorted in Hs.
  assert (Hlen : List.length sorted = 8%nat).
  { rewrite (Permutation_length Hperm). reflexivity. }
  split; [| split; [| split]].
  - apply firstn_length_le. lia.
  - apply (AdapterDataProps.firstn_sorted aboveOrEqual 3 sorted Hs).
  - intros k Hk. apply (Permutation_in _ Hperm).
    rewrite <- (firstn_skipn 3 sorted). apply in_or_app. now left.
  - intros x k Hx Hk.
    apply (Permutation_in _ (Permutation_sym Hperm)) in Hx.
    rewrite <- (firstn_skipn 3 sorted) in Hx, Hs.
    apply in_app_or in Hx. destruct Hx as [Hx | Hx]; [now left | right].
    clear - Hs Hx Hk.
    induction (firstn 3 sorted) as [| y l IH]; [contradiction |].
    cbn [app] in Hs. inversion Hs as [| ? ? Hs' Hall]; subst.
    destruct Hk as [-> | Hk].
    + rewrite Forall_forall in Hall. apply Hall. apply in_or_app. now right.
    + now apply IH.
Qed.

(** *** Risk *)

(** X14.  For a prediction of the ensemble the upset probability lies between 0
    and 45, and the variance is not negative. *)
Theorem upset_probability_range f game :
  let r := assessRisk f (calculateWeightedPrediction f game) in
  (0 <= upsetProbability r <= 45)%Z /\ 0 <= variance r.
Proof.
  intros r. subst r. unfold assessRisk. cbv zeta.
  cbn [upsetProbability variance List.length fold_left].
  pose proof (win_probability_bounds f game) as (Hh & Ha & Hsum).
  cbv zeta in Hh, Ha, Hsum.
  set (p := calculateWeightedPrediction f game) in *.
  set (avg := (0 + Qabs (home_team_form f - away_team_form f)
               + Qabs (home_player_advantage f - away_player_advantage f)
               + Qabs (home_injury_impact f - away_injury_impact f)
               + Qabs (home_fatigue f - away_fatigue f)) / inject_Z (Z.of_nat 4)).
  assert (Havg : 0 <= avg).
  { subst avg. apply Qle_shift_div_l; [reflexivity |].
    pose proof (Qabs_nonneg (home_team_form f - away_team_form f)).
    pose proof (Qabs_nonneg (home_player_advantage f - away_player_advantage f)).
    pose proof (Qabs_nonneg (home_injury_impact f - away_injury_impact f)).
    pose proof (Qabs_nonneg (home_fatigue f - away_fatigue f)). lra. }
  assert (Hvar : 0 <= round1 avg).
  { unfold round1. apply Qle_shift_div_l; [reflexivity |]. rewrite Qmult_0_l.
    change 0 with (inject_Z 0). rewrite <- Zle_Qle. apply Math_round_nonneg. lra. }
  split; [| exact Hvar].
  set (u := (100 - Z.max (homeWinProbability p) (awayWinProbability p))%Z).
  assert (Hu : (0 <= u)%Z) by (subst u; lia).
  rewrite Zle_Qle in Hu. change (inject_Z 0) with 0 in Hu.
  split.
  - apply Math_round_nonneg. q_cases; lra.
  - rewrite <- (Math_round_Z 45). apply Math_round_mono.
    change (inject_Z 45) with 45. apply Qmin_le_l.
Qed.

(** *** Rest *)

(** X15.  The rest advantage lies in [-5,5] and changes sign when the two teams
    swap; a team that played earlier the same day (0 days of rest) enters
    with 7 days of rest. *)
Theorem rest_advantage_props (h a : Adapter.FatigueSnapshot) :
  let sides := analyzeTravelFatigue (Some (h, a)) in
  let r := calculateRestAdvantage (Some (fst sides)) (Some (snd sides)) in
  (-5 <= r <= 5)%Z /\
  calculateRestAdvantage (Some (snd sides)) (Some (fst sides)) = (- r)%Z /\
  (Adapter.days_rest h = 0%Z -> Adapter.days_rest a <> 0%Z ->
   r = Z.max (-5) (Z.min 5 (7 - Adapter.days_rest a))).
Proof.
  cbv zeta. unfold analyzeTravelFatigue, calculateRestAdvantage, travelSideOf.
  cbn [fst snd days_since_last_game].
  destruct (Z.eqb_spec (Adapter.days_rest h) 0), (Z.eqb_spec (Adapter.days_rest a) 0);
    repeat split; intros; lia.
Qed.


(** *** The feature vector *)

(** The form feature of a team is never below 0.1: the adapter's score is
    a multiple of 0.1 within [0,10], and a score of exactly 0, being falsy,
    is replaced by the neutral 5.0. *)
Lemma normalized_form_range teamId games :
  (1 # 10) <= normalizeTeamForm (Some (Adapter.calculateTeamForm teamId games)) <= 10.
Proof.
  unfold normalizeTeamForm.
  destruct (Qeq_bool (Adapter.form_score (Adapter.calculateTeamForm teamId games)) 0)
    eqn:E; [lra |].
  assert (Hnz : ~ Adapter.form_score (Adapter.calculateTeamForm teamId games) == 0).
  { intros H. apply Qeq_bool_iff in H. congruence. }
  clear E. destruct games as [| g games].
  - cbn in *. lra.
  - unfold Adapter.calculateTeamForm in *. cbn [Adapter.form_score] in *.
    match goal with
    | |- context [round1 ?x] => set (score := x) in *
    end.
    unfold round1 in *. set (z := Math_round (score * 10)) in *.
    destruct (Z_lt_le_dec z 1) as [Hlt | Hge].
    + exfalso. apply Hnz.
      assert (Hz : inject_Z z / 10 <= 0).
      { apply Qle_shift_div_r; [reflexivity |]. rewrite Qmult_0_l.
        change 0 with (inject_Z 0). rewrite <- Zle_Qle. lia. }
      q_cases; lra.
    + assert (Hz : (1 # 10) <= inject_Z z / 10).
      { apply Qle_shift_div_l; [reflexivity |].
        rewrite Zle_Qle in Hge. change (inject_Z 1) with 1 in Hge. lra. }
      q_cases; lra.
Qed.

Lemma avg_efficiency_positive players :
  (forall e, In e players -> 0 <= e <= 100) ->
  0 < calculateAvgEfficiency players <= 100.
Proof.
  intros Hr. unfold calculateAvgEfficiency.
  destruct players as [| e0 rest] eqn:E; [lra |]. rewrite <- E in *.
  assert (Hn : 0 < inject_Z (Z.of_nat (List.length players))).
  { change 0 with (inject_Z 0). rewrite <- Zlt_Qlt. subst players. cbn [List.length]. lia. }
  assert (G : forall l a,
             (forall e, In e l -> 0 <= e <= 100) ->
             a + 0 * inject_Z (Z.of_nat (List.length l))
             <= fold_left (fun sum efficiency => sum + orElseQ (Some efficiency) 50) l a
             <= a + 100 * inject_Z (Z.of_nat (List.length l)) /\
             (l <> [] ->
              a < fold_left (fun sum efficiency => sum + orElseQ (Some efficiency) 50) l a)).
  { clear. induction l as [| x l IH]; intros a Hl.
    - cbn [fold_left List.length]. change (inject_Z (Z.of_nat 0)) with 0.
      split; [lra | congruence].
    - cbn [fold_left List.length]. rewrite Nat2Z.inj_succ. unfold Z.succ.
      rewrite inject_Z_plus. change (inject_Z 1) with 1.
      assert (Hx : 0 < orElseQ (Some x) 50 <= 100).
      { unfold orElseQ. destruct (Qeq_bool x 0) eqn:E; [lra |].
        assert (~ x == 0) by (intros H; apply Qeq_bool_iff in H; congruence).
        specialize (Hl x ltac:(now left)). lra. }
      destruct (IH (a + orElseQ (Some x) 50) ltac:(intros; apply Hl; now right))
        as ((I1 & I2) & I3).
      split; [split; lra |]. intros _.
      destruct l as [| y l']; [cbn [fold_left]; lra |].
      specialize (I3 ltac:(discriminate)). lra. }
  destruct (G players 0 Hr) as ((G1 & G2) & G3).
  specialize (G3 ltac:(subst players; discriminate)).
  split.
  - apply Qlt_shift_div_l; [exact Hn | lra].
  - apply Qle_shift_div_r; [exact Hn | lra].
Qed.

Lemma analyzePlayerMatchups_range (r : option (list Q * list Q)) :
  0 <= fst (analyzePlayerMatchups r) <= 10 /\
  0 <= snd (analyzePlayerMatchups r) <= 10.
Proof.
  split.
  - destruct r as [[hp ap] |]; cbn [analyzePlayerMatchups fst]; [q_cases; lra | lra].
  - destruct r as [[hp ap] |]; cbn [analyzePlayerMatchups snd]; [q_cases; lra | lra].
Qed.

(** X16.  The average efficiency of a team's players lies in (0,100] when every
    efficiency lies in [0,100] (an efficiency of 0 counts as 50, and a team
    without players gets 50), and the player advantages are within [0,10],
    5.0 for both teams when the lookup fails. *)
Theorem player_matchups_range (r : option (list Q * list Q)) :
  0 <= fst (analyzePlayerMatchups r) <= 10 /\
  0 <= snd (analyzePlayerMatchups r) <= 10 /\
  (r = None -> analyzePlayerMatchups r = (5, 5)) /\
  (forall players,
     (forall e, In e players -> 0 <= e <= 100) ->
     0 < calculateAvgEfficiency players <= 100) /\
  calculateAvgEfficiency [] = 50.
Proof.
  split; [| split; [| split; [| split]]].
  - apply analyzePlayerMatchups_range.
  - apply analyzePlayerMatchups_range.
  - intros ->. reflexivity.
  - apply avg_efficiency_positive.
  - reflexivity.
Qed.

(** The home-court feature lies within [3,8], and is the base 5.5 when
    neither a home record nor a venue score is given. *)
Lemma home_court_range venueScore home_record :
  3 <= calculateHomeAdvantage venueScore home_record <= 8 /\
  calculateHomeAdvantage None None == 55 # 10.
Proof.
  split; [| reflexivity].
  unfold calculateHomeAdvantage. cbv zeta.
  match goal with |- context [Qmax 3 (Qmin 8 ?x)] => set (adv := x) end.
  assert (Hc : 3 <= Qmax 3 (Qmin 8 adv) <= 8) by (q_cases; lra).
  pose proof (AdapterDataProps.round1_range 30 80 (Qmax 3 (Qmin 8 adv))) as Hr.
  change (inject_Z 30) with 30 in Hr. change (inject_Z 80) with 80 in Hr.
  destruct (Hr ltac:(lra) ltac:(lra)) as (Hlo & Hhi).
  split.
  - eapply Qle_trans; [| exact Hlo]. vm_compute. discriminate.
  - eapply Qle_trans; [exact Hhi |]. vm_compute. discriminate.
Qed.

Lemma inject_Z_range lo hi z :
  (lo <= z <= hi)%Z -> inject_Z lo <= inject_Z z <= inject_Z hi.
Proof. intros (H1 & H2). split; now rewrite <- Zle_Qle. Qed.

(** X17.  Every feature the engine derives from the tables lies in its range:
    form in [0.1,10], player advantage, injuries, fatigue and head-to-head in
    [0,10], home court in [3,8], rest in [-5,5]; weather is 0, both
    sentiments are 5 and the market signal is neutral. *)
Theorem collected_features_ranges tables now venueScore game :
  let f := collectFeatures tables now venueScore game in
  ((1 # 10) <= home_team_form f <= 10 /\ (1 # 10) <= away_team_form f <= 10) /\
  (0 <= home_player_advantage f <= 10 /\ 0 <= away_player_advantage f <= 10) /\
  (0 <= home_injury_impact f <= 10 /\ 0 <= away_injury_impact f <= 10) /\
  (0 <= home_fatigue f <= 10 /\ 0 <= away_fatigue f <= 10) /\
  0 <= h2h_advantage f <= 10 /\
  3 <= home_court_advantage f <= 8 /\
  -(5) <= rest_advantage f <= 5 /\
  weather_impact f == 0 /\ home_sentiment f == 5 /\ away_sentiment f == 5 /\
  sharp_money_indicator f = "neutral"%string.
Proof.
  intros f. subst f. unfold collectFeatures. cbv zeta.
  cbn [home_team_form away_team_form home_player_advantage away_player_advantage
       home_injury_impact away_injury_impact home_fatigue away_fatigue h2h_advantage
       home_court_advantage rest_advantage weather_impact home_sentiment away_sentiment
       sharp_money_indicator getTeamForm analyzeInjuries home_impact away_impact
       analyzeTravelFatigue fst snd h2hAdvantage].
  split; [split; apply normalized_form_range |].
  split.
  { match goal with
    | |- context [analyzePlayerMatchups ?r] =>
        destruct (analyzePlayerMatchups_range r) as (H1 & H2)
    end. tauto. }
  split.
  { split.
    - apply (inject_Z_range 0 10). apply AdapterDataProps.impact_score_range.
    - apply (inject_Z_range 0 10). apply AdapterDataProps.impact_score_range. }
  split.
  { unfold travelSideOf. cbn [overall_fatigue_score]. split.
    - apply (inject_Z_range 0 10). apply AdapterDataProps.fatigue_score_range.
    - apply (inject_Z_range 0 10). apply AdapterDataProps.fatigue_score_range. }
  split.
  { match goal with
    | |- context [AdapterData.getHeadToHeadHistory ?t ?l] =>
        exact (AdapterDataProps.h2h_score_range t l)
    end. }
  split; [apply home_court_range |].
  split.
  { match goal with
    | |- context [calculateRestAdvantage (Some ?h) (Some ?a)] =>
        assert (H : (-5 <= calculateRestAdvantage (Some h) (Some a) <= 5)%Z)
          by (unfold calculateRestAdvantage; lia)
    end.
    apply (inject_Z_range (-5) 5) in H. exact H. }
  repeat split; reflexivity.
Qed.


(** *** A game without data *)

Lemma no_injuries_no_impact teamId table :
  AdapterData.details (AdapterData.getTeamInjuries teamId table) = [] ->
  AdapterData.impact_score (AdapterData.getTeamInjuries teamId table) = 0%Z.
Proof.
  intros H.
  rewrite AdapterDataProps.getTeamInjuries_impact.
  rewrite <- (AdapterDataProps.getTeamInjuries_details teamId table), H. reflexivity.
Qed.

Lemma no_data_features tables now game :
  noData tables game -> collectFeatures tables now None game = noDataFeatures.
Proof.
  intros (F1 & F2 & T1 & T2 & Hh & I1 & I2 & P1 & P2).
  unfold collectFeatures. cbv zeta.
  rewrite F1, F2, T1, T2, Hh, P1, P2.
  cbn [analyzeInjuries home_impact away_impact].
  rewrite (no_injuries_no_impact _ _ I1), (no_injuries_no_impact _ _ I2).
  reflexivity.
Qed.

(** A team id that is missing has no data in any table. *)
Lemma unknown_teams_have_no_data tables game :
  homeTeamId game = None -> awayTeamId game = None -> noData tables game.
Proof.
  intros Hh Ha. unfold noData. rewrite Hh, Ha. repeat split; reflexivity.
Qed.

(** X18.  For a game without any data on either team (no final games, no meetings,
    no active injuries, no players, no venue score) the ensemble sees the
    neutral features, a differential of 68.8, and predicts the home team
    with a confidence of 64, whatever the sport. *)
Theorem no_data_prediction tables now game r1 r2 :
  noData tables game ->
  let p := generatePrediction (fun g => Some (collectFeatures tables now None g))
             game r1 r2 in
  features p = Some noDataFeatures /\
  homeAdvantageOf noDataFeatures == 688 # 10 /\
  predicted_winner_team_id p = homeTeamId game /\
  predicted_winner_name p = homeTeam game /\
  confidence_score p = 64%Z /\
  model_version p = "2.0.0"%string.
Proof.
  intros Hno p. subst p. unfold generatePrediction.
  rewrite (no_data_features tables now game Hno).
  assert (Hw : winner (calculateWeightedPrediction noDataFeatures game) = home).
  { apply EngineProps.winner_is_home_iff. vm_compute. reflexivity. }
  assert (Hp : homeWinProbability (calculateWeightedPrediction noDataFeatures game) = 69%Z).
  { unfold calculateWeightedPrediction.
    destruct (predictScores (sport game) (homeWinProbOf noDataFeatures) noDataFeatures).
    cbn [homeWinProbability]. vm_compute. reflexivity. }
  cbn [features predicted_winner_team_id predicted_winner_name confidence_score
       model_version].
  rewrite Hw. unfold calculateConfidence. rewrite Hp.
  split; [reflexivity |]. split; [vm_compute; reflexivity |].
  split; [reflexivity |]. split; [reflexivity |]. split; [| reflexivity].
  vm_compute. reflexivity.
Qed.

Lemma no_data_prediction_witness :
  let p := generatePrediction (fun g => Some (collectFeatures otherTeamsTables 0 None g))
             Inputs.bostonAtHome (1 # 2) (3 # 4) in
  features p = Some noDataFeatures /\
  homeAdvantageOf noDataFeatures == 688 # 10 /\
  predicted_winner_team_id p = homeTeamId Inputs.bostonAtHome /\
  predicted_winner_name p = homeTeam Inputs.bostonAtHome /\
  confidence_score p = 64%Z /\
  model_version p = "2.0.0"%string.
Proof.
  apply (no_data_prediction otherTeamsTables 0 Inputs.bostonAtHome (1 # 2) (3 # 4)).
  vm_compute. repeat split; reflexivity.
Defined.

End EngineAnalysisProps.

(* ===================================================================== *)
(** ** Invariants of a validation pass                                     *)
(* ===================================================================== *)

Module ValidatorInvariants.
Import JS JSFacts Store Validator LoopNotions.

Lemma countersAfter_counts js :
  forall c,
    validated (countersAfter js c) = validated c + Z.of_nat (List.length js) /\
    correct (countersAfter js c)
    = correct c + Z.of_nat (List.length (filter wasCorrectOf js)) /\
    incorrect (countersAfter js c)
    = incorrect c + Z.of_nat (List.length (filter (fun j => negb (wasCorrectOf j)) js)).
Proof.
  induction js as [| j js IH]; intros c.
  - cbn. lia.
  - unfold countersAfter in *. cbn [fold_left].
    destruct (IH (mkCounters (validated c + 1)
                    (if wasCorrectOf j then correct c + 1 else correct c)
                    (if wasCorrectOf j then incorrect c else incorrect c + 1)))
      as (H1 & H2 & H3).
    rewrite H1, H2, H3. cbn [validated correct incorrect filter List.length].
    destruct (wasCorrectOf j); cbn [negb List.length]; lia.
Qed.

Lemma filter_split_length {A} (f : A -> bool) l :
  (List.length (filter f l) + List.length (filter (fun x => negb (f x)) l)
   = List.length l)%nat.
Proof.
  induction l as [| x l IH]; [reflexivity |].
  cbn [filter]. destruct (f x); cbn [negb List.length]; lia.
Qed.

(** X19.  The bookkeeping of a pass: it validates no more predictions than
    it selected, at most 100 (a record whose statements throw is logged and
    not counted); every validated one is counted as correct or as incorrect;
    [prediction_accuracy] grows by one row per validated prediction, the
    log by one row; the games and the number of predictions stay as they
    were. *)
Theorem validation_bookkeeping now db :
  let r := fst (runPredictionValidation now db) in
  let db' := snd (runPredictionValidation now db) in
  r_validated r <= Z.of_nat (List.length (selectPredictions now db)) /\
  0 <= r_validated r <= 100 /\
  r_correct r + r_incorrect r = r_validated r /\
  0 <= r_correct r /\ 0 <= r_incorrect r /\
  Z.of_nat (List.length (prediction_accuracy db'))
  = Z.of_nat (List.length (prediction_accuracy db)) + r_validated r /\
  List.length (system_logs db') = S (List.length (system_logs db)) /\
  games db' = games db /\
  List.length (ai_predictions_enhanced db') = List.length (ai_predictions_enhanced db) /\
  success r = true.
Proof.
  intros r db'. subst r db'. rewrite ValidatorProps.run_unfold. cbv zeta.
  cbn [fst snd r_validated r_correct r_incorrect prediction_accuracy system_logs games
       ai_predictions_enhanced success].
  destruct (countersAfter_counts (selectPredictions now db) (mkCounters 0 0 0))
    as (H1 & H2 & H3).
  cbn [validated correct incorrect] in H1, H2, H3.
  pose proof (filter_split_length wasCorrectOf (selectPredictions now db)) as Hsplit.
  assert (Hlim : (List.length (selectPredictions now db) <= 100)%nat).
  { unfold selectPredictions. apply firstn_le_length. }
  rewrite H1, H2, H3, !length_app, !length_map. cbn [List.length].
  repeat split; lia.
Qed.

Lemma annotate_sameCore now j p : sameCore p (annotate now j p).
Proof. unfold sameCore, annotate. cbn. repeat split; reflexivity. Qed.

Lemma sameCore_refl p : sameCore p p.
Proof. unfold sameCore. repeat split; reflexivity. Qed.

Lemma sameCore_trans p q r : sameCore p q -> sameCore q r -> sameCore p r.
Proof.
  unfold sameCore. intros H1 H2.
  repeat match goal with H : _ /\ _ |- _ => destruct H end.
  repeat split; congruence.
Qed.

Lemma annotateAll_sameCore now js : forall p, sameCore p (annotateAll now js p).
Proof.
  induction js as [| j js IH]; intros p; [apply sameCore_refl |].
  rewrite ValidatorProps.annotateAll_cons.
  eapply sameCore_trans; [| apply IH].
  destruct (p_id p =? p_id (pred j)); [apply annotate_sameCore | apply sameCore_refl].
Qed.

(** X20.  A pass only annotates: row by row, the identity of a prediction, its
    teams, predicted winner, confidence, spread, features and creation time
    are what they were; and a row whose id is not the id of a selected
    prediction is left exactly as it was. *)
Theorem validation_only_annotates now db :
  let db' := snd (runPredictionValidation now db) in
  Forall2 sameCore (ai_predictions_enhanced db) (ai_predictions_enhanced db') /\
  (forall p,
     In p (ai_predictions_enhanced db) ->
     ~ In (p_id p) (map (fun j => p_id (pred j)) (selectPredictions now db)) ->
     In p (ai_predictions_enhanced db')).
Proof.
  intros db'. subst db'. rewrite ValidatorProps.run_unfold. cbv zeta.
  cbn [snd ai_predictions_enhanced]. split.
  - induction (ai_predictions_enhanced db) as [| p l IH]; cbn [map]; constructor;
      [apply annotateAll_sameCore | exact IH].
  - intros p Hp Hnot. apply in_map_iff. exists p. split; [| exact Hp].
    now apply ValidatorProps.annotateAll_untouched.
Qed.

Lemma toFixed2_percent c n :
  0 <= c <= n -> 0 < n ->
  (0 <= toFixed 2 (inject_Z c / inject_Z n * 100) <= 100)%Q.
Proof.
  intros Hc Hn.
  assert (Hn' : (0 < inject_Z n)%Q) by (change 0%Q with (inject_Z 0); now rewrite <- Zlt_Qlt).
  assert (Hfrac : (0 <= inject_Z c / inject_Z n <= 1)%Q).
  { split.
    - apply Qle_shift_div_l; [assumption |]. rewrite Qmult_0_l.
      change 0%Q with (inject_Z 0). rewrite <- Zle_Qle. lia.
    - apply Qle_shift_div_r; [assumption |]. rewrite Qmult_1_l.
      rewrite <- Zle_Qle. lia. }
  split.
  - apply toFixed_nonneg. lra.
  - apply Qle_trans with (toFixed 2 100); [apply toFixed_mono; lra |].
    vm_compute. discriminate.
Qed.

(** X21.  The statistics a pass reports: the accuracy percentage lies in [0,100],
    the correct rows are at most the rows counted, and the rows counted
    include the predictions just validated. *)
Theorem reported_accuracy_range now db :
  let r := fst (runPredictionValidation now db) in
  (0 <= accuracy_pct r <= 100)%Q /\
  r_validated r <= stat_total (seven_day_stats r) /\
  0 <= numZ (stat_correct (seven_day_stats r)) <= stat_total (seven_day_stats r).
Proof.
  intros r. subst r. rewrite ValidatorProps.run_unfold. cbv zeta.
  cbn [fst accuracy_pct seven_day_stats r_validated].
  destruct (countersAfter_counts (selectPredictions now db) (mkCounters 0 0 0))
    as (H1 & _ & _). cbn [validated] in H1. rewrite H1. clear H1.
  unfold sevenDayStats, accuracyPct. cbn [prediction_accuracy].
  remember (selectPredictions now db) as js eqn:Ejs. clear Ejs.
  remember (filter (fun a => now - 7 * secondsPerDay <=? a_created_at a)
                   (prediction_accuracy db ++ map (accuracyRowOf now) js)) as rows eqn:Erows.
  assert (Hjs : (List.length js <= List.length rows)%nat).
  { subst rows. rewrite filter_app, length_app.
    assert (E : filter (fun a => now - 7 * secondsPerDay <=? a_created_at a)
                       (map (accuracyRowOf now) js) = map (accuracyRowOf now) js).
    { clear. induction js as [| j js IH]; [reflexivity |].
      cbn [map filter]. unfold accuracyRowOf at 1. cbn [a_created_at].
      destruct (Z.leb_spec (now - 7 * secondsPerDay) now) as [_ | H];
        [now rewrite IH | unfold secondsPerDay in H; lia]. }
    rewrite E, length_map. lia. }
  clear Erows.
  pose proof (filter_length_le a_prediction_correct rows) as Hc.
  destruct rows as [| a rows'] eqn:E.
  - cbn [stat_total stat_correct numZ List.length] in *.
    change (0 <? 0) with false. cbv iota.
    repeat split; try lia; try lra.
  - rewrite <- E in *.
    assert (Hpos : 0 < Z.of_nat (List.length rows)) by (rewrite E; cbn [List.length]; lia).
    cbn [stat_total stat_correct numZ].
    destruct (Z.ltb_spec 0 (Z.of_nat (List.length rows))); [| lia].
    split; [apply toFixed2_percent; lia |]. lia.
Qed.

End ValidatorInvariants.

(* ===================================================================== *)
(** ** Invariants of a tuning run                                          *)
(* ===================================================================== *)

Module TunerInvariants.
Import JS JSFacts Store Tuner Recommendations LoopNotions.
Local Open Scope Q_scope.

(** X22.  A tuning run proposes weights only as a return value: predictions,
    games and accuracy rows stay as they were, the current weights it reports
    are the fixed ones, and the log grows by one row exactly when the run had
    at least 20 predictions to analyse. *)
Theorem tuning_never_applies now db :
  let r := fst (runWeightTuning now db) in
  let db' := snd (runWeightTuning now db) in
  let n := Z.of_nat (List.length (selectAnalysed now db)) in
  ai_predictions_enhanced db' = ai_predictions_enhanced db /\
  games db' = games db /\
  prediction_accuracy db' = prediction_accuracy db /\
  ((n < 20)%Z -> system_logs db' = system_logs db /\ proposedOf r = []) /\
  ((20 <= n)%Z ->
   system_logs db' = system_logs db ++ [mkLog "weight_tuning" [n] now] /\
   exists fa, r = Tuned true n fa currentWeights (optimizedWeights fa)).
Proof.
  cbv zeta. unfold runWeightTuning.
  destruct (Z.ltb_spec (Z.of_nat (List.length (selectAnalysed now db))) 20) as [Hlt | Hge];
    cbn [fst snd ai_predictions_enhanced games prediction_accuracy system_logs proposedOf].
  - repeat split; try reflexivity; intros; lia.
  - repeat split; try reflexivity; intros; try lia. eexists. reflexivity.
Qed.

(** *** Factor statistics *)

Lemma analysed_counts rows :
  forall perf,
    (forall k, (correct (perf k) + incorrect (perf k) = count (perf k))%Z /\
               (0 <= correct (perf k))%Z /\ (0 <= incorrect (perf k))%Z) ->
    forall k,
      let p := fold_left analyse rows perf k in
      (correct p + incorrect p = count p)%Z /\
      (0 <= correct p)%Z /\ (0 <= incorrect p)%Z /\
      (count p <= count (perf k) + Z.of_nat (List.length rows))%Z.
Proof.
  induction rows as [| row rows IH]; intros perf Hperf k.
  - cbn. destruct (Hperf k) as (H1 & H2 & H3). repeat split; lia.
  - cbn [fold_left List.length].
    assert (Hstep : forall k', (correct (analyse perf row k') + incorrect (analyse perf row k')
                                = count (analyse perf row k'))%Z /\
                               (0 <= correct (analyse perf row k'))%Z /\
                               (0 <= incorrect (analyse perf row k'))%Z).
    { intros k'. destruct (Hperf k') as (H1 & H2 & H3). unfold analyse.
      destruct (factorImpact (features row) k'); [| tauto].
      unfold record. cbn [correct incorrect count].
      destruct (prediction_correct row); repeat split; lia. }
    destruct (IH (analyse perf row) Hstep k) as (I1 & I2 & I3 & I4).
    cbv zeta in *. repeat split; try assumption.
    assert (Hc : (count (analyse perf row k) <= count (perf k) + 1)%Z).
    { unfold analyse. destruct (factorImpact (features row) k); [| lia].
      unfold record. cbn [count]. lia. }
    lia.
Qed.

(** X23.  The statistics of every factor the tuner reports are consistent: the
    factor was present in at least one and at most all of the analysed
    predictions, correct and incorrect add up to the total, and the accuracy
    lies in [0,100]. *)
Theorem factor_statistics_consistent rows :
  Forall
    (fun e =>
       (fs_correct (snd e) + fs_incorrect (snd e) = fs_total (snd e))%Z /\
       (0 <= fs_correct (snd e))%Z /\ (0 <= fs_incorrect (snd e))%Z /\
       (0 < fs_total (snd e) <= Z.of_nat (List.length rows))%Z /\
       0 <= accuracy (snd e) <= 100)
    (factorAccuracyOf (fold_left analyse rows factorPerformance0)).
Proof.
  apply Forall_forall. intros [k st] Hin. cbn [snd].
  unfold factorAccuracyOf in Hin. apply in_flat_map in Hin.
  destruct Hin as (k' & _ & Hin). unfold accuracyEntry in Hin.
  destruct (analysed_counts rows factorPerformance0
              ltac:(intros; cbn; repeat split; lia) k') as (H1 & H2 & H3 & H4).
  cbv zeta in *.
  set (p := fold_left analyse rows factorPerformance0 k') in *.
  destruct (Z.ltb_spec 0 (count p)) as [Hpos | Hzero]; [| contradiction].
  destruct Hin as [Heq | []]. injection Heq as <- <-.
  cbn [fs_correct fs_incorrect fs_total accuracy].
  change (count (factorPerformance0 k')) with 0%Z in H4.
  repeat split; try lia.
  - apply (ValidatorInvariants.toFixed2_percent (correct p) (count p)); lia.
  - apply (ValidatorInvariants.toFixed2_percent (correct p) (count p)); lia.
Qed.

(** *** Predictions that store every feature *)

Lemma complete_spec f k : complete f = true -> factorImpact f k <> None.
Proof.
  unfold complete. rewrite forallb_forall. intros H.
  specialize (H k ltac:(destruct k; cbn; tauto)).
  destruct (factorImpact f k); [discriminate | discriminate].
Qed.

Lemma complete_counts rows :
  forallb (fun r => complete (features r)) rows = true ->
  forall perf k,
    correct (fold_left analyse rows perf k) = (correct (perf k) + hits rows)%Z /\
    count (fold_left analyse rows perf k)
    = (count (perf k) + Z.of_nat (List.length rows))%Z /\
    incorrect (fold_left analyse rows perf k)
    = (incorrect (perf k) + (Z.of_nat (List.length rows) - hits rows))%Z.
Proof.
  induction rows as [| row rows IH]; intros Hall perf k.
  - unfold hits. cbn. repeat split; lia.
  - cbn [forallb] in Hall. apply andb_true_iff in Hall. destruct Hall as (Hrow & Hall).
    cbn [fold_left]. destruct (IH Hall (analyse perf row) k) as (I1 & I2 & I3).
    rewrite I1, I2, I3. unfold analyse.
    destruct (factorImpact (features row) k) eqn:E;
      [| now apply (complete_spec _ k) in Hrow].
    unfold record, hits. cbn [correct count incorrect filter List.length].
    destruct (prediction_correct row); cbn [List.length]; repeat split; lia.
Qed.

(** What [Handler.featuresJson] stores is complete. *)
Lemma stored_features_complete f : complete (Handler.featuresJson f) = true.
Proof. reflexivity. Qed.

Lemma toFixed_comp d x y : x == y -> toFixed d x = toFixed d y.
Proof.
  intros H. unfold toFixed. cbv zeta.
  rewrite (Qleb_comp 0 0 ltac:(reflexivity) x y H).
  destruct (Qle_bool 0 y).
  - assert (E : x * inject_Z (10 ^ Z.of_nat d) + (1 # 2)
                == y * inject_Z (10 ^ Z.of_nat d) + (1 # 2)) by (rewrite H; reflexivity).
    now rewrite (Qfloor_comp _ _ E).
  - assert (E : - x * inject_Z (10 ^ Z.of_nat d) + (1 # 2)
                == - y * inject_Z (10 ^ Z.of_nat d) + (1 # 2)) by (rewrite H; reflexivity).
    now rewrite (Qfloor_comp _ _ E).
Qed.

Lemma uniform_accuracy_weights (st : Factor -> FactorStats) a :
  (forall k, accuracy (st k) = a) -> 0 < a ->
  optimizedWeights (map (fun k => (k, st k)) allFactors)
  = map (fun k => (k, Num (evenShareWeight k))) allFactors.
Proof.
  intros Hacc Hpos.
  set (fa := map (fun k => (k, st k)) allFactors).
  assert (Htot : totalAccuracyOf fa == 7 * a).
  { unfold totalAccuracyOf, fa, allFactors. cbn [map snd].
    rewrite !Hacc, !TunerProps.sumQ_cons, TunerProps.sumQ_nil. ring. }
  assert (Htpos : 0 < totalAccuracyOf fa) by (rewrite Htot; lra).
  pose proof (TunerProps.clampedWeights_stepped fa Htpos) as Hclamp.
  remember (totalAccuracyOf fa) as t eqn:Et.
  assert (Hstep : forall k, steppedWeight t (k, st k)
                            == (7 # 10) * currentWeights k + (3 # 70)).
  { intros k. unfold steppedWeight. cbn [fst snd]. rewrite Hacc.
    assert (Hshare : a / t == 1 # 7).
    { rewrite Htot. field. lra. }
    rewrite Hshare.
    pose proof (TunerProps.currentWeights_range k).
    q_cases; lra. }
  destruct (TunerProps.weightSum_of_numbers (steppedWeight t) fst fa 0)
    as (s & Hfold & Es).
  assert (Hs : s == 93 # 100).
  { rewrite Es. unfold fa, allFactors. cbn [map].
    rewrite !TunerProps.sumQ_cons, TunerProps.sumQ_nil.
    rewrite (Hstep team_form), (Hstep player_stats), (Hstep injuries),
      (Hstep travel_fatigue), (Hstep head_to_head), (Hstep home_advantage),
      (Hstep rest_differential).
    reflexivity. }
  assert (Hsnz : Qeq_bool s 0 = false).
  { destruct (Qeq_bool s 0) eqn:E; [| reflexivity].
    apply Qeq_bool_iff in E. rewrite Hs in E. discriminate. }
  unfold optimizedWeights, normalisedWeights. cbv zeta.
  rewrite Hclamp.
  unfold weightSumOf. rewrite Hfold. rewrite !map_map. unfold fa. rewrite map_map.
  apply map_ext. intros k. cbn [fst snd jsDiv]. rewrite Hsnz. cbn [jsToFixed3].
  f_equal. f_equal. unfold evenShareWeight. apply toFixed_comp.
  rewrite (Hstep k), Hs. reflexivity.
Qed.

Lemma complete_factor_accuracy rows :
  rows <> [] ->
  forallb (fun r => complete (features r)) rows = true ->
  exists st : Factor -> FactorStats,
    factorAccuracyOf (fold_left analyse rows factorPerformance0)
    = map (fun k => (k, st k)) allFactors /\
    forall k, accuracy (st k) = hitRate rows /\
              fs_correct (st k) = hits rows /\
              fs_total (st k) = Z.of_nat (List.length rows).
Proof.
  intros Hne Hall.
  assert (Hn : (0 < Z.of_nat (List.length rows))%Z)
    by (destruct rows; [congruence | cbn [List.length]; lia]).
  set (perf := fold_left analyse rows factorPerformance0) in *.
  assert (Hperf : forall k, correct (perf k) = hits rows /\
                            count (perf k) = Z.of_nat (List.length rows)).
  { intros k. destruct (complete_counts rows Hall factorPerformance0 k) as (H1 & H2 & _).
    fold perf in H1, H2. rewrite H1, H2. cbn. split; lia. }
  exists (fun k =>
            mkFactorStats (hitRate rows) (hits rows) (incorrect (perf k))
              (Z.of_nat (List.length rows))
              (toFixed 2 (avg_impact (perf k) / inject_Z (count (perf k))))).
  split; [| intros k; cbn; repeat split; reflexivity].
  unfold factorAccuracyOf, allFactors. cbn [flat_map map app].
  unfold accuracyEntry, hitRate.
  repeat match goal with
         | |- context [count (perf ?k)] =>
             let H := fresh in
             destruct (Hperf k) as (H & ->); rewrite ?H; clear H
         end.
  destruct (Z.ltb_spec 0 (Z.of_nat (List.length rows))); [reflexivity | lia].
Qed.

(** X24.  When every analysed prediction stores all feature keys (as every
    prediction of the ensemble does), the seven factors get the same counts
    and the same accuracy, the overall hit rate.  If that accuracy is
    positive the tuner proposes the same seven weights whatever the
    predictions were: 0.159, 0.197, 0.182, 0.136, 0.121, 0.106, 0.099. *)
Theorem complete_features_fixed_proposal rows :
  rows <> [] ->
  forallb (fun r => complete (features r)) rows = true ->
  let fa := factorAccuracyOf (fold_left analyse rows factorPerformance0) in
  map fst fa = allFactors /\
  Forall (fun e => accuracy (snd e) = hitRate rows /\
                   fs_correct (snd e) = hits rows /\
                   fs_total (snd e) = Z.of_nat (List.length rows)) fa /\
  (0 < hitRate rows ->
   optimizedWeights fa
   = [ (team_form, Num (159 # 1000)); (player_stats, Num (197 # 1000));
       (injuries, Num (182 # 1000)); (travel_fatigue, Num (136 # 1000));
       (head_to_head, Num (121 # 1000)); (home_advantage, Num (106 # 1000));
       (rest_differential, Num (99 # 1000)) ]).
Proof.
  intros Hne Hall fa.
  destruct (complete_factor_accuracy rows Hne Hall) as (st & Hfa & Hst).
  fold fa in Hfa.
  split; [| split].
  - rewrite Hfa, map_map. cbn [fst]. apply map_id.
  - rewrite Hfa. apply Forall_forall. intros e He. apply in_map_iff in He.
    destruct He as (k & <- & _). cbn [snd]. apply Hst.
  - intros Hpos. rewrite Hfa.
    rewrite (uniform_accuracy_weights st (hitRate rows) (fun k => proj1 (Hst k)) Hpos).
    vm_compute. reflexivity.
Qed.

Lemma complete_features_fixed_proposal_witness :
  let rows := selectAnalysed 10 twelveOfTwenty in
  let fa := factorAccuracyOf (fold_left analyse rows factorPerformance0) in
  hitRate rows == 60 /\
  optimizedWeights fa
  = [ (team_form, Num (159 # 1000)); (player_stats, Num (197 # 1000));
      (injuries, Num (182 # 1000)); (travel_fatigue, Num (136 # 1000));
      (head_to_head, Num (121 # 1000)); (home_advantage, Num (106 # 1000));
      (rest_differential, Num (99 # 1000)) ].
Proof.
  intros rows fa.
  assert (Hne : rows <> []) by (vm_compute; discriminate).
  assert (Hall : forallb (fun r => complete (features r)) rows = true)
    by (vm_compute; reflexivity).
  assert (Hpos : 0 < hitRate rows) by (vm_compute; reflexivity).
  split; [vm_compute; reflexivity |].
  exact (proj2 (proj2 (complete_features_fixed_proposal rows Hne Hall)) Hpos).
Defined.

(** *** Recommendations *)



(** *** No correct prediction *)

Lemma no_hits_counts rows :
  forallb (fun r => negb (prediction_correct r)) rows = true ->
  forall perf k, correct (fold_left analyse rows perf k) = correct (perf k).
Proof.
  induction rows as [| row rows IH]; intros Hall perf k; [reflexivity |].
  cbn [forallb] in Hall. apply andb_true_iff in Hall. destruct Hall as (Hrow & Hall).
  apply negb_true_iff in Hrow.
  cbn [fold_left]. rewrite (IH Hall). unfold analyse.
  destruct (factorImpact (features row) k); [| reflexivity].
  unfold record. rewrite Hrow. reflexivity.
Qed.

Lemma toFixed2_zero n : toFixed 2 (inject_Z 0 / inject_Z n * 100) == 0.
Proof.
  assert (E : inject_Z 0 / inject_Z n * 100 == 0).
  { unfold Qdiv. change (inject_Z 0) with 0. ring. }
  rewrite (toFixed_comp 2 _ 0 E). vm_compute. reflexivity.
Qed.

Lemma no_hits_accuracy rows :
  forallb (fun r => negb (prediction_correct r)) rows = true ->
  forall e, In e (factorAccuracyOf (fold_left analyse rows factorPerformance0)) ->
            accuracy (snd e) == 0.
Proof.
  intros Hall [k st] Hin. unfold factorAccuracyOf in Hin.
  apply in_flat_map in Hin. destruct Hin as (k' & _ & Hin).
  unfold accuracyEntry in Hin.
  destruct (0 <? count (fold_left analyse rows factorPerformance0 k'))%Z;
    [| contradiction].
  destruct Hin as [Heq | []]. injection Heq as <- <-. cbn [snd accuracy].
  rewrite (no_hits_counts rows Hall). cbn [factorPerformance0 correct].
  apply toFixed2_zero.
Qed.

Lemma sumQ_zero l : Forall (fun x => x == 0) l -> sumQ l == 0.
Proof.
  induction 1 as [| x l Hx _ IH]; [reflexivity |].
  rewrite TunerProps.sumQ_cons, Hx, IH. reflexivity.
Qed.

Lemma weights_without_accuracy fa :
  totalAccuracyOf fa == 0 ->
  optimizedWeights fa = map (fun e => (fst e, NaN)) fa.
Proof.
  intros Hzero.
  assert (Hb : Qeq_bool (sumQ (map (fun e => accuracy (snd e)) fa)) 0 = true)
    by (apply Qeq_bool_iff; exact Hzero).
  assert (Hc : clampedWeights fa = map (fun e => (fst e, NaN)) fa).
  { unfold clampedWeights. cbv zeta. apply map_ext. intros e.
    unfold optimizeOne. rewrite Hb. reflexivity. }
  unfold optimizedWeights, normalisedWeights. cbv zeta. rewrite Hc, !map_map.
  apply map_ext. intros e. reflexivity.
Qed.

Lemma parsedWeight_NaN (fa : list (Factor * FactorStats)) k :
  parsedWeight (map (fun e => (fst e, NaN)) fa) k = 0.
Proof.
  unfold parsedWeight.
  induction fa as [| e fa IH]; [reflexivity |].
  cbn [map weightOf fst]. destruct (Factor_eqb (fst e) k); [reflexivity | exact IH].
Qed.

(** X26.  When none of the analysed predictions was right every accuracy is 0, the
    total accuracy the shares are divided by is 0, and the run reports [NaN]
    for every weight; the recommendations then read needs_improvement with a
    change of -100.0 percent and the action to decrease the weight
    significantly, for every factor. *)
Theorem no_correct_prediction_gives_NaN now db :
  (20 <= Z.of_nat (List.length (selectAnalysed now db)))%Z ->
  forallb (fun r => negb (prediction_correct r)) (selectAnalysed now db) = true ->
  exists fa,
    fst (runWeightTuning now db)
    = Tuned true (Z.of_nat (List.length (selectAnalysed now db))) fa currentWeights
        (map (fun e => (fst e, NaN)) fa) /\
    Forall (fun e => accuracy (snd e) == 0) fa /\
    map rec_factor (generateRecommendations fa (map (fun e => (fst e, NaN)) fa))
    = map fst fa /\
    Forall (fun r => rec_status r = "needs_improvement"%string /\
                     rec_accuracy r == 0 /\
                     rec_change r == - (100) /\
                     rec_plus r = false /\
                     rec_action r = "Decrease weight significantly"%string)
           (generateRecommendations fa (map (fun e => (fst e, NaN)) fa)).
Proof.
  intros Hn Hall.
  set (fa := factorAccuracyOf (fold_left analyse (selectAnalysed now db) factorPerformance0)).
  assert (Hacc : forall e, In e fa -> accuracy (snd e) == 0)
    by (apply no_hits_accuracy; exact Hall).
  assert (Hzero : totalAccuracyOf fa == 0).
  { unfold totalAccuracyOf. apply sumQ_zero. apply Forall_forall.
    intros x Hx. apply in_map_iff in Hx. destruct Hx as (e & <- & He). now apply Hacc. }
  exists fa. split; [| split; [| split]].
  - unfold runWeightTuning. cbv zeta.
    destruct (Z.ltb_spec (Z.of_nat (List.length (selectAnalysed now db))) 20); [lia |].
    cbn [fst]. fold fa. now rewrite (weights_without_accuracy fa Hzero).
  - now apply Forall_forall.
  - unfold generateRecommendations. rewrite map_map. apply map_ext.
    intros e. unfold recommend. cbv zeta.
    destruct (Qle_bool 70 (accuracy (snd e))); [reflexivity |].
    destruct (Qle_bool 55 (accuracy (snd e))); reflexivity.
  - unfold generateRecommendations. apply Forall_forall. intros r Hr.
    apply in_map_iff in Hr. destruct Hr as (e & <- & He).
    pose proof (Hacc e He) as Ha. unfold recommend. cbv zeta.
    rewrite parsedWeight_NaN.
    assert (H70 : Qle_bool 70 (accuracy (snd e)) = false).
    { destruct (Qle_bool 70 (accuracy (snd e))) eqn:E; [| reflexivity].
      apply Qle_bool_iff in E. rewrite Ha in E. now vm_compute in E. }
    assert (H55 : Qle_bool 55 (accuracy (snd e)) = false).
    { destruct (Qle_bool 55 (accuracy (snd e))) eqn:E; [| reflexivity].
      apply Qle_bool_iff in E. rewrite Ha in E. now vm_compute in E. }
    rewrite H70, H55. cbn [rec_status rec_accuracy rec_change rec_plus rec_action].
    destruct e as [k st]. cbn [fst snd] in *.
    repeat split; try assumption; destruct k; vm_compute; reflexivity.
Qed.

Lemma no_correct_prediction_gives_NaN_witness :
  exists fa,
    fst (runWeightTuning 10 Inputs.allWrongStore)
    = Tuned true (Z.of_nat (List.length (selectAnalysed 10 Inputs.allWrongStore))) fa
        currentWeights (map (fun e => (fst e, NaN)) fa) /\
    Forall (fun e => accuracy (snd e) == 0) fa /\
    map rec_factor (generateRecommendations fa (map (fun e => (fst e, NaN)) fa))
    = map fst fa /\
    Forall (fun r => rec_status r = "needs_improvement"%string /\
                     rec_accuracy r == 0 /\
                     rec_change r == - (100) /\
                     rec_plus r = false /\
                     rec_action r = "Decrease weight significantly"%string)
           (generateRecommendations fa (map (fun e => (fst e, NaN)) fa)).
Proof.
  apply (no_correct_prediction_gives_NaN 10 Inputs.allWrongStore).
  - vm_compute. discriminate.
  - vm_compute. reflexivity.
Defined.

End TunerInvariants.

(* ===================================================================== *)
(** ** The accuracy statistics of the API                                  *)
(* ===================================================================== *)

Module AccuracyApiProps.
Import JS JSFacts Store Validator AccuracyApi.

Lemma report_counts now db :
  total_predictions (getPredictionAccuracy now db)
  = Z.of_nat (List.length (lastThirtyDays now db)) /\
  correct_predictions (getPredictionAccuracy now db)
  = Z.of_nat (List.length (filter a_prediction_correct (lastThirtyDays now db))).
Proof.
  unfold getPredictionAccuracy. cbv zeta. cbn [total_predictions correct_predictions].
  split; [reflexivity |].
  destruct (lastThirtyDays now db); reflexivity.
Qed.

(** X27.  The accuracy statistics the API reports: the correct predictions
    are among the predictions counted, which are rows of the table; the
    percentage lies in [0,100]; and without a row of the last 30 days every
    number reported is 0. *)
Theorem accuracy_report_range now db :
  let a := getPredictionAccuracy now db in
  0 <= correct_predictions a <= total_predictions a /\
  total_predictions a <= Z.of_nat (List.length (prediction_accuracy db)) /\
  (0 <= accuracy_percentage a <= 100)%Q /\
  (total_predictions a = 0 ->
   correct_predictions a = 0 /\ (accuracy_percentage a == 0)%Q /\
   (average_confidence a == 0)%Q /\ (average_error a == 0)%Q).
Proof.
  intros a. subst a.
  destruct (report_counts now db) as (Ht & Hc). rewrite Ht, Hc.
  pose proof (filter_length_le a_prediction_correct (lastThirtyDays now db)) as H1.
  assert (H2 : (List.length (lastThirtyDays now db)
                <= List.length (prediction_accuracy db))%nat)
    by apply filter_length_le.
  split; [lia |]. split; [lia |].
  unfold getPredictionAccuracy. cbv zeta.
  cbn [accuracy_percentage average_confidence average_error].
  destruct (lastThirtyDays now db) as [| r rows] eqn:E.
  - cbn [List.length numZ]. change (0 <? Z.of_nat 0) with false. cbv iota.
    split; [lra |]. intros _.
    split; [reflexivity |]. split; [reflexivity |]. split; reflexivity.
  - set (l := r :: rows) in *.
    assert (Hpos : 0 < Z.of_nat (List.length l)) by (subst l; cbn [List.length]; lia).
    destruct (Z.ltb_spec 0 (Z.of_nat (List.length l))); [| lia].
    cbn [numZ]. split.
    + apply ValidatorInvariants.toFixed2_percent; lia.
    + intros Hz. lia.
Qed.

(** X28.  A validation pass feeds the API: at the time of the pass the
    statistics count every prediction just validated, and every one just
    found correct, on top of what they counted before. *)
Theorem validation_feeds_accuracy_report now db :
  let r := fst (runPredictionValidation now db) in
  let db' := snd (runPredictionValidation now db) in
  total_predictions (getPredictionAccuracy now db')
  = total_predictions (getPredictionAccuracy now db) + r_validated r /\
  correct_predictions (getPredictionAccuracy now db')
  = correct_predictions (getPredictionAccuracy now db) + r_correct r.
Proof.
  intros r db'. subst r db'.
  destruct (report_counts now db) as (Ht & Hc).
  destruct (report_counts now (snd (runPredictionValidation now db))) as (Ht' & Hc').
  rewrite Ht, Hc, Ht', Hc'. clear Ht Hc Ht' Hc'.
  rewrite ValidatorProps.run_unfold. cbv zeta.
  cbn [fst snd r_validated r_correct].
  destruct (ValidatorInvariants.countersAfter_counts (selectPredictions now db)
              (mkCounters 0 0 0)) as (H1 & H2 & _).
  cbn [validated correct] in H1, H2. rewrite H1, H2.
  unfold lastThirtyDays. cbn [prediction_accuracy].
  set (js := selectPredictions now db).
  assert (E : filter (fun a => now - 30 * secondsPerDay <=? a_created_at a)
                     (map (accuracyRowOf now) js) = map (accuracyRowOf now) js).
  { clear. induction js as [| j js IH]; [reflexivity |].
    cbn [map filter]. unfold accuracyRowOf at 1. cbn [a_created_at].
    destruct (Z.leb_spec (now - 30 * secondsPerDay) now) as [_ | H];
      [now rewrite IH | unfold secondsPerDay in H; lia]. }
  assert (Ec : List.length (filter a_prediction_correct (map (accuracyRowOf now) js))
               = List.length (filter wasCorrectOf js)).
  { clear. induction js as [| j js IH]; [reflexivity |].
    cbn [map filter]. unfold accuracyRowOf at 1. cbn [a_prediction_correct].
    destruct (wasCorrectOf j); cbn [List.length]; now rewrite IH. }
  rewrite !filter_app, E, !length_app, Ec, length_map. lia.
Qed.

End AccuracyApiProps.

(* ===================================================================== *)
(** ** The pick and the predicted scores                                   *)
(* ===================================================================== *)

Module EngineScoreProps.
Import JS JSFacts Engine.
Local Open Scope Q_scope.

Lemma sportConstants_cases sport :
  sportConstants sport = (110, 105, 15) \/ sportConstants sport = (24, 21, 7) \/
  sportConstants sport = (45 # 10, 4, 2) \/ sportConstants sport = (100, 95, 10).
Proof.
  unfold sportConstants. cbv zeta.
  destruct (String.eqb (toLowerCase sport) "nba"); [now left |].
  destruct (String.eqb (toLowerCase sport) "nfl"); [now right; left |].
  destruct (String.eqb (toLowerCase sport) "mlb"); [now right; right; left |].
  now right; right; right.
Qed.

Lemma round1_positive x : (1 # 2) <= x -> 0 < round1 x.
Proof.
  intros H. unfold round1.
  assert (Hr : (Math_round (inject_Z 5) <= Math_round (x * 10))%Z)
    by (apply Math_round_mono; change (inject_Z 5) with 5; lra).
  rewrite Math_round_Z in Hr. rewrite Zle_Qle in Hr. change (inject_Z 5) with 5 in Hr.
  apply Qlt_shift_div_l; [reflexivity | lra].
Qed.

(** X30.  The pick and the predicted scores can disagree.  For an even game
    (home-win probability exactly one half, the two teams level on form,
    injuries and fatigue) with a positive predicted away score, the record
    names the away team as the winner while the predicted spread is positive
    and the predicted home score is at least the predicted away score, in
    every sport: the pick goes to the away team on an even split, the scores
    start from a home base above the away base. *)
Theorem even_game_pick_against_scores f game :
  homeWinProbOf f == 1 # 2 ->
  home_team_form f == away_team_form f ->
  home_injury_impact f == away_injury_impact f ->
  home_fatigue f == away_fatigue f ->
  0 < snd (predictScores (sport game) (homeWinProbOf f) f) ->
  let p := calculateWeightedPrediction f game in
  winner p = away /\ 0 < spread p /\ (awayScore p <= homeScore p)%Z.
Proof.
  intros Hp Hform Hinj Hfat Hpos p. subst p.
  unfold calculateWeightedPrediction.
  assert (Hw : Qgt_bool (homeWinProbOf f) (1 # 2) = false).
  { unfold Qgt_bool. apply negb_false_iff. apply Qle_bool_iff. rewrite Hp. lra. }
  rewrite Hw.
  unfold predictScores in *.
  set (q := homeWinProbOf f) in *.
  destruct (sportConstants_cases (sport game)) as [E | [E | [E | E]]]; rewrite E in *;
    cbn [fst snd] in Hpos; cbn [winner spread homeScore awayScore];
    match goal with
    | |- _ /\ 0 < round1 (Qmax 0 ?h - Qmax 0 ?a) /\ _ =>
        set (hs := h) in *; set (as_ := a) in *
    end;
    (assert (Ha : 0 < as_) by (revert Hpos; q_cases; lra));
    (assert (Hd : (1 # 2) <= hs - as_)
       by (subst hs as_; unfold Qdiv;
           repeat match goal with
                  | |- context [Qinv ?b] =>
                      let c := eval vm_compute in (Qinv b) in change (Qinv b) with c
                  end; lra));
    (assert (Hh : Qmax 0 hs == hs) by (q_cases; lra));
    (assert (Has : Qmax 0 as_ == as_) by (q_cases; lra));
    (split; [reflexivity |]); split.
  all: try (apply round1_positive; lra).
  all: apply Math_round_mono; lra.
Qed.

Lemma even_game_pick_against_scores_witness :
  let p := calculateWeightedPrediction Inputs.evenFeatures Inputs.bostonAtHome in
  winner p = away /\ 0 < spread p /\ (awayScore p <= homeScore p)%Z.
Proof.
  apply (even_game_pick_against_scores Inputs.evenFeatures Inputs.bostonAtHome);
    vm_compute; reflexivity.
Defined.

End EngineScoreProps.

(* ===================================================================== *)
(** ** From the engine through the store to the validator                  *)
(* ===================================================================== *)

Module PipelineProps.
Import JS JSFacts Store Validator LoopNotions.

Lemma ensemble_winner_id (collect : Engine.Game -> option Engine.Features) game f r1 r2 :
  collect game = Some f ->
  Engine.predicted_winner_team_id (Engine.generatePrediction collect game r1 r2)
  = match Engine.winner (Engine.calculateWeightedPrediction f game) with
    | Engine.home => Engine.homeTeamId game
    | Engine.away => Engine.awayTeamId game
    end /\
  Engine.features (Engine.generatePrediction collect game r1 r2) = Some f.
Proof.
  intros Hc. unfold Engine.generatePrediction. rewrite Hc. split; reflexivity.
Qed.

(** X29.  The row the handler stores for an ensemble prediction, and what
    the validator makes of it.  The row is pending and carries every feature
    key; it awaits validation by a game row exactly when that row is final or
    completed and the prediction is at most seven days old.  When the two
    team ids are known and distinct it is counted correct exactly when the
    pick agrees with the score (home picked, and the home team scored more;
    or away picked, and it did not).  When neither team id is known (both are
    stored as NULL) it is counted correct whatever the score. *)
Theorem stored_prediction_verdict
  (collect : Engine.Game -> option Engine.Features) game f rowid now r1 r2 hs as_ st :
  collect game = Some f ->
  let p := Engine.generatePrediction collect game r1 r2 in
  let row := Handler.predictionRowOf rowid now game p in
  let j := mkJoined row hs as_ st in
  (p_actual_outcome row = None /\ p_was_correct row = None /\
   p_margin_of_error row = None /\ p_validated_at row = None /\
   exists sf, p_features row = Some sf /\ complete sf = true) /\
  (forall now' g,
     needsValidation now' row g = true <->
     (g_status g = "final"%string \/ g_status g = "completed"%string) /\
     now' - 7 * secondsPerDay <= now) /\
  (forall h a,
     Engine.homeTeamId game = Some h -> Engine.awayTeamId game = Some a -> h <> a ->
     (wasCorrectOf j = true <->
      (Engine.winner (Engine.calculateWeightedPrediction f game) = Engine.home
       <-> numZ as_ < numZ hs))) /\
  (Engine.homeTeamId game = None -> Engine.awayTeamId game = None ->
   wasCorrectOf j = true).
Proof.
  intros Hc p row j.
  destruct (ensemble_winner_id collect game f r1 r2 Hc) as (Hw & Hf). fold p in Hw, Hf.
  split; [| split; [| split]].
  - subst row. unfold Handler.predictionRowOf.
    cbn [p_actual_outcome p_was_correct p_margin_of_error p_validated_at p_features].
    repeat (split; [reflexivity |]).
    rewrite Hf. cbn [option_map]. eexists. split; reflexivity.
  - intros now' g. subst row. unfold needsValidation, Handler.predictionRowOf.
    cbn [p_actual_outcome p_created_at].
    rewrite andb_true_r, andb_true_iff, orb_true_iff, !String.eqb_eq, Z.leb_le.
    tauto.
  - intros h a Hh Ha Hne. subst j. unfold wasCorrectOf. rewrite ValidatorProps.strictEqText_iff.
    unfold actualWinnerOf. cbn [pred home_score away_score].
    subst row. unfold Handler.predictionRowOf.
    cbn [p_home_team_id p_away_team_id p_predicted_winner_team_id].
    rewrite Hw, Hh, Ha.
    assert (Hha : Some h <> Some a) by congruence.
    assert (Hah : Some a <> Some h) by congruence.
    destruct (Engine.winner (Engine.calculateWeightedPrediction f game));
      destruct (Z.ltb_spec (numZ as_) (numZ hs)) as [Hlt | Hge].
    + split; [intros _; split; intros _; [exact Hlt | reflexivity] | reflexivity].
    + split; [intros E; contradiction |].
      intros (E1 & _). specialize (E1 eq_refl). lia.
    + split; [intros E; contradiction |].
      intros (_ & E2). specialize (E2 Hlt). discriminate.
    + split; [| reflexivity].
      intros _. split; [discriminate | lia].
  - intros Hh Ha. subst j. unfold wasCorrectOf. rewrite ValidatorProps.strictEqText_iff.
    unfold actualWinnerOf. cbn [pred home_score away_score].
    subst row. unfold Handler.predictionRowOf.
    cbn [p_home_team_id p_away_team_id p_predicted_winner_team_id].
    rewrite Hw, Hh, Ha.
    destruct (Engine.winner (Engine.calculateWeightedPrediction f game));
      destruct (numZ as_ <? numZ hs); reflexivity.
Qed.

Lemma stored_prediction_verdict_witness :
  let p := Engine.generatePrediction (fun _ => Some Inputs.neutralFeatures)
             Inputs.bostonAtHome (1 # 2) (3 # 4) in
  let row := Handler.predictionRowOf 1 0 Inputs.bostonAtHome p in
  wasCorrectOf (mkJoined row (Some 110) (Some 101) "final") = true.
Proof.
  intros p row.
  destruct (stored_prediction_verdict (fun _ => Some Inputs.neutralFeatures)
              Inputs.bostonAtHome Inputs.neutralFeatures 1 0 (1 # 2) (3 # 4)
              (Some 110) (Some 101) "final" eq_refl) as (_ & _ & H & _).
  apply (H "nba-bos"%string "nba-lal"%string eq_refl eq_refl);
    [discriminate | split; intros _; [reflexivity | vm_compute; reflexivity]].
Defined.

End PipelineProps.

(* ===================================================================== *)
(** ** Failing adapter calls and the fallback record                       *)
(* ===================================================================== *)

Module PipelineFailureProps.
Import JS JSFacts Engine EngineAnalysis Pipeline.
Local Open Scope Q_scope.

(** With every adapter call succeeding the try block assembles the features
    of [collectFeatures]. *)
Lemma assembleFeatures_of_tables tables now venueScore game :
  assembleFeatures venueScore (callsOf tables now game)
  = collectFeatures tables now venueScore game.
Proof. reflexivity. Qed.




End PipelineFailureProps.
